(** * HamCal: a shallow embedding of [src/hamcal.py]

    Python values are modelled as follows.
    - [str]: a list of Unicode code points ([N]).
    - [datetime] (always timezone-aware and in UTC in this program): the
      number of microseconds since midnight of proleptic-Gregorian ordinal 0,
      so that [toordinal] is the quotient by one day.  Comparison of aware
      datetimes is comparison of instants; [astimezone(timezone.utc)] is the
      identity on them.
    - [timedelta]: a number of microseconds.
    - [date]: a record of year, month and day; its arithmetic goes through
      ordinals as in the [datetime] module.
    - exceptions: [option], [None] standing for a raised exception. *)

From Stdlib Require Import Ascii String DecimalString.
From Stdlib Require Import ZArith NArith List Bool Lia.
From Stdlib Require Import Permutation Sorted.
Import ListNotations.

Local Open Scope Z_scope.

(** ** Strings *)

(** [char] is a code point and [str] a list of them. *)
Abbreviation char := N.
Abbreviation str := (list N).

Definition lit (s : string) : str := map N_of_ascii (list_ascii_of_string s).

Definition char_eqb (a b : char) : bool := N.eqb a b.

Fixpoint str_eqb (a b : str) : bool :=
  match a, b with
  | [], [] => true
  | x :: a', y :: b' => char_eqb x y && str_eqb a' b'
  | _, _ => false
  end.

(** [s.startswith(p)] *)
Fixpoint startswith (p s : str) : bool :=
  match p, s with
  | [], _ => true
  | _ :: _, [] => false
  | x :: p', y :: s' => char_eqb x y && startswith p' s'
  end.

(** [k in s] for strings: substring test. *)
Fixpoint contains (k s : str) : bool :=
  startswith k s ||
  match s with
  | [] => false
  | _ :: s' => contains k s'
  end.

(** [sep.join(parts)] *)
Fixpoint join (sep : str) (parts : list str) : str :=
  match parts with
  | [] => []
  | [p] => p
  | p :: ps => p ++ sep ++ join sep ps
  end.

(** [s.replace(old, new)]: non-overlapping occurrences, left to right.
    [skip] counts the characters of a matched occurrence still to be dropped.
    An empty [old] matches before every character and at the end. *)
Fixpoint replace_from (old new : str) (skip : nat) (s : str) : str :=
  match s with
  | [] => []
  | c :: s' =>
      match skip with
      | S k => replace_from old new k s'
      | O =>
          if startswith old s
          then new ++ replace_from old new (Nat.pred (length old)) s'
          else c :: replace_from old new O s'
      end
  end.

Definition replace (old new s : str) : str :=
  match old with
  | [] => new ++ flat_map (fun c => c :: new) s
  | _ :: _ => replace_from old new O s
  end.

(** Whitespace in the sense of [str.isspace], which [str.strip()] removes. *)
Definition is_space (c : char) : bool :=
  ((9 <=? c) && (c <=? 13) || (28 <=? c) && (c <=? 32) ||
   (c =? 133) || (c =? 160) || (c =? 5760) ||
   (8192 <=? c) && (c <=? 8202) || (c =? 8232) || (c =? 8233) ||
   (c =? 8239) || (c =? 8287) || (c =? 12288))%N.

Fixpoint lstrip (s : str) : str :=
  match s with
  | [] => []
  | c :: s' => if is_space c then lstrip s' else s
  end.

Definition rstrip (s : str) : str := rev (lstrip (rev s)).

(** [s.strip()] *)
Definition strip (s : str) : str := rstrip (lstrip s).

(** Decimal rendering of an [int], as in [f"{n}"]. *)
Definition str_of_int (n : Z) : str := lit (NilZero.string_of_int (Z.to_int n)).

(** [s.rjust(width, "0")] on a digit string: what [%02d], [%04d], [%06d] do
    to a non-negative number. *)
Definition zfill (width : nat) (s : str) : str :=
  repeat 48%N (width - length s) ++ s.

Definition pad (width : nat) (n : Z) : str := zfill width (str_of_int n).

(** Truthiness of an [Optional[str]]: [None] and the empty string are false. *)
Definition truthy (o : option str) : bool :=
  match o with
  | Some (_ :: _) => true
  | _ => false
  end.

(** ** Dates ([datetime.date]) *)

Record date := mkdate { year : Z; month : Z; day : Z }.

Definition is_leap (y : Z) : bool :=
  (y mod 4 =? 0) && (negb (y mod 100 =? 0) || (y mod 400 =? 0)).

Definition days_before_year (y : Z) : Z :=
  let y := y - 1 in y * 365 + y / 4 - y / 100 + y / 400.

Definition days_in_month (y m : Z) : Z :=
  if (m =? 2) && is_leap y then 29
  else nth (Z.to_nat m) [0; 31; 28; 31; 30; 31; 30; 31; 31; 30; 31; 30; 31] 0.

Definition DAYS_BEFORE_MONTH (m : Z) : Z :=
  nth (Z.to_nat m) [0; 0; 31; 59; 90; 120; 151; 181; 212; 243; 273; 304; 334] 0.

Definition days_before_month (y m : Z) : Z :=
  DAYS_BEFORE_MONTH m + (if (2 <? m) && is_leap y then 1 else 0).

Definition ymd2ord (y m d : Z) : Z :=
  days_before_year y + days_before_month y m + d.

Definition MINYEAR : Z := 1.
Definition MAXYEAR : Z := 9999.
Definition MAXORDINAL : Z := 3652059.

(** [date(y, m, d)]; [ValueError] when a field is out of range. *)
Definition date_of (y m d : Z) : option date :=
  if (MINYEAR <=? y) && (y <=? MAXYEAR) && (1 <=? m) && (m <=? 12) &&
     (1 <=? d) && (d <=? days_in_month y m)
  then Some (mkdate y m d) else None.

Definition toordinal (d : date) : Z := ymd2ord (year d) (month d) (day d).

(** [d.weekday()]: Monday is 0, Saturday is 5. *)
Definition weekday (d : date) : Z := (toordinal d + 6) mod 7.

(** [d.replace(day=n)] *)
Definition replace_day (d : date) (n : Z) : option date :=
  date_of (year d) (month d) n.

(** [_ord2ymd] of the [datetime] module. *)
Definition ord2ymd (n : Z) : date :=
  let n := n - 1 in
  let n400 := n / 146097 in
  let n := n mod 146097 in
  let y := n400 * 400 + 1 in
  let n100 := n / 36524 in
  let n := n mod 36524 in
  let n4 := n / 1461 in
  let n := n mod 1461 in
  let n1 := n / 365 in
  let n := n mod 365 in
  let y := y + n100 * 100 + n4 * 4 + n1 in
  if (n1 =? 4) || (n100 =? 4) then mkdate (y - 1) 12 31
  else
    let leapyear := (n1 =? 3) && (negb (n4 =? 24) || (n100 =? 3)) in
    let m := Z.shiftr (n + 50) 5 in
    let preceding := DAYS_BEFORE_MONTH m + (if (2 <? m) && leapyear then 1 else 0) in
    if n <? preceding then
      let m := m - 1 in
      let dim := nth (Z.to_nat m) [0; 31; 28; 31; 30; 31; 30; 31; 31; 30; 31; 30; 31] 0 in
      let preceding := preceding - (dim + (if (m =? 2) && leapyear then 1 else 0)) in
      mkdate y m (n - preceding + 1)
    else mkdate y m (n - preceding + 1).

(** [date.fromordinal(n)] *)
Definition fromordinal (n : Z) : option date :=
  if (1 <=? n) && (n <=? MAXORDINAL) then Some (ord2ymd n) else None.

(** ** Instants and spans ([datetime.datetime], [datetime.timedelta]) *)

Definition datetime := Z.
Definition timedelta := Z.

Definition US_PER_SECOND : Z := 1000000.
Definition US_PER_DAY : Z := 86400 * US_PER_SECOND.

Definition timedelta_days (n : Z) : timedelta := n * US_PER_DAY.
Definition timedelta_hours (n : Z) : timedelta := n * 3600 * US_PER_SECOND.
Definition timedelta_weeks (n : Z) : timedelta := timedelta_days (7 * n).

Definition datetime_min : datetime := 1 * US_PER_DAY.
Definition datetime_max : datetime := MAXORDINAL * US_PER_DAY + (US_PER_DAY - 1).

(** [dt + delta]; [OverflowError] outside years 1..9999. *)
Definition datetime_add (dt : datetime) (delta : timedelta) : option datetime :=
  let r := dt + delta in
  if (datetime_min <=? r) && (r <=? datetime_max) then Some r else None.

(** [datetime(d.year, d.month, d.day, 0, 0, tzinfo=timezone.utc)] *)
Definition datetime_midnight (d : date) : datetime := toordinal d * US_PER_DAY.

(** [dt.date()] and the clock fields of an instant. *)
Definition datetime_date (dt : datetime) : date := ord2ymd (dt / US_PER_DAY).
Definition datetime_hour (dt : datetime) : Z := (dt mod US_PER_DAY) / (3600 * US_PER_SECOND).
Definition datetime_minute (dt : datetime) : Z := (dt mod (3600 * US_PER_SECOND)) / (60 * US_PER_SECOND).
Definition datetime_second (dt : datetime) : Z := (dt mod (60 * US_PER_SECOND)) / US_PER_SECOND.
Definition datetime_microsecond (dt : datetime) : Z := dt mod US_PER_SECOND.

(** [date + timedelta]: only whole days count. *)
Definition date_add (d : date) (delta : timedelta) : option date :=
  fromordinal (toordinal d + delta / US_PER_DAY).

(** [dt.isoformat()] of an aware UTC datetime. *)
Definition isoformat (dt : datetime) : str :=
  let d := datetime_date dt in
  pad 4 (year d) ++ lit "-" ++ pad 2 (month d) ++ lit "-" ++ pad 2 (day d) ++
  lit "T" ++ pad 2 (datetime_hour dt) ++ lit ":" ++ pad 2 (datetime_minute dt) ++
  lit ":" ++ pad 2 (datetime_second dt) ++
  (if datetime_microsecond dt =? 0 then [] else lit "." ++ pad 6 (datetime_microsecond dt)) ++
  lit "+00:00".

(** [dt.strftime("%Y%m%dT%H%M%SZ")].  The year is rendered by the C library,
    which does not pad it: a year below 1000 takes fewer than four digits.
    The other fields are padded to two digits. *)
Definition dt_to_ics (dt : datetime) : str :=
  let d := datetime_date dt in
  str_of_int (year d) ++ pad 2 (month d) ++ pad 2 (day d) ++ lit "T" ++
  pad 2 (datetime_hour dt) ++ pad 2 (datetime_minute dt) ++
  pad 2 (datetime_second dt) ++ lit "Z".

(** ** The event model *)

Record Event := mkEvent {
  title : str;
  start : datetime;
  end_ : datetime;
  url : option str;
  description : option str;
  categories : list str;
  source : str
}.

Definition set_categories (e : Event) (cs : list str) : Event :=
  mkEvent (title e) (start e) (end_ e) (url e) (description e) cs (source e).

Definition mem (c : str) (cs : list str) : bool := existsb (str_eqb c) cs.

(** [Event.add_category] *)
Definition add_category (e : Event) (c : str) : Event :=
  if mem c (categories e) then e else set_categories e (categories e ++ [c]).

(** ** Durations *)

(** The nearest integer to [n / d], ties going to the even one. *)
Definition round_half_even (n d : Z) : Z :=
  let q := n / d in
  let r := n mod d in
  if 2 * r <? d then q
  else if d <? 2 * r then q + 1
  else if Z.even q then q else q + 1.

(** The binary exponent of [n] microseconds counted in seconds: the [k]
    with [2^k <= n / 10^6 < 2^(k+1)], for [n >= 1] (so [k >= -20]). *)
Definition binade (n : Z) : Z := Z.log2 (n * 2 ^ 20 / 1000000) - 20.

(** [int(delta.total_seconds())].  [total_seconds()] divides the span in
    microseconds by 10^6 as a float: the result is the double nearest to the
    quotient (ties to even), that is a multiple [m * 2^(k-52)] of the unit in
    the last of its 53 bits; [int] then drops the fraction.  For spans of
    more than 2^34 seconds the double can be the next whole second. *)
Definition total_seconds_int (delta : timedelta) : Z :=
  if delta =? 0 then 0
  else
    let n := Z.abs delta in
    let sh := 52 - binade n in
    let whole :=
      if 0 <=? sh then round_half_even (n * 2 ^ sh) US_PER_SECOND / 2 ^ sh
      else round_half_even n (US_PER_SECOND * 2 ^ (- sh)) * 2 ^ (- sh) in
    Z.sgn delta * whole.

(** The spans for which the float of [total_seconds()] has the whole seconds
    of the span: those shorter than 2^34 seconds (about 544 years). *)
Definition exact_span (delta : timedelta) : Prop :=
  Z.abs delta < 2 ^ 34 * US_PER_SECOND.

Definition fmt_duration (start_utc end_utc : datetime) : str :=
  let delta := end_utc - start_utc in
  let total_seconds := total_seconds_int delta in
  if total_seconds <=? 0 then lit "0m"
  else
    let mins := total_seconds / 60 in
    let days := mins / (60 * 24) in
    let mins := mins mod (60 * 24) in
    let hours := mins / 60 in
    let mins := mins mod 60 in
    let parts := [] in
    let parts := if days =? 0 then parts else parts ++ [str_of_int days ++ lit "d"] in
    let parts := if hours =? 0 then parts else parts ++ [str_of_int hours ++ lit "h"] in
    let parts :=
      if negb (mins =? 0) || match parts with [] => true | _ => false end
      then parts ++ [str_of_int mins ++ lit "m"] else parts in
    join (lit " ") parts.

(** The parts that [fmt_duration] joins, as a function of the day, hour and
    minute counts; used to state what it returns. *)
Definition duration_parts (d h m : Z) : list str :=
  (if d =? 0 then [] else [str_of_int d ++ lit "d"]) ++
  (if h =? 0 then [] else [str_of_int h ++ lit "h"]) ++
  (if negb (m =? 0) || ((d =? 0) && (h =? 0)) then [str_of_int m ++ lit "m"] else []).

(** ** Regular expressions

    The fragment of Python's [re] that the program uses, with its
    backtracking semantics: alternatives and repetitions are tried in the
    engine's order and the first way to match the rest wins.  Repetition is
    only ever applied to a single character class in the source patterns. *)

Inductive regex :=
| Eps
| Chr (p : char -> bool)     (* one character of a class *)
| Seq (r1 r2 : regex)
| Alt (r1 r2 : regex)        (* r1|r2 *)
| Opt (r : regex)            (* r? *)
| Star (p : char -> bool)    (* c*  : greedy *)
| LazyStar (p : char -> bool)(* c*? : lazy *)
| Bol                        (* ^ under re.MULTILINE *)
| Eol                        (* $ under re.MULTILINE *)
| Grp (r : regex).           (* the capturing group that the caller reads *)

Definition LF : char := 10%N.
Definition CR : char := 13%N.
Definition TAB : char := 9%N.

Definition any_char (_ : char) : bool := true.
Definition not_newline (c : char) : bool := negb (char_eqb c LF).

(** A literal string. *)
Fixpoint Str (s : str) : regex :=
  match s with
  | [] => Eps
  | c :: s' => Seq (Chr (char_eqb c)) (Str s')
  end.

(** ASCII lower-casing of one code point. *)
Definition ascii_lower (c : char) : char :=
  if ((65 <=? c) && (c <=? 90))%N then (c + 32)%N else c.

(** A lower-case ASCII letter of a pattern compiled with [re.IGNORECASE]:
    it matches both cases of the letter and the few non-ASCII characters that
    [re] folds onto it (dotted and dotless i, long s, the Kelvin sign). *)
Definition ci (p : char) (c : char) : bool :=
  char_eqb (ascii_lower c) p ||
  (char_eqb p 105 && (char_eqb c 304 || char_eqb c 305))%N ||
  (char_eqb p 115 && char_eqb c 383)%N ||
  (char_eqb p 107 && char_eqb c 8490)%N.

Fixpoint StrI (s : str) : regex :=
  match s with
  | [] => Eps
  | c :: s' => Seq (Chr (ci c)) (StrI s')
  end.

Definition at_bol (prev : option char) : bool :=
  match prev with
  | None => true
  | Some c => char_eqb c LF
  end.

Definition at_eol (s : str) : bool :=
  match s with
  | [] => true
  | c :: _ => char_eqb c LF
  end.

Section Matcher.
Context {A : Type}.

(** A continuation receives the captured group, the character before the
    current position and the rest of the text. *)
Definition cont := option str -> option char -> str -> option A.

Fixpoint star_greedy (p : char -> bool) (k : cont)
    (cap : option str) (prev : option char) (s : str) : option A :=
  match s with
  | c :: s' =>
      if p c then
        match star_greedy p k cap (Some c) s' with
        | Some r => Some r
        | None => k cap prev s
        end
      else k cap prev s
  | [] => k cap prev s
  end.

Fixpoint star_lazy (p : char -> bool) (k : cont)
    (cap : option str) (prev : option char) (s : str) : option A :=
  match k cap prev s with
  | Some r => Some r
  | None =>
      match s with
      | c :: s' => if p c then star_lazy p k cap (Some c) s' else None
      | [] => None
      end
  end.

Fixpoint rmatch (r : regex) (k : cont)
    (cap : option str) (prev : option char) (s : str) : option A :=
  match r with
  | Eps => k cap prev s
  | Chr p =>
      match s with
      | c :: s' => if p c then k cap (Some c) s' else None
      | [] => None
      end
  | Seq r1 r2 => rmatch r1 (rmatch r2 k) cap prev s
  | Alt r1 r2 =>
      match rmatch r1 k cap prev s with
      | Some x => Some x
      | None => rmatch r2 k cap prev s
      end
  | Opt r1 =>
      match rmatch r1 k cap prev s with
      | Some x => Some x
      | None => k cap prev s
      end
  | Star p => star_greedy p k cap prev s
  | LazyStar p => star_lazy p k cap prev s
  | Bol => if at_bol prev then k cap prev s else None
  | Eol => if at_eol s then k cap prev s else None
  | Grp r1 =>
      rmatch r1
        (fun _ prev' s' => k (Some (firstn (length s - length s') s)) prev' s')
        cap prev s
  end.
End Matcher.

(** A match at the current position: the captured group and the text after
    the match. *)
Definition match_here (r : regex) (prev : option char) (s : str)
  : option (option str * str) :=
  rmatch r (fun cap _ rest => Some (cap, rest)) None prev s.

(** [re.search(r, s)]: the leftmost match. *)
Fixpoint re_search_from (r : regex) (prev : option char) (s : str)
  : option (option str * str) :=
  match match_here r prev s with
  | Some m => Some m
  | None =>
      match s with
      | c :: s' => re_search_from r (Some c) s'
      | [] => None
      end
  end.

Definition re_search (r : regex) (s : str) : option (option str * str) :=
  re_search_from r None s.

(** [re.sub(r, repl, s)] for a replacement without group references:
    non-overlapping matches, left to right; [skip] counts the characters of
    the current match still to be dropped. *)
Fixpoint re_sub_from (r : regex) (repl : str) (skip : nat)
    (prev : option char) (s : str) : str :=
  match s with
  | [] =>
      match skip, match_here r prev [] with
      | O, Some _ => repl
      | _, _ => []
      end
  | c :: s' =>
      match skip with
      | S k => re_sub_from r repl k (Some c) s'
      | O =>
          match match_here r prev s with
          | Some (_, rest) =>
              match (length s - length rest)%nat with
              | O => repl ++ c :: re_sub_from r repl O (Some c) s'
              | S n => repl ++ re_sub_from r repl n (Some c) s'
              end
          | None => c :: re_sub_from r repl O (Some c) s'
          end
      end
  end.

Definition re_sub (r : regex) (repl s : str) : str := re_sub_from r repl O None s.

(** ** ICS helpers *)

(** In the literals below a backslash stands for itself: the two characters
    backslash and n are what the Python source writes with a doubled
    backslash. *)
Definition BACKSLASH : str := lit "\".

Definition ics_escape (text : str) : str :=
  replace (lit ";") (lit "\;")
    (replace (lit ",") (lit "\,")
      (replace [LF] (lit "\n")
        (replace BACKSLASH (lit "\\") text))).

(** The pattern of [unfold_ics]: an optional CR, then LF, then a space or a
    tab; [re.sub] replaces every match by the empty string. *)
Definition unfold_ics_re : regex :=
  Seq (Opt (Chr (char_eqb CR)))
    (Seq (Chr (char_eqb LF)) (Chr (fun c => char_eqb c 32%N || char_eqb c TAB))).

Definition unfold_ics (ics_text : str) : str := re_sub unfold_ics_re [] ics_text.

(** The pattern of [extract_ics_field], compiled with [re.MULTILINE]: [^],
    the field name, optionally a semicolon followed by a greedy run of
    non-colon characters (group 1, which may span lines), a colon, then group 2:
    a greedy run of non-newline characters, and [$].  The field names passed
    by the program consist of letters, so the interpolated name is a literal.
    [Grp] marks group 2, the one the caller reads. *)
Definition field_tail_re : regex :=
  Seq (Opt (Seq (Chr (char_eqb 59%N)) (Star (fun c => negb (char_eqb c 58%N)))))
    (Seq (Chr (char_eqb 58%N))
      (Seq (Grp (Star not_newline)) Eol)).

Definition field_re (field_name : str) : regex :=
  Seq Bol (Seq (Str field_name) field_tail_re).

Definition extract_ics_field (vevent field_name : str) : option str :=
  let vevent_u := unfold_ics vevent in
  match re_search (field_re field_name) vevent_u with
  | None => None
  | Some (cap, _) => Some (strip (match cap with Some g => g | None => [] end))
  end.

(** [unfold_ics_text] on a string; the program never passes [None]. *)
Definition unfold_ics_text (value : str) : str :=
  let v :=
    replace (lit "\\") BACKSLASH
      (replace (lit "\;") (lit ";")
        (replace (lit "\,") (lit ",")
          (replace (lit "\n") [LF] value))) in
  strip v.

(** [s.split(sep)] for a non-empty separator; [acc] holds the current piece,
    reversed. *)
Fixpoint split_from (sep : str) (skip : nat) (acc : str) (s : str) : list str :=
  match s with
  | [] => [rev acc]
  | c :: s' =>
      match skip with
      | S k => split_from sep k acc s'
      | O =>
          if startswith sep s
          then rev acc :: split_from sep (Nat.pred (length sep)) [] s'
          else split_from sep O (c :: acc) s'
      end
  end.

Definition split (sep s : str) : list str := split_from sep O [] s.

(** ** The program *)

Section HamCal.

Set Default Proof Using "Type".

(** The clock snapshot taken when the module is loaded. *)
Variable NOW_UTC : datetime.

(** The horizon, computed from the snapshot on the next line of the module:
    [NOW_UTC + timedelta(days=62)].  The addition raises [OverflowError]
    when the sum lies past the year 9999; the module then fails to load and
    none of its functions can be called.  Whenever a function below runs, the
    horizon is therefore the sum itself. *)
Definition HORIZON_END_UTC : datetime := NOW_UTC + timedelta_days 62.

(** Library functions the program calls and whose tables are not part of it:
    [hashlib.sha256(...).hexdigest()] of the UTF-8 encoding of a string, the
    full upper-case mapping of a non-ASCII code point ([str.upper]),
    [html.unescape], the character class [\d], [datetime.strptime] with the
    format [%Y%m%d] followed by [.date()], and [dateutil.parser.parse]
    followed by the normalisation to UTC that [parse_google_ics_datetime]
    applies.  [None] stands for a raised exception. *)
Variable sha256_hexdigest : str -> str.
Variable unicode_upper : char -> str.
Variable html_unescape : str -> str.
Variable is_decimal : char -> bool.
Variable strptime_Ymd : str -> option date.
Variable dtparser_parse_utc : str -> option datetime.

Definition DIGITAL_KEYWORDS : list str :=
  map lit ["RTTY"; "FT8"; "FT4"; "PSK"; "DIGI"; "DIGITAL"; "SSTV"; "JS8"; "MFSK"]%string.
Definition PHONE_KEYWORDS : list str := map lit ["SSB"; "PHONE"; "AM"; "FM"]%string.
Definition CW_KEYWORDS : list str := map lit ["CW"]%string.
Definition FIELD_DAY_KEYWORDS : list str := map lit ["FIELD DAY"]%string.

Definition or_empty (o : option str) : str :=
  match o with
  | Some s => s
  | None => []
  end.

(** [Event.uid] *)
Definition uid (e : Event) : str :=
  firstn 32
    (sha256_hexdigest
       (source e ++ lit "|" ++ title e ++ lit "|" ++ isoformat (start e) ++ lit "|" ++
        or_empty (url e)))
  ++ lit "@hamcal".

(** [Event.is_in_window] *)
Definition is_in_window (e : Event) : bool :=
  (NOW_UTC <? end_ e) && (start e <? HORIZON_END_UTC).

(** [sorted(events, key=lambda e: e.start)]: the stable sort by start. *)
Fixpoint insert_by_start (e : Event) (l : list Event) : list Event :=
  match l with
  | [] => [e]
  | x :: l' => if start x <? start e then x :: insert_by_start e l' else e :: l
  end.

Definition sorted_by_start (events : list Event) : list Event :=
  fold_right insert_by_start [] events.

Definition CRLF : str := [CR; LF].

(** The description line of [build_ics]: the stripped description with the
    link appended when it is not already part of it. *)
Definition desc_out (e : Event) : str :=
  let d := strip (or_empty (description e)) in
  if truthy (url e) && negb (contains (or_empty (url e)) d)
  then (match d with [] => d | _ :: _ => d ++ [LF; LF] end)
       ++ lit "Rules & details:" ++ [LF] ++ or_empty (url e)
  else d.

(** The lines that one iteration of the loop of [build_ics] appends. *)
Definition vevent_lines (e : Event) : list str :=
  [ lit "BEGIN:VEVENT";
    lit "UID:" ++ uid e;
    lit "DTSTAMP:" ++ dt_to_ics NOW_UTC;
    lit "DTSTART:" ++ dt_to_ics (start e);
    lit "DTEND:" ++ dt_to_ics (end_ e);
    lit "SUMMARY:" ++ ics_escape (title e) ]
  ++ (if truthy (url e) then [lit "URL:" ++ ics_escape (or_empty (url e))] else [])
  ++ (match desc_out e with
      | [] => []
      | _ :: _ => [lit "DESCRIPTION:" ++ ics_escape (desc_out e)]
      end)
  ++ (match categories e with
      | [] => []
      | _ :: _ => [lit "CATEGORIES:" ++ ics_escape (join (lit ",") (categories e))]
      end)
  ++ [lit "END:VEVENT"].

Definition header_lines (calendar_name : str) : list str :=
  [ lit "BEGIN:VCALENDAR";
    lit "VERSION:2.0";
    lit "PRODID:-//HAMCAL//hamcal//EN";
    lit "CALSCALE:GREGORIAN";
    lit "X-WR-CALNAME:" ++ ics_escape calendar_name;
    lit "X-WR-TIMEZONE:UTC" ].

Definition build_ics (calendar_name : str) (events : list Event) : str :=
  let lines := header_lines calendar_name ++ flat_map vevent_lines (sorted_by_start events) in
  join CRLF lines ++ CRLF.

(** *** Tagging *)

Definition upper_char (c : char) : str :=
  if ((97 <=? c) && (c <=? 122))%N then [(c - 32)%N]
  else if (c <? 128)%N then [c]
  else unicode_upper c.

(** [s.upper()]: the upper-case mapping is applied character by character. *)
Definition upper (s : str) : str := flat_map upper_char s.

Definition blob (e : Event) : str :=
  upper (title e ++ lit " " ++ or_empty (description e)).

(** [any(k in blob for k in keywords)] *)
Definition any_in (keywords : list str) (b : str) : bool :=
  existsb (fun k => contains k b) keywords.

Definition tag_modes (e : Event) : Event :=
  let b := blob e in
  let e := if any_in CW_KEYWORDS b then add_category e (lit "cw") else e in
  let e := if any_in PHONE_KEYWORDS b then add_category e (lit "phone") else e in
  let e := if any_in DIGITAL_KEYWORDS b then add_category e (lit "digital") else e in
  e.

Definition tag_field_day (e : Event) : Event :=
  let b := blob e in
  if any_in FIELD_DAY_KEYWORDS b then add_category e (lit "field-day") else e.

(** *** The WA7BNM feed *)

(** [re.fullmatch] of eight [\d]. *)
Definition eight_digits (value : str) : bool :=
  (length value =? 8)%nat && forallb is_decimal value.

Definition parse_google_ics_datetime (value : str) : option datetime :=
  let value := strip value in
  if eight_digits value then
    match strptime_Ymd value with
    | Some d => Some (datetime_midnight d)
    | None => None
    end
  else dtparser_parse_utc value.

(** What one iteration of the loop of [ingest_wa7bnm_gcal] does with a block:
    [continue] without an event, build an event, or raise. *)
Inductive block_result :=
| Skipped
| Built (e : Event)
| Raised.

Definition ingest_block (b : str) : block_result :=
  let vevent := lit "BEGIN:VEVENT" ++ b in
  let dtstart := extract_ics_field vevent (lit "DTSTART") in
  let dtend := extract_ics_field vevent (lit "DTEND") in
  let summary :=
    if truthy (extract_ics_field vevent (lit "SUMMARY"))
    then or_empty (extract_ics_field vevent (lit "SUMMARY")) else lit "Contest" in
  let url := extract_ics_field vevent (lit "URL") in
  let desc := extract_ics_field vevent (lit "DESCRIPTION") in
  if negb (truthy dtstart) then Skipped
  else
    match parse_google_ics_datetime (or_empty dtstart) with
    | None => Raised
    | Some start =>
        let end_o :=
          if truthy dtend then parse_google_ics_datetime (or_empty dtend)
          else datetime_add start (timedelta_hours 1) in
        match end_o with
        | None => Raised
        | Some end_ =>
            let e :=
              mkEvent (unfold_ics_text summary) start end_
                (if truthy url then Some (unfold_ics_text (or_empty url)) else None)
                (if truthy desc then Some (unfold_ics_text (or_empty desc)) else None)
                [] (lit "wa7bnm-gcal") in
            let e := add_category e (lit "contest") in
            let e := tag_modes e in
            let e := tag_field_day e in
            Built e
        end
    end.

(** The loop over the blocks: events in the window are appended; an
    exception leaves the function. *)
Fixpoint ingest_blocks (blocks : list str) (events : list Event) : option (list Event) :=
  match blocks with
  | [] => Some events
  | b :: rest =>
      match ingest_block b with
      | Skipped => ingest_blocks rest events
      | Raised => None
      | Built e =>
          ingest_blocks rest (if is_in_window e then events ++ [e] else events)
      end
  end.

(** [ingest_wa7bnm_gcal], from the text of the response. *)
Definition ingest_wa7bnm_gcal (text : str) : option (list Event) :=
  ingest_blocks (tl (split (lit "BEGIN:VEVENT") text)) [].

(** *** Field Day *)

(** The [while] loop of [fourth_full_weekend_saturday_of_june].  Each turn
    raises the day by one and [replace] raises [ValueError] past the end of
    the month, so the loop takes fewer turns than [fuel]. *)
Fixpoint saturday_loop (fuel : nat) (d : date) : option date :=
  match fuel with
  | O => None
  | S f =>
      if negb (weekday d =? 5) then
        match replace_day d (day d + 1) with
        | Some d' => saturday_loop f d'
        | None => None
        end
      else Some d
  end.

Definition fourth_full_weekend_saturday_of_june (y : Z) : option date :=
  match date_of y 6 1 with
  | None => None
  | Some d =>
      match saturday_loop 32 d with
      | None => None
      | Some d => date_add d (timedelta_weeks 3)
      end
  end.

(** The event that one iteration of the loop of [add_field_day_fixed] builds. *)
Definition field_day_event (yr : Z) : option Event :=
  match fourth_full_weekend_saturday_of_june yr with
  | None => None
  | Some fd_start_date =>
      let start := datetime_midnight fd_start_date in
      match datetime_add start (timedelta_days 2) with
      | None => None
      | Some end_ =>
          let e :=
            mkEvent (lit "ARRL Field Day") start end_
              (Some (lit "https://www.arrl.org/field-day"))
              (Some (lit "Computed as the 4th full weekend of June (Sat-Sun)."))
              [] (lit "arrl-field-day") in
          let e := add_category e (lit "field-day") in
          Some (tag_field_day e)
      end
  end.

Fixpoint field_day_loop (years : list Z) (out : list Event) : option (list Event) :=
  match years with
  | [] => Some out
  | yr :: rest =>
      match field_day_event yr with
      | None => None
      | Some e => field_day_loop rest (if is_in_window e then out ++ [e] else out)
      end
  end.

Definition add_field_day_fixed : option (list Event) :=
  let y := year (datetime_date NOW_UTC) in
  field_day_loop [y; y + 1] [].

(** *** Markup stripping *)

(** The first pattern of [strip_html], compiled with [(?is)]: [<], [script]
    or [style], a lazy run of any characters, [>], a lazy run of any
    characters, and then the five characters [<], [/], backslash, [1], [>]:
    in the raw string the backslash is doubled, so the pattern has an escaped
    backslash followed by the digit 1. *)
Definition script_style_re : regex :=
  Seq (Chr (char_eqb 60%N))
   (Seq (Alt (StrI (lit "script")) (StrI (lit "style")))
     (Seq (LazyStar any_char)
       (Seq (Chr (char_eqb 62%N))
         (Seq (LazyStar any_char) (Str (lit "</\1>")))))).

(** The second pattern: [<br], a backslash (doubled in the raw string, hence
    escaped), a greedy run of the letter [s], an optional [/], and [>]. *)
Definition br_re : regex :=
  Seq (Str (lit "<br\"))
   (Seq (Star (char_eqb 115%N)) (Seq (Opt (Chr (char_eqb 47%N))) (Chr (char_eqb 62%N)))).

Definition p_close_re : regex := Str (lit "</p>").

(** The fourth pattern: [<], a lazy run of any characters, [>]. *)
Definition tag_re : regex :=
  Seq (Chr (char_eqb 60%N)) (Seq (LazyStar any_char) (Chr (char_eqb 62%N))).

(** The replacement of the second and third substitution is a backslash
    followed by [n], which [re.sub] expands to a newline. *)
Definition strip_html (h : str) : str :=
  let h := re_sub script_style_re [] h in
  let h := re_sub br_re [LF] h in
  let h := re_sub p_close_re [LF] h in
  let h := re_sub tag_re [] h in
  html_unescape h.

(** *** De-duplication in [main] *)

Definition key := (str * str * str)%type.

Definition key_eqb (a b : key) : bool :=
  let '(a1, a2, a3) := a in
  let '(b1, b2, b3) := b in
  str_eqb a1 b1 && str_eqb a2 b2 && str_eqb a3 b3.

Definition dedup_key (e : Event) : key := (title e, isoformat (start e), source e).

(** [d[k] = v] on a dict, which keeps insertion order: an existing key keeps
    its place and takes the new value, a new key goes last. *)
Fixpoint dict_set (d : list (key * Event)) (k : key) (v : Event) : list (key * Event) :=
  match d with
  | [] => [(k, v)]
  | (k', v') :: d' =>
      if key_eqb k k' then (k', v) :: d' else (k', v') :: dict_set d' k v
  end.

(** The de-duplication loop and [list(dedup.values())]. *)
Definition dedup_dict (all_events : list Event) : list (key * Event) :=
  fold_left (fun d e => dict_set d (dedup_key e) e) all_events [].

Definition dedup (all_events : list Event) : list Event :=
  map snd (dedup_dict all_events).

(** ** Vocabulary of the statements *)

(** [e] is the last event of [es] that has its key. *)
Definition last_with_key (e : Event) (es : list Event) : Prop :=
  exists l1 l2, es = l1 ++ e :: l2 /\ ~ In (dedup_key e) (map dedup_key l2).

(** What the de-duplication loop maintains. *)
Record dedup_inv (d : list (key * Event)) (es : list Event) : Prop := {
  inv_key : forall k v, In (k, v) d -> k = dedup_key v;
  inv_nodup : NoDup (map fst d);
  inv_keys : forall k, In k (map fst d) <-> In k (map dedup_key es);
  inv_last : forall v, In v (map snd d) <-> last_with_key v es
}.

(** [s.endswith(suffix)] *)
Definition endswith (suffix s : str) : bool := startswith (rev suffix) (rev s).

(** The labels that the classifier ([tag_modes] followed by [tag_field_day])
    gives to an event with this title and description and no label yet. *)
Definition classify (t : str) (d : option str) : list str :=
  categories (tag_field_day (tag_modes (mkEvent t 0 0 None d [] []))).

(** The keyword sets with the label each one stands for. *)
Definition keyword_table : list (list str * str) :=
  [ (CW_KEYWORDS, lit "cw"); (PHONE_KEYWORDS, lit "phone");
    (DIGITAL_KEYWORDS, lit "digital"); (FIELD_DAY_KEYWORDS, lit "field-day") ].

Definition mode_labels : list str := [lit "cw"; lit "phone"; lit "digital"].

(** The years [date] accepts. *)
Definition years : list Z := map Z.of_nat (seq 1 (Z.to_nat MAXYEAR)).

(** What the Field Day rule is checked against for one year: the function
    returns a date [sat] of June of that year such that, [f] being the day
    three weeks earlier, [f] is among the first seven days, is a Saturday and
    no earlier day of June is one; [sat] is a Saturday whose ordinal is that
    of [f] plus 21; the next two days are a Sunday and a Monday; and two days
    can be added to its midnight. *)
Definition field_day_check (y : Z) : bool :=
  match fourth_full_weekend_saturday_of_june y with
  | None => false
  | Some sat =>
      let f := day sat - 21 in
      (year sat =? y) && (month sat =? 6) && (1 <=? f) && (f <=? 7) &&
      (weekday (mkdate y 6 f) =? 5) &&
      forallb (fun d => negb ((d <? f) && (weekday (mkdate y 6 d) =? 5))) [1; 2; 3; 4; 5; 6] &&
      (weekday sat =? 5) &&
      (toordinal sat =? toordinal (mkdate y 6 f) + 21) &&
      match datetime_add (datetime_midnight sat) (timedelta_days 2) with
      | None => false
      | Some end_ =>
          (end_ =? datetime_midnight sat + timedelta_days 2) &&
          match date_of y 6 (day sat + 1), date_of y 6 (day sat + 2) with
          | Some sun, Some mon =>
              (weekday sun =? 6) && (weekday mon =? 0) &&
              (datetime_midnight sun =? datetime_midnight sat + timedelta_days 1) &&
              (datetime_midnight mon =? end_)
          | _, _ => false
          end
      end
  end.

(** What [ics_escape] does to one character. *)
Definition esc_char (c : char) : str :=
  if char_eqb 92%N c then [92; 92]%N
  else if char_eqb 10%N c then [92; 110]%N
  else if char_eqb 44%N c then [92; 44]%N
  else if char_eqb 59%N c then [92; 59]%N
  else [c].







(** The first character of [s] is whitespace. *)
Definition head_space (s : str) : bool :=
  match s with
  | c :: _ => is_space c
  | [] => false
  end.

(** [s] has no line feed. *)
Definition nolf (s : str) : bool := forallb not_newline s.

(** A space or a tab, the characters that continue a folded line. *)
Definition space_or_tab (c : char) : bool := char_eqb c 32%N || char_eqb c TAB.

Definition head_space_or_tab (s : str) : bool :=
  match s with
  | c :: _ => space_or_tab c
  | [] => false
  end.

(** No line feed of [s] is followed by a space or a tab: nothing to unfold. *)
Fixpoint no_fold (s : str) : bool :=
  match s with
  | [] => true
  | c :: s' => negb (char_eqb c LF && head_space_or_tab s') && no_fold s'
  end.

(** The text made of the given lines, each followed by CRLF. *)
Definition lines_text (ls : list str) : str := flat_map (fun l => l ++ CRLF) ls.

(** A line of the calendar: no line feed inside, no space or tab in front. *)
Definition line_ok (l : str) : bool := nolf l && negb (head_space_or_tab l).

(** A line that the search for the field [name] passes over. *)
Definition skipped (name l : str) : Prop :=
  nolf l = true /\ forall t, startswith name (l ++ t) = false.

(** [name] and [p] differ at a position that both have. *)
Fixpoint mismatch (name p : str) : bool :=
  match name, p with
  | x :: name', y :: p' => if char_eqb x y then mismatch name' p' else true
  | _, _ => false
  end.

(** ** A sample run

    Concrete values on which the statements are instantiated: a clock
    reading, two announcements of one contest, stand-ins for the library
    functions, and a feed block without summary and end. *)

Definition now_2024 : datetime := datetime_midnight (mkdate 2024 6 1).
Definition horizon_2024 : datetime := datetime_midnight (mkdate 2024 8 2).

Definition sprint : Event :=
  mkEvent (lit "ABC SSB Sprint")
    (now_2024 + timedelta_days 10)
    (now_2024 + timedelta_days 10 + timedelta_hours 4)
    None None [lit "contest"; lit "phone"] (lit "wa7bnm-gcal").

(** The same contest announced again with another end and a link. *)
Definition sprint_again : Event :=
  mkEvent (lit "ABC SSB Sprint")
    (now_2024 + timedelta_days 10)
    (now_2024 + timedelta_days 10 + timedelta_hours 6)
    (Some (lit "https://example.org/sprint")) None
    [lit "contest"; lit "phone"] (lit "wa7bnm-gcal").

(** Another contest with the same title and source, starting a microsecond
    later. *)
Definition sprint_later : Event :=
  mkEvent (lit "ABC SSB Sprint")
    (now_2024 + timedelta_days 10 + 1)
    (now_2024 + timedelta_days 10 + timedelta_hours 4)
    None None [lit "contest"; lit "phone"] (lit "wa7bnm-gcal").

(** A table for [str.upper] that leaves every non-ASCII code point alone; the
    texts below are ASCII, for which the table is not consulted. *)
Definition ascii_table (c : char) : str := [c].

(** ASCII decimal digits, and [strptime] with [%Y%m%d] on eight of them. *)
Definition ascii_digit (c : char) : bool := ((48 <=? c) && (c <=? 57))%N.

Definition number (s : str) : Z :=
  fold_left (fun n c => 10 * n + (Z.of_N c - 48)) s 0.

Definition strptime_ascii (s : str) : option date :=
  date_of (number (firstn 4 s)) (number (firstn 2 (skipn 4 s))) (number (skipn 6 s)).

Definition no_parser (_ : str) : option datetime := None.

(** [dateutil] on the basic form of an instant in UTC: eight digits, the
    letter T, six digits and the letter Z. *)
Definition parse_basic_utc (s : str) : option datetime :=
  match date_of (number (firstn 4 s)) (number (firstn 2 (skipn 4 s)))
                (number (firstn 2 (skipn 6 s))) with
  | Some d =>
      Some (datetime_midnight d
            + timedelta_hours (number (firstn 2 (skipn 9 s)))
            + number (firstn 2 (skipn 11 s)) * 60 * US_PER_SECOND
            + number (firstn 2 (skipn 13 s)) * US_PER_SECOND)
  | None => None
  end.

(** A block with a date-only start and neither summary nor end. *)
Definition bare_block : str :=
  CRLF ++ lit "DTSTART;VALUE=DATE:20240622" ++ CRLF ++ lit "END:VEVENT" ++ CRLF.

(** A block that starts half an hour before the end of the year 9999 and has
    no end, and a feed with that block. *)
Definition late_block : str :=
  CRLF ++ lit "DTSTART:99991231T233000Z" ++ CRLF ++ lit "SUMMARY:Last contest" ++ CRLF ++
  lit "END:VEVENT" ++ CRLF.

Definition feed_late : str :=
  lit "BEGIN:VCALENDAR" ++ CRLF ++ lit "BEGIN:VEVENT" ++ late_block.

(** A digest for every text: sixty-four hexadecimal digits. *)
Definition zero_digest (_ : str) : str := repeat 48%N 64.

(** [t] is what is left of [s] after some of its first characters. *)
Definition suffix_of (t s : str) : Prop := exists a, s = a ++ t.

(** [s] has no backslash. *)
Definition no_backslash (s : str) : bool := forallb (fun c => negb (char_eqb 92%N c)) s.

(** ** The program, continued: the other sources, the partition and [main] *)

(** Further library functions: the character class [\w] of [re] (used by
    [\b]), and [datetime.strptime(...).date()] with the formats [%Y-%m-%d]
    and [%m/%d/%Y]; [None] stands for [ValueError]. *)
Variable is_word : char -> bool.
Variable strptime_Y_m_d : str -> option date.
Variable strptime_mdY : str -> option date.

(** [s.splitlines()]: the line boundaries are LF, CR, CR LF, VT, FF, FS, GS,
    RS, NEL, LS and PS; a boundary at the very end opens no further line.
    [after_cr] tells that the previous character was a CR, whose LF is part of
    the same boundary; [acc] is the current line, reversed. *)
Definition is_linebreak (c : char) : bool :=
  ((10 <=? c) && (c <=? 13) || (28 <=? c) && (c <=? 30) ||
   (c =? 133) || (c =? 8232) || (c =? 8233))%N.

Fixpoint splitlines_from (after_cr : bool) (acc : str) (s : str) : list str :=
  match s with
  | [] => match acc with [] => [] | _ :: _ => [rev acc] end
  | c :: s' =>
      if after_cr && char_eqb c LF then splitlines_from false acc s'
      else if is_linebreak c then rev acc :: splitlines_from (char_eqb c CR) [] s'
      else splitlines_from false (c :: acc) s'
  end.

Definition splitlines (s : str) : list str := splitlines_from false [] s.

(** *** The contest page *)

Definition ARRL_CONTEST_CAL_URL : str := lit "https://www.arrl.org/contest-calendar".

(** [\b]: exactly one of the two neighbours is a word character; the edge of
    the text counts as a non-word character. *)
Definition word_boundary (prev next : option char) : bool :=
  xorb (match prev with Some c => is_word c | None => false end)
       (match next with Some c => is_word c | None => false end).

(** The pattern of [ingest_arrl_contests] at one position: a word boundary,
    four digits, a hyphen, two digits, a hyphen, two digits, a word boundary.
    It has no repetition and no alternative, so it matches in one way only;
    the result is group 1. *)
Definition iso_date_here (prev : option char) (s : str) : option str :=
  match s with
  | y1 :: y2 :: y3 :: y4 :: h1 :: m1 :: m2 :: h2 :: d1 :: d2 :: rest =>
      if word_boundary prev (Some y1) &&
         is_decimal y1 && is_decimal y2 && is_decimal y3 && is_decimal y4 &&
         char_eqb h1 45%N && is_decimal m1 && is_decimal m2 &&
         char_eqb h2 45%N && is_decimal d1 && is_decimal d2 &&
         word_boundary (Some d2) (hd_error rest)
      then Some [y1; y2; y3; y4; h1; m1; m2; h2; d1; d2]
      else None
  | _ => None
  end.

(** [re.search] with that pattern: the leftmost match. *)
Fixpoint iso_date_search (prev : option char) (s : str) : option str :=
  match iso_date_here prev s with
  | Some t => Some t
  | None =>
      match s with
      | c :: s' => iso_date_search (Some c) s'
      | [] => None
      end
  end.

(** One line of the contest page: nothing, an event, or an exception. *)
Definition contest_line (line : str) : block_result :=
  let line := strip line in
  match line with
  | [] => Skipped
  | _ :: _ =>
      match iso_date_search None line with
      | None => Skipped
      | Some token =>
          match strptime_Y_m_d token with
          | None => Raised
          | Some d =>
              let start := datetime_midnight d in
              match datetime_add start (timedelta_days 1) with
              | None => Raised
              | Some end_ =>
                  let e :=
                    mkEvent (lit "ARRL: " ++ line) start end_
                      (Some ARRL_CONTEST_CAL_URL) None [] (lit "arrl-contest") in
                  let e := add_category e (lit "contest") in
                  let e := tag_modes e in
                  let e := tag_field_day e in
                  Built e
              end
          end
      end
  end.

Fixpoint contest_lines (lines : list str) (events : list Event) : option (list Event) :=
  match lines with
  | [] => Some events
  | line :: rest =>
      match contest_line line with
      | Skipped => contest_lines rest events
      | Raised => None
      | Built e => contest_lines rest (if is_in_window e then events ++ [e] else events)
      end
  end.

(** [ingest_arrl_contests], from the text of the response. *)
Definition ingest_arrl_contests (html_text : str) : option (list Event) :=
  match contest_lines (splitlines (strip_html html_text)) [] with
  | None => None
  | Some events =>
      match add_field_day_fixed with
      | None => None
      | Some fd => Some (events ++ fd)
      end
  end.

(** *** The hamfest pages *)

(** [HAMFEST_ROW_RE]: two digits, a slash, two digits, a slash, four digits
    (group 1), a greedy run of whitespace, a hyphen, a greedy run of
    whitespace, and group 2: at least one character other than a newline,
    as many as there are. *)
Definition mdY_re : regex :=
  Seq (Chr is_decimal) (Seq (Chr is_decimal) (Seq (Chr (char_eqb 47%N))
   (Seq (Chr is_decimal) (Seq (Chr is_decimal) (Seq (Chr (char_eqb 47%N))
     (Seq (Chr is_decimal) (Seq (Chr is_decimal)
       (Seq (Chr is_decimal) (Chr is_decimal))))))))).

Definition HAMFEST_ROW_RE : regex :=
  Seq mdY_re
   (Seq (Star is_space) (Seq (Chr (char_eqb 45%N)) (Seq (Star is_space)
     (Grp (Seq (Chr not_newline) (Star not_newline)))))).

(** [re.search] that also tells where the match begins: the text from the
    start of the match, the captured group, the text after the match. *)
Fixpoint re_find_from (r : regex) (prev : option char) (s : str)
  : option (str * option str * str) :=
  match match_here r prev s with
  | Some (cap, rest) => Some (s, cap, rest)
  | None =>
      match s with
      | c :: s' => re_find_from r (Some c) s'
      | [] => None
      end
  end.

(** Tuple comparison of dates, [d1 > d2]. *)
Definition date_gtb (d1 d2 : date) : bool :=
  (year d2 <? year d1) ||
  (year d2 =? year d1) &&
    ((month d2 <? month d1) || (month d2 =? month d1) && (day d2 <? day d1)).

(** [any_event_date_in_text_after]: the date tokens are taken from left to
    right without overlap; the first one later than the cutoff ends the scan
    with [True], and a token that is no date raises.  [skip] counts the
    characters of the current token still to be passed. *)
Fixpoint any_date_after_from (cutoff : date) (skip : nat) (s : str) : option bool :=
  match s with
  | [] => Some false
  | c :: s' =>
      match skip with
      | S k => any_date_after_from cutoff k s'
      | O =>
          match match_here mdY_re None s with
          | Some _ =>
              match strptime_mdY (firstn 10 s) with
              | None => None
              | Some d =>
                  if date_gtb d cutoff then Some true
                  else any_date_after_from cutoff 9 s'
              end
          | None => any_date_after_from cutoff O s'
          end
      end
  end.

Definition any_event_date_in_text_after (text : str) (cutoff : date) : option bool :=
  any_date_after_from cutoff O text.

(** One line of a hamfest page: no row, a row with its event, or an
    exception. *)
Definition hamfest_line (line : str) : block_result :=
  let line := strip line in
  match re_find_from HAMFEST_ROW_RE None line with
  | None => Skipped
  | Some (at_match, cap, _) =>
      match strptime_mdY (firstn 10 at_match) with
      | None => Raised
      | Some d =>
          let title := strip (or_empty cap) in
          let start := datetime_midnight d in
          match datetime_add start (timedelta_days 1) with
          | None => Raised
          | Some end_ =>
              let e :=
                mkEvent (lit "Hamfest: " ++ title) start end_
                  (Some (lit "https://www.arrl.org/hamfests/search")) None []
                  (lit "arrl-hamfest") in
              Built (add_category e (lit "hamfest"))
          end
      end
  end.

(** The loop over the lines of one page: the events so far and the number of
    rows of the page. *)
Fixpoint hamfest_lines (lines : list str) (events : list Event) (page_events : nat)
  : option (list Event * nat) :=
  match lines with
  | [] => Some (events, page_events)
  | line :: rest =>
      match hamfest_line line with
      | Skipped => hamfest_lines rest events page_events
      | Raised => None
      | Built e =>
          hamfest_lines rest (if is_in_window e then events ++ [e] else events)
            (S page_events)
      end
  end.

(** What [requests.get] gives for a page: an exception, or a response with
    its status code and text. *)
Inductive response :=
| Failed
| Response (status_code : Z) (text : str).

(** [r.raise_for_status()] raises on the codes 400 to 599. *)
Definition is_error_status (code : Z) : bool := (400 <=? code) && (code <? 600).

(** The [while] loop of [ingest_arrl_hamfests].  [page] goes up by one each
    turn and the loop ends when it exceeds [max_pages], so the turns left are
    counted by [left]; [fetched] lists the pages requested so far. *)
Fixpoint hamfest_pages (get : Z -> response) (left : nat) (page : Z)
    (events : list Event) (fetched : list Z) : option (list Event * list Z) :=
  match left with
  | O => Some (events, fetched)
  | S left' =>
      let fetched := fetched ++ [page] in
      match get page with
      | Failed => None
      | Response code body =>
          if code =? 404 then Some (events, fetched)
          else if is_error_status code then None
          else
            let text := strip_html body in
            match hamfest_lines (splitlines text) events O with
            | None => None
            | Some (events, page_events) =>
                match page_events with
                | O => Some (events, fetched)
                | S _ =>
                    if 2 <=? page then
                      match any_event_date_in_text_after text (datetime_date HORIZON_END_UTC) with
                      | None => None
                      | Some true => Some (events, fetched)
                      | Some false => hamfest_pages get left' (page + 1) events fetched
                      end
                    else hamfest_pages get left' (page + 1) events fetched
                end
            end
      end
  end.

Definition max_pages : nat := 12.

(** [ingest_arrl_hamfests]: the events, and the pages it requested. *)
Definition ingest_arrl_hamfests (get : Z -> response) : option (list Event * list Z) :=
  hamfest_pages get max_pages 1 [] [].

(** *** The partition *)

Record calendars := mkCalendars {
  cal_all : list Event;
  cal_cw : list Event;
  cal_phone : list Event;
  cal_digital : list Event;
  cal_hamfests : list Event;
  cal_field_day : list Event
}.

(** One iteration of the loop of [split_calendars]. *)
Definition split_step (out : calendars) (e : Event) : calendars :=
  let has (c : str) := mem c (categories e) in
  let add (b : bool) (l : list Event) := if b then l ++ [e] else l in
  mkCalendars
    (cal_all out ++ [e])
    (add (has (lit "contest") && has (lit "cw")) (cal_cw out))
    (add (has (lit "contest") && has (lit "phone")) (cal_phone out))
    (add (has (lit "contest") && has (lit "digital")) (cal_digital out))
    (add (has (lit "hamfest")) (cal_hamfests out))
    (add (has (lit "field-day")) (cal_field_day out)).

Definition split_calendars (all_events : list Event) : calendars :=
  fold_left split_step all_events (mkCalendars [] [] [] [] [] []).

(** *** [main] *)

(** What a source contributes: its events, or nothing when it raised. *)
Definition or_nil (source_events : option (list Event)) : list Event :=
  match source_events with
  | Some l => l
  | None => []
  end.

(** The events of [main] from the outcomes of the three sources, after
    de-duplication, and the six calendars. *)
Definition main_events (wa arrl hf : option (list Event)) : list Event :=
  dedup (or_nil wa ++ or_nil arrl ++ or_nil hf).

Definition main_calendars (wa arrl hf : option (list Event)) : calendars :=
  split_calendars (main_events wa arrl hf).

(** ** Vocabulary of the further statements *)

(** The events of [l] that carry the label [c], and those that carry both
    [contest] and [c]. *)
Definition labelled (c : str) (l : list Event) : list Event :=
  filter (fun e => mem c (categories e)) l.

Definition contests_labelled (c : str) (l : list Event) : list Event :=
  filter (fun e => mem (lit "contest") (categories e) && mem c (categories e)) l.

(** The keys of [ks] in the order of their first occurrence; [seen] holds
    the keys met so far. *)
Fixpoint first_keys (seen ks : list key) : list key :=
  match ks with
  | [] => []
  | k :: ks' =>
      if existsb (key_eqb k) seen then first_keys seen ks'
      else k :: first_keys (seen ++ [k]) ks'
  end.

(** The classifier: [tag_modes] followed by [tag_field_day]. *)
Definition tag (e : Event) : Event := tag_field_day (tag_modes e).

(** The events of [l] that start at [t], in the order of [l]. *)
Definition starting_at (t : datetime) (l : list Event) : list Event :=
  filter (fun e => start e =? t) l.

Definition starts_le (a b : Event) : Prop := start a <= start b.


(** A decoder for [ics_escape], read from left to right: a backslash takes
    the next character with it, and a backslash and n stand for a line feed.
    It is not part of the program (whose [unfold_ics_text] decodes by
    successive replacements); it serves to show that escaping loses
    nothing. *)
Fixpoint decode_escaped (s : str) : str :=
  match s with
  | [] => []
  | c :: s' =>
      if char_eqb 92%N c then
        match s' with
        | [] => [c]
        | d :: s'' => (if char_eqb 110%N d then LF else d) :: decode_escaped s''
        end
      else c :: decode_escaped s'
  end.

(** A comma or a semicolon, the separators of ICS values. *)
Definition is_separator (c : char) : bool := char_eqb 44%N c || char_eqb 59%N c.

(** The parameters between a field name and the colon: none, or a
    semicolon and a text [q]. *)
Definition params_text (params : option str) : str :=
  match params with
  | None => []
  | Some q => 59%N :: q
  end.

(** [q] has no colon. *)
Definition no_colon (q : str) : bool := forallb (fun c => negb (char_eqb c 58%N)) q.

(** The labels an event of a contest source can carry. *)
Definition contest_labels : list str :=
  [lit "contest"; lit "cw"; lit "phone"; lit "digital"; lit "field-day"].

(** The blocks of a feed: what follows each marker. *)
Definition feed_blocks (text : str) : list str := tl (split (lit "BEGIN:VEVENT") text).

(** The lines of the contest page that the loop of [ingest_arrl_contests]
    goes through. *)
Definition contest_page_lines (html_text : str) : list str :=
  splitlines (strip_html html_text).

(** The page numbers [page], [page + 1], ... : [k] of them. *)
Fixpoint pages_from (page : Z) (k : nat) : list Z :=
  match k with
  | O => []
  | S k' => page :: pages_from (page + 1) k'
  end.

(** A response that lets the loop of [ingest_arrl_hamfests] read the page. *)
Definition page_read (r : response) : Prop :=
  exists code body, r = Response code body /\ code <> 404 /\ is_error_status code = false.

(** [s] has no decimal digit. *)
Definition no_digit (s : str) : bool := forallb (fun c => negb (is_decimal c)) s.

(** What [main] can get from each source: nothing, when the request or the
    ingest raised, or the events ingested from some response. *)
Definition wa_outcome (wa : option (list Event)) : Prop :=
  wa = None \/ exists text, wa = ingest_wa7bnm_gcal text.

Definition arrl_outcome (arrl : option (list Event)) : Prop :=
  arrl = None \/ exists html_text, arrl = ingest_arrl_contests html_text.

Definition hf_outcome (hf : option (list Event)) : Prop :=
  hf = None \/ exists get, hf = option_map fst (ingest_arrl_hamfests get).

(** The source and the labels of an event go together in one of three
    ways. *)
Definition source_shape (e : Event) : Prop :=
  ((source e = lit "wa7bnm-gcal" \/ source e = lit "arrl-contest") /\
   forall l, In l (categories e) -> In l contest_labels) \/
  (source e = lit "arrl-field-day" /\ categories e = [lit "field-day"]) \/
  (source e = lit "arrl-hamfest" /\ categories e = [lit "hamfest"]).

(** [s] has no [<], and no [>]. *)
Definition no_lt (s : str) : bool := forallb (fun c => negb (char_eqb 60%N c)) s.
Definition no_gt (s : str) : bool := forallb (fun c => negb (char_eqb 62%N c)) s.

(** What follows the first [>] of [s]. *)
Fixpoint after_gt (s : str) : option str :=
  match s with
  | [] => None
  | c :: s' => if char_eqb 62%N c then Some s' else after_gt s'
  end.

(** Some [<] of [s] has a [>] after it: the text still holds a tag. *)
Fixpoint tag_left (s : str) : bool :=
  match s with
  | [] => false
  | c :: s' => (char_eqb 60%N c && negb (no_gt s')) || tag_left s'
  end.

(** A token of the shape dd/dd/dddd. *)
Definition mdY_token (t : str) : bool :=
  match t with
  | [m1; m2; s1; d1; d2; s2; y1; y2; y3; y4] =>
      is_decimal m1 && is_decimal m2 && char_eqb 47%N s1 &&
      is_decimal d1 && is_decimal d2 && char_eqb 47%N s2 &&
      is_decimal y1 && is_decimal y2 && is_decimal y3 && is_decimal y4
  | _ => false
  end.

(** A token of the shape dddd-dd-dd. *)
Definition iso_token (t : str) : bool :=
  match t with
  | [y1; y2; y3; y4; h1; m1; m2; h2; d1; d2] =>
      is_decimal y1 && is_decimal y2 && is_decimal y3 && is_decimal y4 &&
      char_eqb h1 45%N && is_decimal m1 && is_decimal m2 &&
      char_eqb h2 45%N && is_decimal d1 && is_decimal d2
  | _ => false
  end.

(** [b] is empty or begins with a character that is no word character. *)
Definition starts_non_word (b : str) : bool :=
  match b with
  | [] => true
  | c :: _ => negb (is_word c)
  end.

(** ** A sample run, continued

    Stand-ins for the further library functions on ASCII text, a feed, a
    contest page and a site of hamfest pages. *)

(** ASCII word characters. *)
Definition word_char (c : char) : bool :=
  ((48 <=? c) && (c <=? 57) || (65 <=? c) && (c <=? 90) ||
   (97 <=? c) && (c <=? 122) || (c =? 95))%N.

(** [strptime] with [%Y-%m-%d] and with [%m/%d/%Y] on ASCII digits. *)
Definition strptime_dashes (s : str) : option date :=
  date_of (number (firstn 4 s)) (number (firstn 2 (skipn 5 s))) (number (skipn 8 s)).

Definition strptime_slashes (s : str) : option date :=
  date_of (number (skipn 6 s)) (number (firstn 2 s)) (number (firstn 2 (skipn 3 s))).

(** [html.unescape] on a text without entities. *)
Definition no_entities (s : str) : str := s.

(** A feed with one event, and one whose start is not a date. *)
Definition feed_2024 : str :=
  lit "BEGIN:VCALENDAR" ++ CRLF ++ lit "BEGIN:VEVENT" ++ bare_block.

Definition feed_bad_start : str :=
  lit "BEGIN:VEVENT" ++ CRLF ++ lit "DTSTART:tomorrow" ++ CRLF ++ lit "END:VEVENT" ++ CRLF.

(** A contest page with one dated line, and one with a token that is no
    date. *)
Definition contest_page : str :=
  lit "<p>2024-06-15 June VHF Contest</p><p>More to come</p>".

Definition contest_page_bad : str := lit "<p>2024-13-45 Sprint</p>".

(** A site with one page of hamfests, and one that fails. *)
Definition hamfest_site (page : Z) : response :=
  if page =? 1 then Response 200 (lit "<p>06/22/2024 - Big Fest</p>")
  else Response 404 [].

Definition hamfest_site_down (_ : Z) : response := Failed.

Definition big_fest : Event :=
  mkEvent (lit "Hamfest: Big Fest") (datetime_midnight (mkdate 2024 6 22))
    (datetime_midnight (mkdate 2024 6 23))
    (Some (lit "https://www.arrl.org/hamfests/search")) None
    [lit "hamfest"] (lit "arrl-hamfest").

Definition vhf_contest : Event :=
  mkEvent (lit "ARRL: 2024-06-15 June VHF Contest") (datetime_midnight (mkdate 2024 6 15))
    (datetime_midnight (mkdate 2024 6 16))
    (Some (lit "https://www.arrl.org/contest-calendar")) None
    [lit "contest"] (lit "arrl-contest").

Definition field_day_2024 : Event :=
  mkEvent (lit "ARRL Field Day") (datetime_midnight (mkdate 2024 6 22))
    (datetime_midnight (mkdate 2024 6 24))
    (Some (lit "https://www.arrl.org/field-day"))
    (Some (lit "Computed as the 4th full weekend of June (Sat-Sun)."))
    [lit "field-day"] (lit "arrl-field-day").

Definition feed_event : Event :=
  mkEvent (lit "Contest") (datetime_midnight (mkdate 2024 6 22))
    (datetime_midnight (mkdate 2024 6 22) + timedelta_hours 1)
    None None [lit "contest"] (lit "wa7bnm-gcal").

(** * Properties *)

(** Section variables that the goal does not mention are removed from the
    context, so that proof search cannot pick them up. *)
Ltac drop_unused :=
  try clear strptime_mdY; try clear strptime_Y_m_d; try clear is_word;
  try clear dtparser_parse_utc; try clear strptime_Ymd; try clear is_decimal;
  try clear html_unescape; try clear unicode_upper; try clear sha256_hexdigest;
  try clear NOW_UTC.

(** ** Examples *)

Example ics_escape_ex :
  ics_escape (lit "a,b;c\d" ++ [LF] ++ lit "e") = lit "a\,b\;c\\d\ne".
Proof. reflexivity. Qed.

Example extract_ex :
  extract_ics_field (lit "BEGIN:VEVENT" ++ [CR; LF] ++ lit "DTSTART;VALUE=DATE:20240622" ++ [CR; LF] ++
                     lit "SUMMARY:Field" ++ [CR; LF] ++ lit "  Day" ++ [CR; LF] ++ lit "END:VEVENT")
                    (lit "SUMMARY") = Some (lit "Field Day") /\
  extract_ics_field (lit "BEGIN:VEVENT" ++ [CR; LF] ++ lit "DTSTART;VALUE=DATE:20240622" ++ [CR; LF] ++
                     lit "SUMMARY:Field" ++ [CR; LF] ++ lit "  Day" ++ [CR; LF] ++ lit "END:VEVENT")
                    (lit "DTSTART") = Some (lit "20240622") /\
  extract_ics_field (lit "BEGIN:VEVENT" ++ [CR; LF] ++ lit "DTSTART;VALUE=DATE:20240622" ++ [CR; LF] ++
                     lit "SUMMARY:Field" ++ [CR; LF] ++ lit "  Day" ++ [CR; LF] ++ lit "END:VEVENT")
                    (lit "DTEND") = None.
Proof. repeat split; vm_compute; reflexivity. Qed.

(** ** The window *)

(** C1: the horizon is the clock reading plus 62 days, the value the module
    computes when it loads; an event is in the window exactly when its end is
    strictly after now and its start strictly before now + 62 days; an event
    ending exactly at now, or starting exactly at the horizon, is outside,
    while one ending a microsecond after now and starting a microsecond
    before the horizon is inside. *)
Theorem is_in_window_iff (e : Event) :
  HORIZON_END_UTC = NOW_UTC + timedelta_days 62 /\
  (forall h, datetime_add NOW_UTC (timedelta_days 62) = Some h -> h = HORIZON_END_UTC) /\
  (is_in_window e = true <->
     NOW_UTC < end_ e /\ start e < NOW_UTC + timedelta_days 62) /\
  (end_ e = NOW_UTC -> is_in_window e = false) /\
  (start e = NOW_UTC + timedelta_days 62 -> is_in_window e = false) /\
  (end_ e = NOW_UTC + 1 -> start e = NOW_UTC + timedelta_days 62 - 1 ->
   is_in_window e = true).
Proof.
  split; [reflexivity|]. split.
  { intros h H. unfold datetime_add in H. destruct (_ && _) in H; [|discriminate].
    injection H as <-. reflexivity. }
  unfold is_in_window, HORIZON_END_UTC. split; [|split; [|split]].
  - split.
    + intros H. apply andb_true_iff in H. destruct H as [H1 H2].
      split; now apply Z.ltb_lt.
    + intros [H1 H2]. apply andb_true_iff. split; now apply Z.ltb_lt.
  - intros ->. now rewrite Z.ltb_irrefl.
  - intros ->. rewrite Z.ltb_irrefl. apply andb_false_r.
  - intros -> ->. apply andb_true_iff. split; apply Z.ltb_lt; lia.
Qed.

(** ** Durations *)

Lemma round_half_even_near (n d : Z) :
  0 < d ->
  2 * n - d <= 2 * d * round_half_even n d <= 2 * n + d.
Proof.
  intros Hd. unfold round_half_even.
  pose proof (Z.div_mod n d ltac:(lia)) as E.
  pose proof (Z.mod_pos_bound n d Hd) as B.
  destruct (Z.ltb_spec (2 * (n mod d)) d); [nia|].
  destruct (Z.ltb_spec d (2 * (n mod d))); [nia|].
  destruct (Z.even (n / d)); nia.
Qed.

Lemma binade_exact (n : Z) :
  1 <= n < 2 ^ 34 * US_PER_SECOND -> 19 <= 52 - binade n.
Proof.
  unfold US_PER_SECOND, binade. intros [H1 H2].
  assert (Hx : 0 < n * 2 ^ 20 / 1000000)
    by (apply Z.div_str_pos; lia).
  assert (Hy : n * 2 ^ 20 / 1000000 < 2 ^ 54)
    by (apply Z.div_lt_upper_bound; lia).
  apply Z.log2_lt_pow2 in Hy; [lia | exact Hx].
Qed.

(** Below 2^34 seconds the double has the whole seconds of the span. *)
Lemma total_seconds_magnitude (n : Z) :
  1 <= n < 2 ^ 34 * US_PER_SECOND ->
  round_half_even (n * 2 ^ (52 - binade n)) US_PER_SECOND / 2 ^ (52 - binade n)
  = n / US_PER_SECOND.
Proof.
  intros Hn. pose proof (binade_exact n Hn) as Hsh.
  set (sh := 52 - binade n) in *.
  assert (HP : 2 ^ 19 <= 2 ^ sh) by (apply Z.pow_le_mono_r; lia).
  set (P := 2 ^ sh) in *.
  pose proof (round_half_even_near (n * P) US_PER_SECOND ltac:(reflexivity)) as Hm.
  set (m := round_half_even (n * P) US_PER_SECOND) in *.
  unfold US_PER_SECOND in *.
  pose proof (Z.div_mod n 1000000 ltac:(lia)) as E.
  pose proof (Z.mod_pos_bound n 1000000 ltac:(lia)) as B.
  set (s := n / 1000000) in *. set (u := n mod 1000000) in *.
  assert (EP : n * P = 1000000 * (s * P) + u * P) by (rewrite E at 1; ring).
  assert (BP : 0 <= u * P <= 999999 * P) by nia.
  symmetry. apply (Z.div_unique_pos m P s (m - s * P)); [|ring].
  change (2 ^ 19) with 524288 in HP. lia.
Qed.

Lemma total_seconds_int_exact (delta : timedelta) :
  exact_span delta -> total_seconds_int delta = Z.quot delta US_PER_SECOND.
Proof.
  unfold exact_span, total_seconds_int. intros H.
  destruct (Z.eqb_spec delta 0) as [->|Hne]; [reflexivity|].
  assert (Hn : 1 <= Z.abs delta < 2 ^ 34 * US_PER_SECOND) by lia.
  pose proof (binade_exact _ Hn) as Hsh.
  destruct (Z.leb_spec 0 (52 - binade (Z.abs delta))) as [_|Hneg]; [|lia].
  rewrite (total_seconds_magnitude _ Hn).
  destruct (Z.lt_total delta 0) as [Hlt|[Heq|Hgt]]; [|contradiction|].
  - rewrite (Z.sgn_neg _ Hlt), (Z.abs_neq delta) by lia.
    replace delta with (- (- delta)) at 2 by lia.
    rewrite Z.quot_opp_l by (unfold US_PER_SECOND; lia).
    rewrite Z.quot_div_nonneg by (unfold US_PER_SECOND; lia). lia.
  - rewrite (Z.sgn_pos _ Hgt), (Z.abs_eq delta) by lia.
    rewrite Z.quot_div_nonneg by (unfold US_PER_SECOND; lia). lia.
Qed.

Lemma round_half_even_nonneg (n d : Z) : 0 <= n -> 0 < d -> 0 <= round_half_even n d.
Proof.
  intros Hn Hd. unfold round_half_even.
  pose proof (Z.div_pos n d Hn Hd).
  destruct (_ <? _); [lia|]. destruct (_ <? _); [lia|]. destruct (Z.even _); lia.
Qed.

(** Whatever the size of the span, a span that is not positive gives no
    positive count of seconds. *)
Lemma total_seconds_nonpos_span (delta : timedelta) :
  delta <= 0 -> total_seconds_int delta <= 0.
Proof.
  intros H. unfold total_seconds_int.
  destruct (Z.eqb_spec delta 0) as [->|Hne]; [lia|].
  rewrite Z.sgn_neg by lia.
  assert (Hw : 0 <= (if 0 <=? 52 - binade (Z.abs delta)
                     then round_half_even (Z.abs delta * 2 ^ (52 - binade (Z.abs delta)))
                            US_PER_SECOND / 2 ^ (52 - binade (Z.abs delta))
                     else round_half_even (Z.abs delta)
                            (US_PER_SECOND * 2 ^ (- (52 - binade (Z.abs delta))))
                          * 2 ^ (- (52 - binade (Z.abs delta))))); [|lia].
  destruct (Z.leb_spec 0 (52 - binade (Z.abs delta))) as [Hsh|Hsh].
  - assert (0 < 2 ^ (52 - binade (Z.abs delta))) by (apply Z.pow_pos_nonneg; lia).
    apply Z.div_pos; [|assumption].
    apply round_half_even_nonneg; [nia | reflexivity].
  - assert (0 < 2 ^ (- (52 - binade (Z.abs delta)))) by (apply Z.pow_pos_nonneg; lia).
    apply Z.mul_nonneg_nonneg; [|lia].
    apply round_half_even_nonneg; [lia | unfold US_PER_SECOND; lia].
Qed.

Lemma total_seconds_nonpos (delta : timedelta) :
  delta < US_PER_SECOND -> total_seconds_int delta <= 0.
Proof.
  intros H. destruct (Z.le_gt_cases delta 0) as [Hle | Hpos].
  - apply total_seconds_nonpos_span, Hle.
  - rewrite total_seconds_int_exact by (unfold exact_span, US_PER_SECOND in *; lia).
    unfold US_PER_SECOND in *. rewrite Z.quot_small by lia. lia.
Qed.

Lemma total_seconds_pos (delta : timedelta) :
  US_PER_SECOND <= delta -> exact_span delta ->
  0 < total_seconds_int delta /\ total_seconds_int delta = delta / US_PER_SECOND.
Proof.
  intros H Hx. rewrite (total_seconds_int_exact delta Hx).
  unfold US_PER_SECOND in *.
  rewrite Z.quot_div_nonneg by lia.
  split; [|reflexivity].
  apply Z.div_str_pos. lia.
Qed.


Lemma mod_1440_60 (a : Z) : a mod 1440 mod 60 = a mod 60.
Proof. apply Z.mod_mod_divide. exists 24. reflexivity. Qed.

Lemma fmt_duration_positive (s e : datetime) :
  US_PER_SECOND <= e - s -> exact_span (e - s) ->
  let mins := (e - s) / (60 * US_PER_SECOND) in
  fmt_duration s e =
    join (lit " ") (duration_parts (mins / 1440) (mins mod 1440 / 60) (mins mod 60)).
Proof.
  intros H Hx mins. unfold fmt_duration.
  destruct (total_seconds_pos _ H Hx) as [Hpos Heq].
  destruct (Z.leb_spec (total_seconds_int (e - s)) 0) as [Hle | _]; [lia|].
  rewrite Heq.
  replace ((e - s) / US_PER_SECOND / 60) with mins
    by (unfold mins; rewrite Z.div_div by (unfold US_PER_SECOND; lia);
        f_equal; unfold US_PER_SECOND; lia).
  change (60 * 24) with 1440.
  rewrite mod_1440_60.
  unfold duration_parts.
  destruct (mins / 1440 =? 0); destruct (mins mod 1440 / 60 =? 0);
    destruct (mins mod 60 =? 0); reflexivity.
Qed.




(** C10: a span that is strictly positive but shorter than one minute is
    rendered as 0m. *)
Theorem fmt_duration_sub_minute (s e : datetime) :
  0 < e - s < 60 * US_PER_SECOND -> fmt_duration s e = lit "0m".
Proof.
  intros [Hpos Hlt].
  assert (Hx : exact_span (e - s))
    by (unfold exact_span, US_PER_SECOND in *; lia).
  destruct (Z.le_gt_cases US_PER_SECOND (e - s)) as [Hbig | Hsmall].
  - rewrite fmt_duration_positive by assumption.
    rewrite (Z.div_small (e - s)) by lia. reflexivity.
  - unfold fmt_duration.
    pose proof (total_seconds_nonpos (e - s) Hsmall) as Hn.
    destruct (Z.leb_spec (total_seconds_int (e - s)) 0) as [_ | Hgt];
      [reflexivity | lia].
Qed.

(** ** De-duplication *)

Lemma str_eqb_eq (a b : str) : str_eqb a b = true <-> a = b.
Proof.
  revert b. induction a as [|x a IH]; intros [|y b]; simpl; try (split; congruence).
  unfold char_eqb. rewrite andb_true_iff, N.eqb_eq, IH.
  split; [intros [-> ->]; reflexivity | intros H; injection H; auto].
Qed.

Lemma str_eqb_refl (a : str) : str_eqb a a = true.
Proof. now apply str_eqb_eq. Qed.

Lemma key_eqb_eq (a b : key) : key_eqb a b = true <-> a = b.
Proof.
  destruct a as [[a1 a2] a3], b as [[b1 b2] b3]. simpl.
  rewrite !andb_true_iff, !str_eqb_eq.
  split; [intros [[-> ->] ->]; reflexivity | intros H; injection H; auto].
Qed.

Lemma existsb_key_In (k : key) (ks : list key) :
  existsb (key_eqb k) ks = true <-> In k ks.
Proof.
  rewrite existsb_exists. split.
  - intros [x [Hx E]]. apply key_eqb_eq in E. now subst.
  - intros H. exists k. split; [assumption | now apply key_eqb_eq].
Qed.

Lemma dict_set_keys (d : list (key * Event)) (k : key) (v : Event) :
  map fst (dict_set d k v) =
  if existsb (key_eqb k) (map fst d) then map fst d else map fst d ++ [k].
Proof.
  induction d as [|[k' v'] d IH]; simpl; [reflexivity|].
  destruct (key_eqb k k') eqn:E; simpl; [reflexivity|].
  rewrite IH. destruct (existsb _ _); reflexivity.
Qed.

Lemma dict_set_In_keys (d : list (key * Event)) (k : key) (v : Event) (k' : key) :
  In k' (map fst (dict_set d k v)) <-> In k' (map fst d) \/ k' = k.
Proof.
  rewrite dict_set_keys.
  destruct (existsb (key_eqb k) (map fst d)) eqn:E.
  - apply existsb_key_In in E. split; [auto | intros [H | ->]; assumption].
  - rewrite in_app_iff. simpl. intuition congruence.
Qed.

Lemma dict_set_NoDup (d : list (key * Event)) (k : key) (v : Event) :
  NoDup (map fst d) -> NoDup (map fst (dict_set d k v)).
Proof.
  intros H. rewrite dict_set_keys.
  destruct (existsb (key_eqb k) (map fst d)) eqn:E; [assumption|].
  apply NoDup_app; [assumption | repeat constructor; intros [] | ].
  intros x Hx [<- | []].
  apply existsb_key_In in Hx. congruence.
Qed.

(** After [d[k] = v] the dict holds [(k, v)] and the entries of [d] under
    other keys. *)
Lemma dict_set_In (d : list (key * Event)) (k : key) (v : Event) (x : key * Event) :
  NoDup (map fst d) ->
  In x (dict_set d k v) <-> x = (k, v) \/ (In x d /\ fst x <> k).
Proof.
  induction d as [|[k' v'] d IH]; simpl; intros Hnd.
  - intuition congruence.
  - inversion Hnd as [|? ? Hnotin Hnd']; subst.
    destruct (key_eqb k k') eqn:E; simpl.
    + apply key_eqb_eq in E. subst k'. split.
      * intros [H | H]; [left; congruence|].
        right. split; [auto|]. intros Hk. apply Hnotin. rewrite <- Hk.
        now apply in_map.
      * intros [H | [[H | H] Hk]]; [left; congruence | | right; assumption].
        subst x. now elim Hk.
    + assert (Hne : k <> k') by (intros ->; rewrite (proj2 (key_eqb_eq k' k')) in E; congruence).
      rewrite (IH Hnd'). split.
      * intros [H | [H | [H Hk]]]; [|auto|auto].
        right. split; [auto|]. subst x. simpl. congruence.
      * intros [H | [[H | H] Hk]]; auto.
  Qed.

Lemma last_with_key_snoc (e v : Event) (es : list Event) :
  last_with_key e (es ++ [v]) <->
  e = v \/ (last_with_key e es /\ dedup_key e <> dedup_key v).
Proof.
  split.
  - intros [l1 [l2 [Heq Hnot]]].
    destruct l2 as [|z l2] using rev_ind.
    + apply app_inj_tail in Heq. left. symmetry. apply Heq.
    + clear IHl2. right.
      change (l1 ++ e :: l2 ++ [z]) with (l1 ++ (e :: l2) ++ [z]) in Heq.
      rewrite app_assoc in Heq. apply app_inj_tail in Heq. destruct Heq as [-> ->].
      rewrite map_app, in_app_iff in Hnot. simpl in Hnot. split.
      * exists l1, l2. split; [reflexivity | tauto].
      * intros Hk. apply Hnot. right. left. congruence.
  - intros [-> | [[l1 [l2 [-> Hnot]]] Hk]].
    + exists es, []. split; [reflexivity | intros []].
    + exists l1, (l2 ++ [v]). split.
      * now rewrite <- app_assoc.
      * rewrite map_app, in_app_iff. simpl. intuition congruence.
Qed.

Lemma dedup_dict_snoc (es : list Event) (e : Event) :
  dedup_dict (es ++ [e]) = dict_set (dedup_dict es) (dedup_key e) e.
Proof. unfold dedup_dict. now rewrite fold_left_app. Qed.

Lemma dedup_dict_inv (es : list Event) : dedup_inv (dedup_dict es) es.
Proof.
  induction es as [|e es IH] using rev_ind.
  - split; simpl; try tauto.
    + constructor.
    + intros v. split; [intros [] | intros [l1 [l2 [H _]]]].
      destruct l1; discriminate.
  - rewrite dedup_dict_snoc. destruct IH as [Hkey Hnd Hkeys Hlast]. split.
    + intros k v Hin. apply dict_set_In in Hin; [|assumption].
      destruct Hin as [H | [H _]]; [congruence | auto].
    + now apply dict_set_NoDup.
    + intros k. rewrite dict_set_In_keys, Hkeys, map_app, in_app_iff. simpl.
      intuition congruence.
    + intros v. rewrite last_with_key_snoc, <- Hlast, !in_map_iff. split.
      * intros [[k v'] [Hv Hin]]. simpl in Hv. subst v'.
        apply dict_set_In in Hin; [|assumption].
        destruct Hin as [H | [H Hk]]; [left; congruence|].
        right. simpl in Hk. rewrite (Hkey _ _ H) in Hk.
        split; [exists (k, v); auto | assumption].
      * intros [-> | [[[k v'] [Hv Hin]] Hk]].
        -- exists (dedup_key e, e). split; [reflexivity|].
           apply dict_set_In; auto.
        -- simpl in Hv. subst v'. exists (k, v). split; [reflexivity|].
           apply dict_set_In; [assumption|]. right. split; [assumption|].
           simpl. now rewrite (Hkey _ _ Hin).
Qed.

Lemma dict_keys_of_values (d : list (key * Event)) :
  (forall k v, In (k, v) d -> k = dedup_key v) ->
  map dedup_key (map snd d) = map fst d.
Proof.
  induction d as [|[k v] d IH]; simpl; intros H; [reflexivity|].
  rewrite IH by (intros; apply H; auto).
  f_equal. symmetry. apply H. auto.
Qed.

Lemma dedup_dict_pair (e1 e2 : Event) :
  dedup_key e1 = dedup_key e2 -> dedup_dict [e1; e2] = [(dedup_key e1, e2)].
Proof.
  intros E. unfold dedup_dict. cbn [fold_left dict_set].
  now rewrite (proj2 (key_eqb_eq _ _) (eq_sym E)).
Qed.

Lemma dedup_key_eq (e1 e2 : Event) :
  dedup_key e1 = dedup_key e2 <->
  title e1 = title e2 /\ isoformat (start e1) = isoformat (start e2) /\
  source e1 = source e2.
Proof.
  unfold dedup_key. split.
  - intros H. injection H as H1 H2 H3. auto.
  - intros [H1 [H2 H3]]. rewrite H1, H2, H3. reflexivity.
Qed.

Lemma dedup_dict_two (e1 e2 : Event) :
  dedup_key e1 <> dedup_key e2 ->
  dedup_dict [e1; e2] = [(dedup_key e1, e1); (dedup_key e2, e2)].
Proof.
  intros N. unfold dedup_dict. cbn [fold_left dict_set].
  destruct (key_eqb (dedup_key e2) (dedup_key e1)) eqn:E; [|reflexivity].
  apply key_eqb_eq in E. congruence.
Qed.

(** C2: the de-duplication keeps one event per key, and the key of an event
    is the triple of its title, the canonical string of its start and its
    source: two events have the same key exactly when they agree on the
    three.  The keys of the result are distinct and are those of the input,
    the events kept are exactly the last ones processed for their key; two
    events that agree on title, start and source, whatever their end and
    link, collapse to the later one, and two events that differ in title, in
    the canonical string of the start or in source are both kept, in their
    order. *)
Theorem dedup_last_write_wins (es : list Event) :
  NoDup (map dedup_key (dedup es)) /\
  (forall k, In k (map dedup_key (dedup es)) <-> In k (map dedup_key es)) /\
  (forall e, In e (dedup es) <-> last_with_key e es) /\
  (forall e1 e2,
     title e1 = title e2 -> start e1 = start e2 -> source e1 = source e2 ->
     dedup [e1; e2] = [e2] /\ length (dedup [e1; e2]) = 1%nat) /\
  (forall e1 e2,
     dedup_key e1 = dedup_key e2 <->
     title e1 = title e2 /\ isoformat (start e1) = isoformat (start e2) /\
     source e1 = source e2) /\
  (forall e1 e2,
     title e1 <> title e2 \/ isoformat (start e1) <> isoformat (start e2) \/
     source e1 <> source e2 ->
     dedup [e1; e2] = [e1; e2] /\ length (dedup [e1; e2]) = 2%nat).
Proof.
  destruct (dedup_dict_inv es) as [Hkey Hnd Hkeys Hlast].
  unfold dedup. rewrite (dict_keys_of_values _ Hkey).
  split; [assumption|]. split; [apply Hkeys|]. split; [apply Hlast|].
  split; [|split].
  - intros e1 e2 H1 H2 H3.
    rewrite dedup_dict_pair by (unfold dedup_key; congruence). split; reflexivity.
  - apply dedup_key_eq.
  - intros e1 e2 H.
    rewrite dedup_dict_two; [split; reflexivity|].
    intros E. apply dedup_key_eq in E. destruct E as [E1 [E2 E3]].
    destruct H as [H|[H|H]]; contradiction.
Qed.

(** ** Field Day *)

Lemma years_spec (y : Z) : MINYEAR <= y <= MAXYEAR -> In y years.
Proof.
  unfold years, MINYEAR, MAXYEAR. intros H.
  rewrite <- (Z2Nat.id y) by lia.
  apply in_map, in_seq. lia.
Qed.

Lemma field_day_check_all : forallb field_day_check years = true.
Proof. vm_compute. reflexivity. Qed.

Lemma field_day_check_year (y : Z) :
  MINYEAR <= y <= MAXYEAR -> field_day_check y = true.
Proof.
  intros H. apply (proj1 (forallb_forall _ _) field_day_check_all).
  now apply years_spec.
Qed.

Lemma add_category_times (e : Event) (c : str) :
  start (add_category e c) = start e /\ end_ (add_category e c) = end_ e.
Proof. unfold add_category. destruct (mem c (categories e)); split; reflexivity. Qed.

Lemma tag_field_day_times (e : Event) :
  start (tag_field_day e) = start e /\ end_ (tag_field_day e) = end_ e.
Proof.
  unfold tag_field_day. destruct (any_in _ _); [apply add_category_times | split; reflexivity].
Qed.

(** The rule and the event of one year. *)
Lemma field_day_year (y : Z) :
  MINYEAR <= y <= MAXYEAR ->
  exists f,
     1 <= f <= 7 /\
     weekday (mkdate y 6 f) = 5 /\
     (forall d, 1 <= d < f -> weekday (mkdate y 6 d) <> 5) /\
     fourth_full_weekend_saturday_of_june y = Some (mkdate y 6 (f + 21)) /\
     weekday (mkdate y 6 (f + 21)) = 5 /\
     toordinal (mkdate y 6 (f + 21)) = toordinal (mkdate y 6 f) + 21 /\
     exists e,
       field_day_event y = Some e /\
       start e = datetime_midnight (mkdate y 6 (f + 21)) /\
       end_ e = start e + timedelta_days 2 /\
       weekday (mkdate y 6 (f + 22)) = 6 /\
       datetime_midnight (mkdate y 6 (f + 22)) = start e + timedelta_days 1 /\
       weekday (mkdate y 6 (f + 23)) = 0 /\
       datetime_midnight (mkdate y 6 (f + 23)) = end_ e.
Proof.
  intros Hy.
  pose proof (field_day_check_year y Hy) as C. unfold field_day_check in C.
  destruct (fourth_full_weekend_saturday_of_june y) as [[ys ms ds]|] eqn:E; [|discriminate].
  cbn [year month day] in C.
  destruct (datetime_add _ _) as [en|] eqn:Eadd in C; [|now rewrite !andb_false_r in C].
  destruct (date_of y 6 (ds + 1)) as [sun|] eqn:Esun; [|now rewrite !andb_false_r in C].
  destruct (date_of y 6 (ds + 2)) as [mon|] eqn:Emon; [|now rewrite !andb_false_r in C].
  repeat (apply andb_true_iff in C; destruct C as [C ?]).
  repeat match goal with
         | H : (_ =? _) = true |- _ => apply Z.eqb_eq in H
         | H : (_ <=? _) = true |- _ => apply Z.leb_le in H
         end.
  subst ys ms.
  assert (Hsun : sun = mkdate y 6 (ds + 1))
    by (unfold date_of in Esun; destruct (_ && _) in Esun; congruence).
  assert (Hmon : mon = mkdate y 6 (ds + 2))
    by (unfold date_of in Emon; destruct (_ && _) in Emon; congruence).
  subst sun mon.
  exists (ds - 21).
  replace (ds - 21 + 21) with ds by lia.
  replace (ds - 21 + 22) with (ds + 1) by lia.
  replace (ds - 21 + 23) with (ds + 2) by lia.
  repeat split; try assumption; try lia.
  - intros d Hd Hsat.
    match goal with
    | H : forallb _ _ = true |- _ =>
        rewrite forallb_forall in H; specialize (H d)
    end.
    assert (Hin : In d [1; 2; 3; 4; 5; 6]) by (simpl; lia).
    match goal with
    | H : In d _ -> _ |- _ => specialize (H Hin)
    end.
    rewrite Hsat, Z.eqb_refl, andb_true_r in *.
    match goal with
    | H : negb (d <? _) = true |- _ =>
        apply negb_true_iff, Z.ltb_ge in H; lia
    end.
  - unfold field_day_event. rewrite E, Eadd.
    eexists. split; [reflexivity|].
    destruct (tag_field_day_times
                (add_category
                   (mkEvent (lit "ARRL Field Day") (datetime_midnight (mkdate y 6 ds)) en
                      (Some (lit "https://www.arrl.org/field-day"))
                      (Some (lit "Computed as the 4th full weekend of June (Sat-Sun)."))
                      [] (lit "arrl-field-day")) (lit "field-day"))) as [Hs He].
    rewrite Hs, He.
    destruct (add_category_times
                (mkEvent (lit "ARRL Field Day") (datetime_midnight (mkdate y 6 ds)) en
                   (Some (lit "https://www.arrl.org/field-day"))
                   (Some (lit "Computed as the 4th full weekend of June (Sat-Sun)."))
                   [] (lit "arrl-field-day")) (lit "field-day")) as [Hs' He'].
    rewrite Hs', He'. cbn [start end_].
    repeat split; try assumption; lia.
Qed.


(** The events that [add_field_day_fixed] returns are those of the rule for
    the current and the next year that fall in the window. *)
Lemma add_field_day_fixed_events (events : list Event) (e : Event) :
  add_field_day_fixed = Some events -> In e events ->
  exists yr,
    (yr = year (datetime_date NOW_UTC) \/ yr = year (datetime_date NOW_UTC) + 1) /\
    field_day_event yr = Some e /\ is_in_window e = true.
Proof.
  unfold add_field_day_fixed. cbn [field_day_loop].
  destruct (field_day_event (year (datetime_date NOW_UTC))) as [e1|] eqn:E1;
    [|discriminate].
  destruct (field_day_event (year (datetime_date NOW_UTC) + 1)) as [e2|] eqn:E2;
    [|discriminate].
  intros H Hin. injection H as <-.
  destruct (is_in_window e1) eqn:W1; destruct (is_in_window e2) eqn:W2;
    cbn [app In] in Hin;
    repeat match goal with
           | H : _ \/ _ |- _ => destruct H
           | H : False |- _ => destruct H
           end; subst;
    eexists; (split; [|split; eassumption]); auto.
Qed.

Lemma field_day_event_year (yr : Z) (e : Event) :
  field_day_event yr = Some e -> MINYEAR <= yr <= MAXYEAR.
Proof.
  unfold field_day_event, fourth_full_weekend_saturday_of_june.
  destruct (date_of yr 6 1) eqn:D; [|discriminate]. intros _.
  unfold date_of in D.
  destruct ((MINYEAR <=? yr) && (yr <=? MAXYEAR)) eqn:B;
    [|cbn [andb] in D; discriminate].
  apply andb_true_iff in B. destruct B as [B1 B2].
  apply Z.leb_le in B1. apply Z.leb_le in B2. lia.
Qed.

(** C6: for every year that [date] accepts, the rule returns the Saturday of
    June three weeks after the first Saturday of June; the Field Day event
    starts at that Saturday's midnight and ends two days later, at the
    midnight that begins the following Monday; the loop of
    [add_field_day_fixed] run on that year returns this event when it is in
    the window and nothing otherwise, and [add_field_day_fixed], when the
    year is the one of the clock or the next, returns the events of the two
    years that are in the window, in that order.  For 2024 the date is
    June 22.  Every event that [add_field_day_fixed] returns is in the
    window and is the event of the rule for the year of the clock or the
    next: it starts at the midnight of the Saturday three weeks after the
    first Saturday of June and ends two days later, at the midnight of the
    Monday. *)
Theorem field_day_rule (y : Z) :
  MINYEAR <= y <= MAXYEAR ->
  (exists f,
     1 <= f <= 7 /\
     weekday (mkdate y 6 f) = 5 /\
     (forall d, 1 <= d < f -> weekday (mkdate y 6 d) <> 5) /\
     fourth_full_weekend_saturday_of_june y = Some (mkdate y 6 (f + 21)) /\
     weekday (mkdate y 6 (f + 21)) = 5 /\
     toordinal (mkdate y 6 (f + 21)) = toordinal (mkdate y 6 f) + 21 /\
     exists e,
       field_day_event y = Some e /\
       start e = datetime_midnight (mkdate y 6 (f + 21)) /\
       end_ e = start e + timedelta_days 2 /\
       weekday (mkdate y 6 (f + 22)) = 6 /\
       datetime_midnight (mkdate y 6 (f + 22)) = start e + timedelta_days 1 /\
       weekday (mkdate y 6 (f + 23)) = 0 /\
       datetime_midnight (mkdate y 6 (f + 23)) = end_ e /\
       field_day_loop [y] [] = Some (if is_in_window e then [e] else []) /\
       (year (datetime_date NOW_UTC) = y -> y < MAXYEAR ->
        exists e2,
          field_day_event (y + 1) = Some e2 /\
          add_field_day_fixed =
            Some ((if is_in_window e then [e] else []) ++
                  (if is_in_window e2 then [e2] else []))) /\
       (year (datetime_date NOW_UTC) + 1 = y -> MINYEAR < y ->
        exists e1,
          field_day_event (y - 1) = Some e1 /\
          add_field_day_fixed =
            Some ((if is_in_window e1 then [e1] else []) ++
                  (if is_in_window e then [e] else [])))) /\
  fourth_full_weekend_saturday_of_june 2024 = Some (mkdate 2024 6 22) /\
  (forall events e,
     add_field_day_fixed = Some events -> In e events ->
     is_in_window e = true /\
     exists yr f,
       (yr = year (datetime_date NOW_UTC) \/ yr = year (datetime_date NOW_UTC) + 1) /\
       field_day_event yr = Some e /\
       1 <= f <= 7 /\
       weekday (mkdate yr 6 f) = 5 /\
       (forall d, 1 <= d < f -> weekday (mkdate yr 6 d) <> 5) /\
       fourth_full_weekend_saturday_of_june yr = Some (mkdate yr 6 (f + 21)) /\
       start e = datetime_midnight (mkdate yr 6 (f + 21)) /\
       end_ e = start e + timedelta_days 2 /\
       weekday (mkdate yr 6 (f + 23)) = 0 /\
       datetime_midnight (mkdate yr 6 (f + 23)) = end_ e).
Proof.
  intros Hy. split; [|split; [reflexivity|]].
  - destruct (field_day_year y Hy)
      as [f [Hf [Hw [Hfirst [Hsat [Hw5 [Hord [e [E [Hs [He [Hsun [Hsun' [Hmon Hmon']]]]]]]]]]]]]].
    exists f. do 6 (split; [assumption|]).
    exists e. do 7 (split; [assumption|]).
    split; [|split].
    + cbn [field_day_loop]. rewrite E.
      destruct (is_in_window e); reflexivity.
    + intros Hnow Hlast.
      destruct (field_day_year (y + 1)) as [_ [_ [_ [_ [_ [_ [_ [e2 [E2 _]]]]]]]]];
        [unfold MINYEAR, MAXYEAR in *; lia|].
      exists e2. split; [assumption|].
      unfold add_field_day_fixed. cbn [field_day_loop]. rewrite Hnow, E, E2.
      destruct (is_in_window e), (is_in_window e2); reflexivity.
    + intros Hnow Hfirst'.
      destruct (field_day_year (y - 1)) as [_ [_ [_ [_ [_ [_ [_ [e1 [E1 _]]]]]]]]];
        [unfold MINYEAR, MAXYEAR in *; lia|].
      exists e1. split; [assumption|].
      unfold add_field_day_fixed. cbn [field_day_loop].
      replace (year (datetime_date NOW_UTC)) with (y - 1) by lia.
      replace (y - 1 + 1) with y by lia. rewrite E, E1.
      destruct (is_in_window e1), (is_in_window e); reflexivity.
  - intros events e H Hin.
    destruct (add_field_day_fixed_events events e H Hin) as [yr [Hyr [Ey Ew]]].
    split; [exact Ew|].
    destruct (field_day_year yr (field_day_event_year yr e Ey))
      as [f [Hf [Hw [Hfirst [Hsat [_ [_ [e0 [E [Hs [He [_ [_ [Hmon Hmon']]]]]]]]]]]]]].
    assert (e0 = e) by congruence. subst e0.
    exists yr, f. repeat (split; [assumption|]). assumption.
Qed.

(** ** The calendar encoder *)

Lemma join_snoc (sep : str) (ls : list str) (l : str) :
  join sep (ls ++ [l]) =
  match ls with
  | [] => l
  | _ :: _ => join sep ls ++ sep ++ l
  end.
Proof.
  induction ls as [|a ls IH]; [reflexivity|].
  destruct ls as [|b ls]; [reflexivity|].
  change (join sep ((a :: b :: ls) ++ [l]))
    with (a ++ sep ++ join sep ((b :: ls) ++ [l])).
  rewrite IH. change (join sep (a :: b :: ls)) with (a ++ sep ++ join sep (b :: ls)).
  now rewrite <- !app_assoc.
Qed.

(** The last line that [build_ics] emits is the time-zone header when there
    is no event and the end of the last event otherwise. *)
Lemma build_ics_lines_last (calendar_name : str) (events : list Event) :
  exists ls l,
    header_lines calendar_name ++ flat_map vevent_lines (sorted_by_start events)
      = ls ++ [l] /\
    (l = lit "X-WR-TIMEZONE:UTC" \/ l = lit "END:VEVENT").
Proof.
  destruct (sorted_by_start events) as [|e es _] using rev_ind.
  - exists (removelast (header_lines calendar_name)), (lit "X-WR-TIMEZONE:UTC").
    split; [reflexivity | left; reflexivity].
  - rewrite flat_map_app. cbn [flat_map]. rewrite app_nil_r. unfold vevent_lines.
    eexists _, _. split; [|right; reflexivity].
    rewrite !app_assoc. reflexivity.
Qed.

Lemma build_ics_tail (calendar_name : str) (events : list Event) :
  exists body l,
    build_ics calendar_name events = body ++ l ++ CRLF /\
    (l = lit "X-WR-TIMEZONE:UTC" \/ l = lit "END:VEVENT").
Proof.
  destruct (build_ics_lines_last calendar_name events) as [ls [l [E Hl]]].
  unfold build_ics. rewrite E, join_snoc.
  destruct ls as [|a ls].
  - exists [], l. split; [reflexivity | assumption].
  - exists (join CRLF (a :: ls) ++ CRLF), l. split; [|assumption].
    now rewrite <- !app_assoc.
Qed.

Lemma endswith_app (suffix body tail : str) :
  (length suffix <= length tail)%nat ->
  endswith suffix (body ++ tail) = endswith suffix tail.
Proof.
  unfold endswith. rewrite rev_app_distr. intros H.
  rewrite <- (length_rev suffix), <- (length_rev tail) in H.
  generalize dependent (rev tail). generalize (rev body). clear.
  induction (rev suffix) as [|x p IH]; intros b t H; [reflexivity|].
  destruct t as [|y t]; simpl in H; [lia|].
  simpl. rewrite IH by lia. reflexivity.
Qed.

(** C3 (as the code behaves): whatever the calendar name and the events, the
    text that [build_ics] returns does not end with the footer line
    END:VCALENDAR, with or without a line terminator after it: its last line
    is X-WR-TIMEZONE:UTC or END:VEVENT, followed by CRLF. *)
Theorem build_ics_no_footer (calendar_name : str) (events : list Event) :
  endswith (lit "END:VCALENDAR" ++ CRLF) (build_ics calendar_name events) = false /\
  endswith (lit "END:VCALENDAR") (build_ics calendar_name events) = false /\
  endswith CRLF (build_ics calendar_name events) = true /\
  build_ics calendar_name [] =
    lit "BEGIN:VCALENDAR" ++ CRLF ++ lit "VERSION:2.0" ++ CRLF ++
    lit "PRODID:-//HAMCAL//hamcal//EN" ++ CRLF ++ lit "CALSCALE:GREGORIAN" ++ CRLF ++
    lit "X-WR-CALNAME:" ++ ics_escape calendar_name ++ CRLF ++
    lit "X-WR-TIMEZONE:UTC" ++ CRLF.
Proof.
  destruct (build_ics_tail calendar_name events) as [body [l [E Hl]]].
  rewrite E. repeat split.
  - unfold endswith. rewrite !rev_app_distr. destruct Hl; subst l; reflexivity.
  - unfold endswith. rewrite !rev_app_distr. destruct Hl; subst l; reflexivity.
  - rewrite app_assoc, endswith_app by (apply Nat.leb_le; reflexivity). reflexivity.
  - unfold build_ics. simpl. now rewrite <- !app_assoc.
Qed.

(** ** Markup stripping *)

(** C8 (as the code behaves): the text inside a script or a style element
    is kept, only the tags around it are removed, and a line-break tag is
    removed without a newline taking its place; a paragraph end does give a
    newline. *)
Theorem strip_html_keeps_script :
  strip_html (lit "<script>alert(1)</script>") = html_unescape (lit "alert(1)") /\
  strip_html (lit "<STYLE type=x>p{}</STYLE>") = html_unescape (lit "p{}") /\
  strip_html (lit "a<br>b<br/>c") = html_unescape (lit "abc") /\
  strip_html (lit "<p>a</p>b") = html_unescape (lit "a" ++ [LF] ++ lit "b").
Proof. repeat split. Qed.

(** ** The classifier *)

Lemma startswith_iff (p s : str) :
  startswith p s = true <-> exists b, s = p ++ b.
Proof.
  revert s. induction p as [|x p IH]; intros s; simpl.
  - split; [exists s; reflexivity | reflexivity].
  - destruct s as [|y s].
    + split; [discriminate | intros [b H]; discriminate].
    + unfold char_eqb. rewrite andb_true_iff, N.eqb_eq, IH. split.
      * intros [-> [b ->]]. exists b. reflexivity.
      * intros [b H]. injection H as -> ->. split; [reflexivity | exists b; reflexivity].
Qed.

Lemma contains_iff (k s : str) :
  contains k s = true <-> exists a b, s = a ++ k ++ b.
Proof.
  induction s as [|c s IH].
  - simpl. rewrite orb_false_r, startswith_iff. split.
    + intros [b H]. exists [], b. assumption.
    + intros [a [b H]]. destruct a; [exists b; assumption | discriminate].
  - cbn [contains]. rewrite orb_true_iff, startswith_iff, IH. split.
    + intros [[b H] | [a [b H]]].
      * exists [], b. assumption.
      * exists (c :: a), b. simpl. now rewrite H.
    + intros [a [b H]]. destruct a as [|c' a].
      * left. exists b. assumption.
      * right. simpl in H. injection H as _ H. exists a, b. assumption.
Qed.

Lemma contains_app (k x s y : str) :
  contains k s = true -> contains k (x ++ s ++ y) = true.
Proof.
  rewrite !contains_iff. intros [a [b ->]].
  exists (x ++ a), (b ++ y). now rewrite <- !app_assoc.
Qed.

(** A keyword without the character [c] that occurs in [s1 ++ c :: s2]
    occurs in [s1] or in [s2]. *)
Lemma contains_split (k s1 s2 : str) (c : char) :
  ~ In c k ->
  contains k (s1 ++ c :: s2) = true ->
  contains k s1 = true \/ contains k s2 = true.
Proof.
  intros Hc. rewrite !contains_iff. intros [a [b H]].
  apply app_eq_app in H. destruct H as [l [[Hs Hl] | [Ha Hl]]].
  - (* the occurrence starts before [c] *)
    apply app_eq_app in Hl. destruct Hl as [l2 [[Hk Hl2] | [Hl' Hb]]].
    + destruct l2 as [|c' l2].
      * rewrite app_nil_r in Hk. subst. left. exists a, []. now rewrite app_nil_r.
      * injection Hl2 as <- _. elim Hc. subst k. apply in_or_app. right. left. reflexivity.
    + subst. left. exists a, l2. reflexivity.
  - (* the occurrence starts at or after [c] *)
    destruct l as [|c' l].
    + simpl in Hl. destruct k as [|x k].
      * left. exists s1, []. now rewrite app_nil_r.
      * injection Hl as -> _. elim Hc. left. reflexivity.
    + injection Hl as _ Hl. right. exists l, b. assumption.
Qed.

Lemma upper_app (a b : str) : upper (a ++ b) = upper a ++ upper b.
Proof. unfold upper. apply flat_map_app. Qed.

Lemma contains_upper (w s : str) :
  contains w s = true -> contains (upper w) (upper s) = true.
Proof.
  rewrite !contains_iff. intros [a [b ->]].
  exists (upper a), (upper b). now rewrite !upper_app.
Qed.

Lemma mem_In (c : str) (cs : list str) : mem c cs = true <-> In c cs.
Proof.
  unfold mem. rewrite existsb_exists. split.
  - intros [x [Hx E]]. apply str_eqb_eq in E. now subst.
  - intros H. exists c. split; [assumption | apply str_eqb_refl].
Qed.

Lemma add_category_In (e : Event) (c l : str) :
  In l (categories (add_category e c)) <-> In l (categories e) \/ l = c.
Proof.
  drop_unused.
  unfold add_category. destruct (mem c (categories e)) eqn:E.
  - apply mem_In in E. split; [auto | intros [H | ->]; assumption].
  - simpl. rewrite in_app_iff. simpl. intuition congruence.
Qed.

Lemma blob_add_category (e : Event) (c : str) : blob (add_category e c) = blob e.
Proof. unfold add_category. destruct (mem c (categories e)); reflexivity. Qed.

Lemma tag_modes_In (e : Event) (l : str) :
  In l (categories (tag_modes e)) <->
  In l (categories e) \/
  (l = lit "cw" /\ any_in CW_KEYWORDS (blob e) = true) \/
  (l = lit "phone" /\ any_in PHONE_KEYWORDS (blob e) = true) \/
  (l = lit "digital" /\ any_in DIGITAL_KEYWORDS (blob e) = true).
Proof.
  drop_unused.
  unfold tag_modes.
  destruct (any_in CW_KEYWORDS (blob e));
    destruct (any_in PHONE_KEYWORDS (blob e));
    destruct (any_in DIGITAL_KEYWORDS (blob e));
    rewrite ?add_category_In; intuition congruence.
Qed.

Lemma blob_tag_modes (e : Event) : blob (tag_modes e) = blob e.
Proof.
  unfold tag_modes.
  destruct (any_in CW_KEYWORDS (blob e));
    destruct (any_in PHONE_KEYWORDS (blob e));
    destruct (any_in DIGITAL_KEYWORDS (blob e));
    rewrite ?blob_add_category; reflexivity.
Qed.

Lemma tag_field_day_In (e : Event) (l : str) :
  In l (categories (tag_field_day e)) <->
  In l (categories e) \/
  (l = lit "field-day" /\ any_in FIELD_DAY_KEYWORDS (blob e) = true).
Proof.
  drop_unused.
  unfold tag_field_day. destruct (any_in FIELD_DAY_KEYWORDS (blob e));
    rewrite ?add_category_In; intuition congruence.
Qed.

(** The labels of the classifier, by keyword set. *)
Lemma classifier_In (e : Event) (l : str) :
  In l (categories (tag_field_day (tag_modes e))) <->
  In l (categories e) \/
  exists ks, In (ks, l) keyword_table /\ any_in ks (blob e) = true.
Proof.
  rewrite tag_field_day_In, tag_modes_In, blob_tag_modes. unfold keyword_table. split.
  - intros [[H | [[-> H] | [[-> H] | [-> H]]]] | [-> H]]; [left; assumption | right ..].
    + exists CW_KEYWORDS. simpl. auto.
    + exists PHONE_KEYWORDS. simpl. auto.
    + exists DIGITAL_KEYWORDS. simpl. auto.
    + exists FIELD_DAY_KEYWORDS. simpl. auto 6.
  - intros [H | [ks [Hin H]]]; [auto|].
    simpl in Hin.
    destruct Hin as [E | [E | [E | [E | []]]]]; injection E as <- <-; auto 8.
Qed.

Lemma any_in_iff (ks : list str) (b : str) :
  any_in ks b = true <-> exists k, In k ks /\ contains k b = true.
Proof. unfold any_in. apply existsb_exists. Qed.

Lemma blob_eq (e : Event) :
  blob e = upper (title e) ++ 32%N :: upper (or_empty (description e)).
Proof. unfold blob. now rewrite !upper_app. Qed.

Lemma classify_In (t : str) (d : option str) (l : str) :
  In l (classify t d) <->
  exists ks k,
    In (ks, l) keyword_table /\ In k ks /\
    contains k (upper t ++ 32%N :: upper (or_empty d)) = true.
Proof.
  unfold classify. rewrite classifier_In, blob_eq. cbn [categories title description].
  split.
  - intros [[] | [ks [Hin H]]]. apply any_in_iff in H. destruct H as [k [Hk H]].
    exists ks, k. auto.
  - intros [ks [k [Hin [Hk H]]]]. right. exists ks. split; [assumption|].
    apply any_in_iff. exists k. auto.
Qed.

(** The keywords of the three modes contain no space. *)
Lemma mode_keyword_no_space (ks : list str) (l k : str) :
  In (ks, l) keyword_table -> In l mode_labels -> In k ks -> ~ In 32%N k.
Proof.
  intros Ht Hl Hk.
  assert (Hb : existsb (N.eqb 32) k = false).
  { simpl in Ht. destruct Ht as [E | [E | [E | [E | []]]]]; injection E as <- <-.
    - simpl in Hk. destruct Hk as [<- | []]. reflexivity.
    - simpl in Hk. repeat (destruct Hk as [<- | Hk]; [reflexivity|]). destruct Hk.
    - simpl in Hk. repeat (destruct Hk as [<- | Hk]; [reflexivity|]). destruct Hk.
    - exfalso. simpl in Hl. destruct Hl as [E | [E | [E | []]]]; discriminate E. }
  intros Hin. apply not_true_iff_false in Hb. apply Hb.
  apply existsb_exists. exists 32%N. split; [assumption | reflexivity].
Qed.

(** C5 (amended): the labels that the classifier adds are a function of the
    title and the description; a keyword is found in any letter case; a mode
    label is kept when text is added on either side of the title or of the
    description; the field-day label is kept when text is added in front of
    the title or after the description, and wherever text is added when
    FIELD DAY occurs inside the upper-cased title or inside the upper-cased
    description. *)
Theorem classifier_spec :
  (forall e l,
     In l (categories (tag_field_day (tag_modes e))) <->
     In l (categories e) \/ In l (classify (title e) (description e))) /\
  (forall ks label k w t d,
     In (ks, label) keyword_table -> In k ks -> upper w = k ->
     contains w t = true \/ contains w (or_empty d) = true ->
     In label (classify t d)) /\
  (In (lit "cw") (classify (lit "cw") None) /\
   In (lit "cw") (classify (lit "CW") None)) /\
  (forall t d a x c y l,
     In l mode_labels -> In l (classify t d) ->
     In l (classify (a ++ t ++ x) (Some (c ++ or_empty d ++ y)))) /\
  (forall t d a y,
     In (lit "field-day") (classify t d) ->
     In (lit "field-day") (classify (a ++ t) (Some (or_empty d ++ y)))) /\
  (forall t d a x c y,
     contains (lit "FIELD DAY") (upper t) = true \/
     contains (lit "FIELD DAY") (upper (or_empty d)) = true ->
     In (lit "field-day") (classify (a ++ t ++ x) (Some (c ++ or_empty d ++ y)))).
Proof.
  drop_unused.
  split; [|split; [|split; [|split; [|split]]]].
  - intros e l. rewrite classifier_In. unfold classify.
    rewrite classifier_In, !blob_eq. cbn [categories title description In].
    tauto.
  - intros ks label k w t d Ht Hk Hw Hc. apply classify_In.
    exists ks, k. repeat split; try assumption. subst k.
    apply contains_iff.
    destruct Hc as [Hc | Hc]; apply contains_upper, contains_iff in Hc;
      destruct Hc as [a [b ->]].
    + exists a, (b ++ 32%N :: upper (or_empty d)). now rewrite <- !app_assoc.
    + exists (upper t ++ 32%N :: a), b. now rewrite <- !app_assoc.
  - split; apply classify_In; exists CW_KEYWORDS, (lit "CW");
      (split; [left; reflexivity | split; [left; reflexivity | reflexivity]]).
  - intros t d a x c y l Hl Hin. apply classify_In in Hin.
    destruct Hin as [ks [k [Ht [Hk Hc]]]].
    apply classify_In. exists ks, k. repeat split; try assumption.
    cbn [or_empty]. rewrite !upper_app.
    apply contains_split in Hc; [|eapply mode_keyword_no_space; eassumption].
    apply contains_iff.
    destruct Hc as [Hc | Hc]; apply contains_iff in Hc; destruct Hc as [p [q ->]].
    + exists (upper a ++ p),
        (q ++ upper x ++ 32%N :: upper c ++ upper (or_empty d) ++ upper y).
      now rewrite <- !app_assoc.
    + exists (upper a ++ upper t ++ upper x ++ 32%N :: upper c ++ p), (q ++ upper y).
      rewrite <- !app_assoc. simpl. now rewrite <- !app_assoc.
  - intros t d a y Hin. apply classify_In in Hin.
    destruct Hin as [ks [k [Ht [Hk Hc]]]].
    apply classify_In. exists ks, k. repeat split; try assumption.
    cbn [or_empty]. rewrite !upper_app.
    apply contains_iff in Hc. destruct Hc as [p [q E]].
    apply contains_iff. exists (upper a ++ p), (q ++ upper y).
    rewrite <- !app_assoc.
    change (32%N :: upper (or_empty d) ++ upper y)
      with ((32%N :: upper (or_empty d)) ++ upper y).
    rewrite (app_assoc (upper t)), E, <- !app_assoc. reflexivity.
  - intros t d a x c y Hc. apply classify_In.
    exists FIELD_DAY_KEYWORDS, (lit "FIELD DAY").
    split; [do 3 right; left; reflexivity|]. split; [left; reflexivity|].
    cbn [or_empty]. rewrite !upper_app. apply contains_iff.
    destruct Hc as [Hc | Hc]; apply contains_iff in Hc; destruct Hc as [p [q ->]].
    + exists (upper a ++ p),
        (q ++ upper x ++ 32%N :: upper c ++ upper (or_empty d) ++ upper y).
      now rewrite <- !app_assoc.
    + exists (upper a ++ upper t ++ upper x ++ 32%N :: upper c ++ p), (q ++ upper y).
      rewrite <- !app_assoc. simpl. now rewrite <- !app_assoc.
Qed.

(** ** The feed parser *)

Lemma add_category_fields (e : Event) (c : str) :
  title (add_category e c) = title e /\
  start (add_category e c) = start e /\
  end_ (add_category e c) = end_ e.
Proof. unfold add_category. destruct (mem c (categories e)); repeat split. Qed.

Lemma tag_modes_fields (e : Event) :
  title (tag_modes e) = title e /\
  start (tag_modes e) = start e /\
  end_ (tag_modes e) = end_ e.
Proof.
  unfold tag_modes.
  destruct (any_in CW_KEYWORDS (blob e));
    destruct (any_in PHONE_KEYWORDS (blob e));
    destruct (any_in DIGITAL_KEYWORDS (blob e));
    repeat match goal with
           | |- context [add_category ?x ?c] =>
               destruct (add_category_fields x c) as [-> [-> ->]]
           end; repeat split.
Qed.

Lemma tag_field_day_fields (e : Event) :
  title (tag_field_day e) = title e /\
  start (tag_field_day e) = start e /\
  end_ (tag_field_day e) = end_ e.
Proof.
  unfold tag_field_day.
  destruct (any_in _ _); [apply add_category_fields | repeat split].
Qed.

Lemma ingest_tags_fields (e : Event) (c : str) :
  title (tag_field_day (tag_modes (add_category e c))) = title e /\
  start (tag_field_day (tag_modes (add_category e c))) = start e /\
  end_ (tag_field_day (tag_modes (add_category e c))) = end_ e.
Proof.
  destruct (tag_field_day_fields (tag_modes (add_category e c))) as [-> [-> ->]].
  destruct (tag_modes_fields (add_category e c)) as [-> [-> ->]].
  apply add_category_fields.
Qed.

(** A match of a pattern that begins with a literal starts with it. *)
Lemma rmatch_Str_prefix {A : Type} (name : str) (k : @cont A)
    (cap : option str) (prev : option char) (s : str) (x : A) :
  rmatch (Str name) k cap prev s = Some x -> startswith name s = true.
Proof.
  revert cap prev s. induction name as [|c name IH]; intros cap prev s H.
  - reflexivity.
  - destruct s as [|y s]; simpl in H; [discriminate|].
    simpl. destruct (char_eqb c y); [|discriminate].
    simpl. apply (IH cap (Some y) s). exact H.
Qed.

Lemma field_re_match_prefix (name : str) (prev : option char) (s : str)
    (m : option str * str) :
  match_here (field_re name) prev s = Some m -> startswith name s = true.
Proof.
  unfold match_here, field_re.
  change (rmatch (Seq Bol (Seq (Str name) field_tail_re)) ?k None prev s)
    with (if at_bol prev then rmatch (Str name) (rmatch field_tail_re k) None prev s
          else None).
  destruct (at_bol prev); [|discriminate].
  apply rmatch_Str_prefix.
Qed.

Lemma field_re_search_contains (name : str) (prev : option char) (s : str)
    (m : option str * str) :
  re_search_from (field_re name) prev s = Some m -> contains name s = true.
Proof.
  revert prev. induction s as [|c s IH]; intros prev H; simpl in H.
  - destruct (match_here (field_re name) prev []) eqn:E; [|discriminate].
    apply field_re_match_prefix in E. simpl. now rewrite E.
  - destruct (match_here (field_re name) prev (c :: s)) eqn:E.
    + apply field_re_match_prefix in E. cbn [contains]. now rewrite E.
    + apply IH in H. cbn [contains]. rewrite H. apply orb_true_r.
Qed.

(** A field whose name does not occur in the unfolded block is reported as
    missing. *)
Lemma extract_ics_field_absent (vevent name : str) :
  contains name (unfold_ics vevent) = false ->
  extract_ics_field vevent name = None.
Proof.
  intros H. unfold extract_ics_field, re_search.
  destruct (re_search_from _ _ _) as [m|] eqn:E; [|reflexivity].
  apply field_re_search_contains in E. congruence.
Qed.

(** ** Escaping and unescaping *)

Lemma replace_single (x : char) (new s : str) :
  replace [x] new s = flat_map (fun c => if char_eqb x c then new else [c]) s.
Proof.
  unfold replace. induction s as [|c s IH]; [reflexivity|].
  cbn [replace_from startswith flat_map length Nat.pred].
  rewrite andb_true_r. destruct (char_eqb x c); rewrite IH; reflexivity.
Qed.

Lemma flat_map_flat_map {A B C : Type} (f : A -> list B) (g : B -> list C) (l : list A) :
  flat_map g (flat_map f l) = flat_map (fun a => flat_map g (f a)) l.
Proof.
  induction l as [|a l IH]; [reflexivity|].
  simpl. now rewrite flat_map_app, IH.
Qed.

Lemma ics_escape_flat_map (s : str) : ics_escape s = flat_map esc_char s.
Proof.
  unfold ics_escape, BACKSLASH.
  change (lit "\") with [92%N]. change (lit ";") with [59%N]. change (lit ",") with [44%N].
  rewrite !replace_single, !flat_map_flat_map.
  apply flat_map_ext. intros c. unfold esc_char, LF.
  destruct (char_eqb 92%N c) eqn:E92;
    [apply N.eqb_eq in E92; subst c; reflexivity | cbn [flat_map app]].
  destruct (char_eqb 10%N c) eqn:E10;
    [apply N.eqb_eq in E10; subst c; reflexivity | cbn [flat_map app]].
  destruct (char_eqb 44%N c) eqn:E44;
    [apply N.eqb_eq in E44; subst c; reflexivity | cbn [flat_map app]].
  destruct (char_eqb 59%N c) eqn:E59;
    [apply N.eqb_eq in E59; subst c; reflexivity | reflexivity].
Qed.


Ltac char_case k c :=
  let E := fresh "E" in
  destruct (char_eqb k c) eqn:E;
  [apply N.eqb_eq in E; subst c | idtac].






(** ** Stripping *)

Lemma lstrip_length (s : str) : (length (lstrip s) <= length s)%nat.
Proof.
  induction s as [|c s IH]; simpl; [lia|].
  destruct (is_space c); simpl; lia.
Qed.

Lemma lstrip_fixed (s : str) : lstrip s = s <-> head_space s = false.
Proof.
  destruct s as [|c s]; simpl; [tauto|].
  destruct (is_space c) eqn:E; split; try congruence.
  intros H. pose proof (lstrip_length s) as L. rewrite H in L. simpl in L. lia.
Qed.

Lemma rstrip_fixed (s : str) : rstrip s = s <-> head_space (rev s) = false.
Proof.
  unfold rstrip. rewrite <- lstrip_fixed. split; intros H.
  - rewrite <- H at 2. now rewrite rev_involutive.
  - rewrite H. apply rev_involutive.
Qed.

Lemma rstrip_length (s : str) : (length (rstrip s) <= length s)%nat.
Proof.
  unfold rstrip. rewrite length_rev, <- (length_rev s). apply lstrip_length.
Qed.

Lemma strip_fixed (s : str) :
  strip s = s <-> head_space s = false /\ head_space (rev s) = false.
Proof.
  rewrite <- lstrip_fixed, <- rstrip_fixed. unfold strip. split.
  - intros H.
    assert (L : lstrip s = s).
    { apply lstrip_fixed. destruct s as [|c s]; [reflexivity|]. simpl.
      destruct (is_space c) eqn:E; [|reflexivity]. exfalso.
      pose proof (rstrip_length (lstrip (c :: s))) as L1.
      pose proof (lstrip_length s) as L2.
      rewrite H in L1. simpl in L1. rewrite E in L1. simpl in L1. lia. }
    split; [assumption|]. now rewrite L in H.
  - intros [-> ->]. reflexivity.
Qed.

Lemma lstrip_app (x y : str) :
  lstrip (x ++ y) = match lstrip x with [] => lstrip y | _ :: _ => lstrip x ++ y end.
Proof.
  induction x as [|c x IH]; simpl.
  - destruct (lstrip y); reflexivity.
  - destruct (is_space c); [assumption | reflexivity].
Qed.

(** A carriage return at the end does not survive stripping. *)
Lemma strip_cr (x : str) : strip (x ++ [CR]) = strip x.
Proof.
  unfold strip. rewrite lstrip_app.
  destruct (lstrip x) as [|c l] eqn:E; [reflexivity|].
  unfold rstrip. rewrite rev_app_distr. reflexivity.
Qed.



Lemma nolf_app (a b : str) : nolf (a ++ b) = nolf a && nolf b.
Proof. apply forallb_app. Qed.

(** Escaped text has no line feed. *)
Lemma nolf_ics_escape (s : str) : nolf (ics_escape s) = true.
Proof.
  rewrite ics_escape_flat_map.
  induction s as [|c s IH]; [reflexivity|].
  cbn [flat_map]. rewrite nolf_app, IH, andb_true_r. unfold esc_char.
  char_case 92%N c; [reflexivity|].
  destruct (char_eqb 10%N c) eqn:E10; [reflexivity|].
  char_case 44%N c; [reflexivity|].
  char_case 59%N c; [reflexivity|].
  unfold nolf, not_newline, LF, char_eqb. cbn [forallb].
  unfold char_eqb in E10. rewrite N.eqb_sym, E10. reflexivity.
Qed.


(** ** Unfolding *)

Lemma char_eqb_sym (a b : char) : char_eqb a b = char_eqb b a.
Proof. apply N.eqb_sym. Qed.

(** Where no line feed is followed by a space or a tab, the pattern of
    [unfold_ics] does not match. *)
Lemma unfold_ics_re_no_match (prev : option char) (s : str) :
  no_fold s = true -> match_here unfold_ics_re prev s = None.
Proof.
  destruct s as [|c s]; [reflexivity|].
  intros H. cbn [no_fold] in H.
  apply andb_true_iff in H. destruct H as [Hc Hs].
  unfold match_here, unfold_ics_re. cbn [rmatch].
  assert (Hlf : (if char_eqb LF c
                 then match s with
                      | [] => None
                      | c0 :: s' =>
                          if char_eqb c0 32%N || char_eqb c0 TAB
                          then Some (@None (list N), s') else None
                      end
                 else None) = None).
  { rewrite char_eqb_sym. destruct (char_eqb c LF); [|reflexivity].
    destruct s as [|d s]; [reflexivity|].
    cbn [andb head_space_or_tab negb] in Hc. unfold space_or_tab in Hc.
    destruct (char_eqb d 32%N || char_eqb d TAB); [discriminate | reflexivity]. }
  destruct (char_eqb CR c); [|exact Hlf].
  destruct s as [|d s]; [exact Hlf|].
  cbn [no_fold] in Hs. apply andb_true_iff in Hs. destruct Hs as [Hd _].
  rewrite (char_eqb_sym LF d).
  destruct (char_eqb d LF); [|exact Hlf].
  destruct s as [|x s]; [exact Hlf|].
  cbn [andb head_space_or_tab negb] in Hd. unfold space_or_tab in Hd.
  destruct (char_eqb x 32%N || char_eqb x TAB); [discriminate | exact Hlf].
Qed.

Lemma no_fold_tail (c : char) (s : str) : no_fold (c :: s) = true -> no_fold s = true.
Proof. cbn [no_fold]. intros H. now apply andb_true_iff in H. Qed.

Lemma unfold_ics_id (s : str) : no_fold s = true -> unfold_ics s = s.
Proof.
  unfold unfold_ics, re_sub. generalize (@None N).
  induction s as [|c s IH]; intros prev H.
  - reflexivity.
  - cbn [re_sub_from]. rewrite unfold_ics_re_no_match by assumption.
    rewrite IH by (eapply no_fold_tail; eassumption). reflexivity.
Qed.

Lemma no_fold_line (l rest : str) :
  nolf l = true -> head_space_or_tab rest = false -> no_fold rest = true ->
  no_fold (l ++ CRLF ++ rest) = true.
Proof.
  intros Hl Hh Hr. induction l as [|c l IH].
  - cbn [app CRLF no_fold head_space_or_tab]. rewrite Hh, Hr. reflexivity.
  - cbn [nolf forallb] in Hl. apply andb_true_iff in Hl. destruct Hl as [Hc Hl].
    cbn [app no_fold]. rewrite (IH Hl), andb_true_r.
    unfold not_newline in Hc. apply negb_true_iff in Hc. now rewrite Hc.
Qed.

Lemma head_space_or_tab_line (l rest : str) :
  head_space_or_tab l = false -> head_space_or_tab (l ++ CRLF ++ rest) = false.
Proof. destruct l; [reflexivity | trivial]. Qed.

Lemma no_fold_lines (ls : list str) :
  forallb line_ok ls = true ->
  no_fold (lines_text ls) = true /\ head_space_or_tab (lines_text ls) = false.
Proof.
  induction ls as [|l ls IH]; intros H; [split; reflexivity|].
  cbn [forallb] in H. apply andb_true_iff in H. destruct H as [Hl Hls].
  unfold line_ok in Hl. apply andb_true_iff in Hl. destruct Hl as [Hn Hh].
  apply negb_true_iff in Hh. destruct (IH Hls) as [IH1 IH2].
  cbn [lines_text flat_map]. fold (lines_text ls). rewrite <- app_assoc. split.
  - now apply no_fold_line.
  - now apply head_space_or_tab_line.
Qed.


(** ** Searching a field in a text made of lines *)

Lemma field_re_here (name : str) (prev : option char) (s : str) :
  match_here (field_re name) prev s =
  if at_bol prev
  then rmatch (Str name) (rmatch field_tail_re (fun cap _ rest => Some (cap, rest)))
         None prev s
  else None.
Proof. reflexivity. Qed.

Lemma rmatch_Str_app {A : Type} (name : str) (k : @cont A)
    (cap : option str) (prev : option char) (s : str) :
  rmatch (Str name) k cap prev (name ++ s)
    = k cap (fold_left (fun _ c => Some c) name prev) s.
Proof.
  revert prev. induction name as [|c name IH]; intros prev; [reflexivity|].
  cbn [Str rmatch app fold_left]. unfold char_eqb at 1. rewrite N.eqb_refl.
  apply IH.
Qed.

(** A greedy run over characters of the class goes on to the end of the run
    when the rest of the pattern matches there. *)
Lemma star_greedy_run {A : Type} (p : char -> bool) (k : @cont A)
    (cap : option str) (w s : str) (r : A) :
  forallb p w = true ->
  (forall prev, star_greedy p k cap prev s = Some r) ->
  forall prev, star_greedy p k cap prev (w ++ s) = Some r.
Proof.
  intros Hw Hs. induction w as [|c w IH]; intros prev; [apply Hs|].
  cbn [forallb] in Hw. apply andb_true_iff in Hw. destruct Hw as [Hc Hw].
  cbn [app star_greedy]. rewrite Hc, (IH Hw). reflexivity.
Qed.

Lemma firstn_length_diff {A : Type} (a b : list A) :
  firstn (length (a ++ b) - length b) (a ++ b) = a.
Proof.
  rewrite length_app, Nat.add_sub. rewrite firstn_app, Nat.sub_diag, firstn_all.
  simpl. apply app_nil_r.
Qed.

(** After the field name: a colon, the value up to the end of the line, and
    the carriage return that ends the line is part of the captured text. *)
Lemma field_tail_match (payload rest : str) (prev : option char) :
  nolf payload = true ->
  rmatch field_tail_re (fun cap _ rest => Some (cap, rest)) None prev
    (58%N :: payload ++ CR :: LF :: rest)
  = Some (Some (payload ++ [CR]), LF :: rest).
Proof.
  intros Hp. unfold field_tail_re. cbn [rmatch char_eqb N.eqb Pos.eqb].
  change (payload ++ CR :: LF :: rest) with (payload ++ [CR] ++ LF :: rest).
  rewrite app_assoc.
  apply star_greedy_run.
  - unfold nolf in Hp. rewrite forallb_app, Hp. reflexivity.
  - intros prev'. cbn [star_greedy not_newline char_eqb LF N.eqb Pos.eqb negb at_eol].
    now rewrite firstn_length_diff.
Qed.

Lemma re_search_from_here (r : regex) (prev : option char) (s : str)
    (m : option str * str) :
  match_here r prev s = Some m -> re_search_from r prev s = Some m.
Proof. intros H. destruct s; cbn [re_search_from]; now rewrite H. Qed.

Lemma re_search_from_next (r : regex) (prev : option char) (c : char) (s : str) :
  match_here r prev (c :: s) = None ->
  re_search_from r prev (c :: s) = re_search_from r (Some c) s.
Proof. intros H. cbn [re_search_from]. now rewrite H. Qed.

Lemma field_re_no_prefix (name : str) (prev : option char) (s : str) :
  startswith name s = false -> match_here (field_re name) prev s = None.
Proof.
  intros H. destruct (match_here (field_re name) prev s) eqn:E; [|reflexivity].
  apply field_re_match_prefix in E. congruence.
Qed.

(** Inside a line the pattern cannot match: it is anchored at a line start. *)
Lemma search_rest_of_line (name l rest : str) (prev : option char) :
  at_bol prev = false -> nolf l = true ->
  re_search_from (field_re name) prev (l ++ LF :: rest)
    = re_search_from (field_re name) (Some LF) rest.
Proof.
  revert prev. induction l as [|c l IH]; intros prev Hb Hl.
  - cbn [app]. apply re_search_from_next. now rewrite field_re_here, Hb.
  - cbn [nolf forallb] in Hl. apply andb_true_iff in Hl. destruct Hl as [Hc Hl].
    cbn [app]. rewrite re_search_from_next by now rewrite field_re_here, Hb.
    apply IH; [|assumption].
    unfold not_newline in Hc. apply negb_true_iff in Hc. exact Hc.
Qed.

(** A line that does not begin with the field name is passed over. *)
Lemma search_skip_line (name l rest : str) (prev : option char) :
  skipped name l ->
  re_search_from (field_re name) prev (l ++ CRLF ++ rest)
    = re_search_from (field_re name) (Some LF) rest.
Proof.
  intros [Hl Hn].
  assert (Hm : match_here (field_re name) prev (l ++ CRLF ++ rest) = None)
    by (apply field_re_no_prefix, Hn).
  destruct l as [|c l].
  - cbn [app CRLF] in *. rewrite re_search_from_next by assumption.
    apply (search_rest_of_line name [] rest); reflexivity.
  - cbn [app] in *. rewrite re_search_from_next by assumption.
    cbn [nolf forallb] in Hl. apply andb_true_iff in Hl. destruct Hl as [Hc Hl].
    change (l ++ CRLF ++ rest) with (l ++ [CR] ++ LF :: rest).
    rewrite app_assoc. apply search_rest_of_line.
    + unfold not_newline in Hc. apply negb_true_iff in Hc. exact Hc.
    + unfold nolf in *. rewrite forallb_app, Hl. reflexivity.
Qed.





(** ** The lines of the calendar *)

Lemma mismatch_startswith (name p t : str) :
  mismatch name p = true -> startswith name (p ++ t) = false.
Proof.
  revert p. induction name as [|x name IH]; intros p H; [discriminate|].
  destruct p as [|y p]; [discriminate|].
  cbn [mismatch] in H. cbn [app startswith].
  destruct (char_eqb x y); [|reflexivity]. now rewrite IH.
Qed.

Lemma skipped_line (name p payload : str) :
  mismatch name p = true -> nolf p = true -> nolf payload = true ->
  skipped name (p ++ payload).
Proof.
  intros Hm Hp Hq. split.
  - now rewrite nolf_app, Hp, Hq.
  - intros t. rewrite <- app_assoc. now apply mismatch_startswith.
Qed.

Lemma skipped_lit (name p : str) :
  mismatch name p = true -> nolf p = true -> skipped name p.
Proof.
  intros Hm Hp. rewrite <- (app_nil_r p). now apply skipped_line.
Qed.







Lemma nolf_firstn (n : nat) (s : str) : nolf s = true -> nolf (firstn n s) = true.
Proof.
  revert n. induction s as [|c s IH]; intros [|n] H; try reflexivity.
  cbn [nolf forallb] in H. apply andb_true_iff in H. destruct H as [Hc Hs].
  cbn [firstn nolf forallb]. rewrite Hc. now apply IH.
Qed.














(** ** Patterns that need a backslash in the text *)

Lemma suffix_of_refl (s : str) : suffix_of s s.
Proof. exists []. reflexivity. Qed.

Lemma suffix_of_cons (c : char) (t s : str) : suffix_of t s -> suffix_of t (c :: s).
Proof. intros [a ->]. exists (c :: a). reflexivity. Qed.

Lemma suffix_of_trans (u t s : str) : suffix_of u t -> suffix_of t s -> suffix_of u s.
Proof. intros [a ->] [b ->]. exists (b ++ a). now rewrite app_assoc. Qed.

Lemma star_greedy_reach {A : Type} (p : char -> bool) (k : @cont A)
    (cap : option str) (prev : option char) (s : str) (x : A) :
  star_greedy p k cap prev s = Some x ->
  exists cap' prev' s', suffix_of s' s /\ k cap' prev' s' = Some x.
Proof.
  revert prev. induction s as [|c s IH]; intros prev H; cbn [star_greedy] in H.
  - exists cap, prev, []. split; [apply suffix_of_refl | assumption].
  - destruct (p c).
    + destruct (star_greedy p k cap (Some c) s) as [y|] eqn:E.
      * injection H as <-. destruct (IH _ E) as [cap' [prev' [s' [Hs Hk]]]].
        exists cap', prev', s'. split; [now apply suffix_of_cons | assumption].
      * exists cap, prev, (c :: s). split; [apply suffix_of_refl | assumption].
    + exists cap, prev, (c :: s). split; [apply suffix_of_refl | assumption].
Qed.

Lemma star_lazy_reach {A : Type} (p : char -> bool) (k : @cont A)
    (cap : option str) (prev : option char) (s : str) (x : A) :
  star_lazy p k cap prev s = Some x ->
  exists cap' prev' s', suffix_of s' s /\ k cap' prev' s' = Some x.
Proof.
  revert prev. induction s as [|c s IH]; intros prev H; cbn [star_lazy] in H.
  - destruct (k cap prev []) as [y|] eqn:E; [|discriminate].
    injection H as <-. exists cap, prev, []. split; [apply suffix_of_refl | assumption].
  - destruct (k cap prev (c :: s)) as [y|] eqn:E.
    + injection H as <-. exists cap, prev, (c :: s).
      split; [apply suffix_of_refl | assumption].
    + destruct (p c); [|discriminate].
      destruct (IH _ H) as [cap' [prev' [s' [Hs Hk]]]].
      exists cap', prev', s'. split; [now apply suffix_of_cons | assumption].
Qed.

(** When a pattern followed by a continuation matches, the continuation
    succeeded on what the pattern left of the text. *)
Lemma rmatch_reach {A : Type} (r : regex) :
  forall (k : @cont A) cap prev s x,
    rmatch r k cap prev s = Some x ->
    exists cap' prev' s', suffix_of s' s /\ k cap' prev' s' = Some x.
Proof.
  induction r as [| p | r1 IH1 r2 IH2 | r1 IH1 r2 IH2 | r1 IH1 | p | p | | | r1 IH1];
    intros k cap prev s x H; cbn [rmatch] in H.
  - exists cap, prev, s. split; [apply suffix_of_refl | assumption].
  - destruct s as [|c s]; [discriminate|]. destruct (p c); [|discriminate].
    exists cap, (Some c), s. split; [apply suffix_of_cons, suffix_of_refl | assumption].
  - destruct (IH1 _ _ _ _ _ H) as [cap1 [prev1 [s1 [Hs1 H1]]]].
    destruct (IH2 _ _ _ _ _ H1) as [cap2 [prev2 [s2 [Hs2 H2]]]].
    exists cap2, prev2, s2. split; [eapply suffix_of_trans; eassumption | assumption].
  - destruct (rmatch r1 k cap prev s) as [y|] eqn:E.
    + injection H as <-. apply (IH1 _ _ _ _ _ E).
    + apply (IH2 _ _ _ _ _ H).
  - destruct (rmatch r1 k cap prev s) as [y|] eqn:E.
    + injection H as <-. apply (IH1 _ _ _ _ _ E).
    + exists cap, prev, s. split; [apply suffix_of_refl | assumption].
  - now apply star_greedy_reach in H.
  - now apply star_lazy_reach in H.
  - destruct (at_bol prev); [|discriminate].
    exists cap, prev, s. split; [apply suffix_of_refl | assumption].
  - destruct (at_eol s); [|discriminate].
    exists cap, prev, s. split; [apply suffix_of_refl | assumption].
  - destruct (IH1 _ _ _ _ _ H) as [cap1 [prev1 [s1 [Hs1 H1]]]].
    eexists _, prev1, s1. split; [assumption | exact H1].
Qed.

Lemma no_backslash_suffix (t s : str) :
  suffix_of t s -> no_backslash s = true -> no_backslash t = true.
Proof.
  intros [a ->]. unfold no_backslash. rewrite forallb_app.
  intros H. now apply andb_true_iff in H.
Qed.

Lemma no_backslash_startswith (p s : str) :
  no_backslash s = true -> no_backslash p = false -> startswith p s = false.
Proof.
  intros Hs Hp. destruct (startswith p s) eqn:E; [|reflexivity].
  apply startswith_iff in E. destruct E as [b ->].
  unfold no_backslash in *. rewrite forallb_app in Hs.
  apply andb_true_iff in Hs. destruct Hs as [Hs _]. congruence.
Qed.

(** The first two patterns of [strip_html] contain a backslash, so they
    match nowhere in a text without one. *)
Lemma script_style_re_needs_backslash (prev : option char) (s : str) :
  no_backslash s = true -> match_here script_style_re prev s = None.
Proof.
  intros Hs. destruct (match_here script_style_re prev s) as [m|] eqn:E; [|reflexivity].
  exfalso. unfold match_here, script_style_re in E. cbn [rmatch] in E.
  destruct s as [|c s]; [discriminate|].
  destruct (char_eqb 60%N c); [|discriminate].
  assert (Hs' : no_backslash s = true)
    by (apply (no_backslash_suffix s (c :: s)); [apply suffix_of_cons, suffix_of_refl | assumption]).
  assert (Hrest : exists cap1 prev1 s1,
             suffix_of s1 s /\
             rmatch (Str (lit "</\1>")) (fun cap _ rest => Some (cap, rest)) cap1 prev1 s1
               = Some m).
  { match type of E with
    | match ?a with Some _ => _ | None => ?b end = Some _ =>
        assert (Ha : a = Some m \/ b = Some m)
          by (destruct a; [left; congruence | right; assumption])
    end.
    destruct Ha as [Ha | Ha];
      apply rmatch_reach in Ha; destruct Ha as [c1 [p1 [s1 [S1 Ha]]]];
      apply star_lazy_reach in Ha; destruct Ha as [c2 [p2 [s2 [S2 Ha]]]];
      (destruct s2 as [|d s2]; [discriminate|]);
      (destruct (char_eqb 62%N d); [|discriminate]);
      apply star_lazy_reach in Ha; destruct Ha as [c3 [p3 [s3 [S3 Ha]]]];
      exists c3, p3, s3;
      (split; [|exact Ha]);
      (eapply suffix_of_trans; [exact S3|]);
      (eapply suffix_of_trans; [apply suffix_of_cons, suffix_of_refl|]);
      (eapply suffix_of_trans; [exact S2 | exact S1]). }
  destruct Hrest as [cap1 [prev1 [s1 [S1 H1]]]].
  apply rmatch_Str_prefix in H1.
  rewrite no_backslash_startswith in H1; [discriminate | | reflexivity].
  eapply no_backslash_suffix; eassumption.
Qed.

Lemma br_re_needs_backslash (prev : option char) (s : str) :
  no_backslash s = true -> match_here br_re prev s = None.
Proof.
  intros Hs. destruct (match_here br_re prev s) as [m|] eqn:E; [|reflexivity].
  exfalso. unfold match_here, br_re in E.
  change (rmatch (Seq (Str (lit "<br\")) ?r) ?k None prev s)
    with (rmatch (Str (lit "<br\")) (rmatch r k) None prev s) in E.
  apply rmatch_Str_prefix in E.
  rewrite no_backslash_startswith in E; [discriminate | assumption | reflexivity].
Qed.

Lemma re_sub_no_match (r : regex) (repl s : str) :
  (forall prev t, suffix_of t s -> match_here r prev t = None) ->
  re_sub r repl s = s.
Proof.
  unfold re_sub. generalize (@None N).
  induction s as [|c s IH]; intros prev H; cbn [re_sub_from].
  - now rewrite (H prev [] (suffix_of_refl [])).
  - rewrite (H prev (c :: s) (suffix_of_refl _)).
    rewrite IH; [reflexivity|].
    intros prev' t Ht. apply H. now apply suffix_of_cons.
Qed.

(** On a text without a backslash [strip_html] leaves script and style
    elements and line breaks to the last two substitutions: the closing
    paragraph tags become newlines and every tag is removed, whatever stands
    between the tags of a script or of a style element. *)
Lemma strip_html_without_backslash (h : str) :
  no_backslash h = true ->
  strip_html h = html_unescape (re_sub tag_re [] (re_sub p_close_re [LF] h)).
Proof.
  intros Hh. unfold strip_html.
  rewrite (re_sub_no_match script_style_re).
  - rewrite (re_sub_no_match br_re); [reflexivity|].
    intros prev t Ht. apply br_re_needs_backslash.
    eapply no_backslash_suffix; eassumption.
  - intros prev t Ht. apply script_style_re_needs_backslash.
    eapply no_backslash_suffix; eassumption.
Qed.

(** ** Line terminators of the calendar *)


(** ** The partition into calendars *)

Lemma split_calendars_from (l : list Event) (out : calendars) :
  fold_left split_step l out =
  mkCalendars (cal_all out ++ l)
    (cal_cw out ++ contests_labelled (lit "cw") l)
    (cal_phone out ++ contests_labelled (lit "phone") l)
    (cal_digital out ++ contests_labelled (lit "digital") l)
    (cal_hamfests out ++ labelled (lit "hamfest") l)
    (cal_field_day out ++ labelled (lit "field-day") l).
Proof.
  revert out. induction l as [|e l IH]; intros out.
  - destruct out. cbn. rewrite !app_nil_r. reflexivity.
  - cbn [fold_left]. rewrite IH. unfold split_step, contests_labelled, labelled.
    cbn [cal_all cal_cw cal_phone cal_digital cal_hamfests cal_field_day filter].
    rewrite <- app_assoc. cbn [app].
    f_equal;
      match goal with
      | |- (if ?b then _ else _) ++ _ = _ =>
          destruct b; [rewrite <- app_assoc|]; reflexivity
      end.
Qed.

(** X1: Each calendar of [split_calendars] is the input filtered by its
    labels, in the order of the input: [all] is the input itself; [cw],
    [phone] and [digital] hold the events labelled [contest] and the mode;
    [hamfests] and [field-day] those with that label. *)
Theorem split_calendars_filters (all_events : list Event) :
  cal_all (split_calendars all_events) = all_events /\
  cal_cw (split_calendars all_events) = contests_labelled (lit "cw") all_events /\
  cal_phone (split_calendars all_events) = contests_labelled (lit "phone") all_events /\
  cal_digital (split_calendars all_events) = contests_labelled (lit "digital") all_events /\
  cal_hamfests (split_calendars all_events) = labelled (lit "hamfest") all_events /\
  cal_field_day (split_calendars all_events) = labelled (lit "field-day") all_events.
Proof.
  unfold split_calendars. rewrite split_calendars_from.
  repeat split.
Qed.

(** ** De-duplication, continued *)

Lemma dict_set_new (d : list (key * Event)) (k : key) (v : Event) :
  existsb (key_eqb k) (map fst d) = false -> dict_set d k v = d ++ [(k, v)].
Proof.
  induction d as [|[k' v'] d IH]; cbn [dict_set map fst existsb app]; intros H.
  - reflexivity.
  - apply orb_false_iff in H. destruct H as [H1 H2].
    rewrite H1, (IH H2). reflexivity.
Qed.

Lemma dict_set_length (d : list (key * Event)) (k : key) (v : Event) :
  (length (dict_set d k v) <= S (length d))%nat.
Proof.
  induction d as [|[k' v'] d IH]; cbn [dict_set length].
  - lia.
  - destruct (key_eqb k k'); cbn [length]; lia.
Qed.

Lemma dedup_dict_distinct (es : list Event) :
  NoDup (map dedup_key es) -> dedup_dict es = map (fun e => (dedup_key e, e)) es.
Proof.
  induction es as [|e es IH] using rev_ind; intros H.
  - reflexivity.
  - rewrite dedup_dict_snoc. rewrite map_app in H.
    assert (Hes : NoDup (map dedup_key es)) by (eapply NoDup_app_remove_r; exact H).
    rewrite (IH Hes). rewrite dict_set_new.
    + rewrite map_app. reflexivity.
    + rewrite map_map. cbn [fst].
      destruct (existsb (key_eqb (dedup_key e)) (map (fun x => dedup_key x) es)) eqn:E;
        [|reflexivity].
      apply existsb_key_In in E. exfalso.
      cbn [map] in H. apply NoDup_remove_2 in H. apply H.
      rewrite app_nil_r. exact E.
Qed.

Lemma dedup_keys_NoDup (es : list Event) : NoDup (map dedup_key (dedup es)).
Proof.
  unfold dedup. rewrite dict_keys_of_values.
  - apply (inv_nodup _ _ (dedup_dict_inv es)).
  - apply (inv_key _ _ (dedup_dict_inv es)).
Qed.

Lemma dedup_fixed (es : list Event) : NoDup (map dedup_key es) -> dedup es = es.
Proof.
  intros H. unfold dedup. rewrite (dedup_dict_distinct es H).
  rewrite map_map. cbn [snd]. apply map_id.
Qed.

Lemma dedup_dict_length (es : list Event) : (length (dedup_dict es) <= length es)%nat.
Proof.
  induction es as [|e es IH] using rev_ind.
  - cbn. lia.
  - rewrite dedup_dict_snoc, length_app. cbn [length].
    pose proof (dict_set_length (dedup_dict es) (dedup_key e) e). lia.
Qed.

Lemma first_keys_from (es : list Event) (d : list (key * Event)) :
  map fst (fold_left (fun d e => dict_set d (dedup_key e) e) es d) =
  map fst d ++ first_keys (map fst d) (map dedup_key es).
Proof.
  revert d. induction es as [|e es IH]; intros d; cbn [fold_left map first_keys].
  - rewrite app_nil_r. reflexivity.
  - rewrite IH, dict_set_keys.
    destruct (existsb (key_eqb (dedup_key e)) (map fst d)).
    + reflexivity.
    + rewrite <- app_assoc. reflexivity.
Qed.

(** X2: De-duplication leaves a list with distinct keys as it is, doing it
    twice changes nothing more, the result is never longer than the input,
    and the keys come out in the order of their first occurrence (a dict
    keeps the place of a key whose value is overwritten). *)
Theorem dedup_distinct_keys (es : list Event) :
  (NoDup (map dedup_key es) -> dedup es = es) /\
  dedup (dedup es) = dedup es /\
  (length (dedup es) <= length es)%nat /\
  map dedup_key (dedup es) = first_keys [] (map dedup_key es).
Proof.
  split; [apply dedup_fixed|].
  split; [apply dedup_fixed, dedup_keys_NoDup|].
  split.
  - unfold dedup. rewrite length_map. apply dedup_dict_length.
  - unfold dedup. rewrite dict_keys_of_values.
    + unfold dedup_dict. rewrite first_keys_from. reflexivity.
    + apply (inv_key _ _ (dedup_dict_inv es)).
Qed.

(** ** The labels of an event *)

Lemma add_category_present (e : Event) (c : str) :
  In c (categories e) -> add_category e c = e.
Proof.
  intros H. unfold add_category. apply mem_In in H. rewrite H. reflexivity.
Qed.

Lemma add_category_extends (e : Event) (c : str) :
  exists added, categories (add_category e c) = categories e ++ added.
Proof.
  unfold add_category. destruct (mem c (categories e)).
  - exists []. rewrite app_nil_r. reflexivity.
  - exists [c]. reflexivity.
Qed.

Lemma add_category_NoDup (e : Event) (c : str) :
  NoDup (categories e) -> NoDup (categories (add_category e c)).
Proof.
  intros H. unfold add_category. destruct (mem c (categories e)) eqn:E; [exact H|].
  cbn [set_categories categories].
  apply NoDup_app; [exact H | repeat constructor; intros [] |].
  intros x Hx [Hc|[]]. subst x. apply mem_In in Hx. congruence.
Qed.

Lemma extends_trans (a b c : list str) :
  (exists x, b = a ++ x) -> (exists y, c = b ++ y) -> exists z, c = a ++ z.
Proof.
  intros [x ->] [y ->]. exists (x ++ y). rewrite app_assoc. reflexivity.
Qed.

Lemma extends_refl (a : list str) : exists x, a = a ++ x.
Proof. exists []. rewrite app_nil_r. reflexivity. Qed.

Lemma tag_modes_extends (e : Event) :
  exists added, categories (tag_modes e) = categories e ++ added.
Proof.
  unfold tag_modes.
  destruct (any_in CW_KEYWORDS (blob e)), (any_in PHONE_KEYWORDS (blob e)),
    (any_in DIGITAL_KEYWORDS (blob e));
    repeat first [ apply extends_refl
                 | eapply extends_trans; [|apply add_category_extends] ].
Qed.

Lemma tag_modes_NoDup (e : Event) :
  NoDup (categories e) -> NoDup (categories (tag_modes e)).
Proof.
  intros H. unfold tag_modes.
  destruct (any_in CW_KEYWORDS (blob e)), (any_in PHONE_KEYWORDS (blob e)),
    (any_in DIGITAL_KEYWORDS (blob e));
    repeat first [ exact H | apply add_category_NoDup ].
Qed.

Lemma tag_field_day_extends (e : Event) :
  exists added, categories (tag_field_day e) = categories e ++ added.
Proof.
  unfold tag_field_day. destruct (any_in FIELD_DAY_KEYWORDS (blob e)).
  - apply add_category_extends.
  - apply extends_refl.
Qed.

Lemma tag_field_day_NoDup (e : Event) :
  NoDup (categories e) -> NoDup (categories (tag_field_day e)).
Proof.
  intros H. unfold tag_field_day. destruct (any_in FIELD_DAY_KEYWORDS (blob e)).
  - apply add_category_NoDup, H.
  - exact H.
Qed.

Lemma blob_tag_field_day (e : Event) : blob (tag_field_day e) = blob e.
Proof.
  unfold tag_field_day. destruct (any_in FIELD_DAY_KEYWORDS (blob e)).
  - apply blob_add_category.
  - reflexivity.
Qed.

Lemma tag_modes_fixed (e : Event) :
  (any_in CW_KEYWORDS (blob e) = true -> In (lit "cw") (categories e)) ->
  (any_in PHONE_KEYWORDS (blob e) = true -> In (lit "phone") (categories e)) ->
  (any_in DIGITAL_KEYWORDS (blob e) = true -> In (lit "digital") (categories e)) ->
  tag_modes e = e.
Proof.
  intros H1 H2 H3. unfold tag_modes.
  destruct (any_in CW_KEYWORDS (blob e));
    [rewrite (add_category_present e _ (H1 eq_refl))|];
    (destruct (any_in PHONE_KEYWORDS (blob e));
     [rewrite (add_category_present e _ (H2 eq_refl))|]);
    (destruct (any_in DIGITAL_KEYWORDS (blob e));
     [rewrite (add_category_present e _ (H3 eq_refl))|]);
    reflexivity.
Qed.

Lemma tag_field_day_fixed (e : Event) :
  (any_in FIELD_DAY_KEYWORDS (blob e) = true -> In (lit "field-day") (categories e)) ->
  tag_field_day e = e.
Proof.
  intros H. unfold tag_field_day.
  destruct (any_in FIELD_DAY_KEYWORDS (blob e)); [|reflexivity].
  apply add_category_present, H, eq_refl.
Qed.

Lemma blob_tag (e : Event) : blob (tag e) = blob e.
Proof. unfold tag. rewrite blob_tag_field_day, blob_tag_modes. reflexivity. Qed.

Lemma tag_tag (e : Event) : tag (tag e) = tag e.
Proof.
  unfold tag at 1.
  assert (Hm : tag_modes (tag e) = tag e).
  { apply tag_modes_fixed; rewrite blob_tag; intros H; unfold tag;
      apply tag_field_day_In; left; apply tag_modes_In; auto. }
  rewrite Hm. apply tag_field_day_fixed. rewrite blob_tag. intros H.
  unfold tag. apply tag_field_day_In. right. rewrite blob_tag_modes. auto.
Qed.

Lemma tagging_extends (e : Event) :
  exists added, categories (tag e) = categories e ++ added.
Proof.
  unfold tag. eapply extends_trans; [apply tag_modes_extends | apply tag_field_day_extends].
Qed.

Lemma tagging_NoDup (e : Event) :
  NoDup (categories e) -> NoDup (categories (tag e)).
Proof. intros H. unfold tag. apply tag_field_day_NoDup, tag_modes_NoDup, H. Qed.

(** X3: Tagging an event ([tag_modes], then [tag_field_day]) only appends
    labels: the labels it had stay in front in their order; labels that were
    distinct stay distinct; and tagging a second time changes nothing. *)
Theorem tagging_appends_once (e : Event) :
  (exists added, categories (tag e) = categories e ++ added) /\
  (NoDup (categories e) -> NoDup (categories (tag e))) /\
  tag (tag e) = tag e.
Proof.
  split; [apply tagging_extends|].
  split; [apply tagging_NoDup | apply tag_tag].
Qed.

(** ** The order of the events in a calendar *)

Lemma insert_by_start_perm (e : Event) (l : list Event) :
  Permutation (insert_by_start e l) (e :: l).
Proof.
  induction l as [|x l IH]; cbn [insert_by_start].
  - reflexivity.
  - destruct (start x <? start e).
    + rewrite IH. apply perm_swap.
    + reflexivity.
Qed.

Lemma sorted_by_start_perm (l : list Event) : Permutation (sorted_by_start l) l.
Proof.
  induction l as [|e l IH]; cbn [sorted_by_start fold_right].
  - reflexivity.
  - fold (sorted_by_start l). rewrite insert_by_start_perm, IH. reflexivity.
Qed.

Lemma insert_by_start_sorted (e : Event) (l : list Event) :
  StronglySorted starts_le l -> StronglySorted starts_le (insert_by_start e l).
Proof.
  induction l as [|x l IH]; cbn [insert_by_start]; intros H.
  - repeat constructor.
  - apply StronglySorted_inv in H. destruct H as [Hl Hx].
    destruct (start x <? start e) eqn:E.
    + constructor; [apply IH, Hl|].
      apply Z.ltb_lt in E.
      rewrite (Forall_forall (starts_le x)). intros y Hy.
      apply (Permutation_in _ (insert_by_start_perm e l)) in Hy.
      destruct Hy as [<-|Hy].
      * unfold starts_le. lia.
      * rewrite Forall_forall in Hx. apply Hx, Hy.
    + apply Z.ltb_ge in E. constructor; [constructor; assumption|].
      constructor; [exact E|].
      rewrite Forall_forall in Hx. rewrite Forall_forall. intros y Hy.
      specialize (Hx y Hy). unfold starts_le in *. lia.
Qed.

Lemma sorted_by_start_sorted (l : list Event) :
  StronglySorted starts_le (sorted_by_start l).
Proof.
  induction l as [|e l IH]; cbn [sorted_by_start fold_right].
  - constructor.
  - apply insert_by_start_sorted, IH.
Qed.

Lemma starting_at_later (t : datetime) (l : list Event) :
  Forall (fun x => t < start x) l -> starting_at t l = [].
Proof.
  induction 1 as [|x l Hx _ IH]; cbn [starting_at filter].
  - reflexivity.
  - destruct (start x =? t) eqn:E; [apply Z.eqb_eq in E; lia | exact IH].
Qed.

Lemma insert_by_start_stable (e : Event) (l : list Event) (t : datetime) :
  StronglySorted starts_le l ->
  starting_at t (insert_by_start e l) = starting_at t (e :: l).
Proof.
  induction l as [|x l IH]; cbn [insert_by_start]; intros H.
  - reflexivity.
  - apply StronglySorted_inv in H. destruct H as [Hl Hx].
    destruct (start x <? start e) eqn:E; [|reflexivity].
    apply Z.ltb_lt in E.
    change (starting_at t (x :: insert_by_start e l))
      with (if start x =? t then x :: starting_at t (insert_by_start e l)
            else starting_at t (insert_by_start e l)).
    rewrite (IH Hl).
    change (starting_at t (e :: x :: l))
      with (if start e =? t
            then e :: (if start x =? t then x :: starting_at t l else starting_at t l)
            else (if start x =? t then x :: starting_at t l else starting_at t l)).
    change (starting_at t (e :: l))
      with (if start e =? t then e :: starting_at t l else starting_at t l).
    destruct (start x =? t) eqn:Ex, (start e =? t) eqn:Ee; try reflexivity.
    apply Z.eqb_eq in Ex. apply Z.eqb_eq in Ee. lia.
Qed.

Lemma sorted_by_start_stable (l : list Event) (t : datetime) :
  starting_at t (sorted_by_start l) = starting_at t l.
Proof.
  induction l as [|e l IH]; cbn [sorted_by_start fold_right].
  - reflexivity.
  - fold (sorted_by_start l).
    rewrite insert_by_start_stable by apply sorted_by_start_sorted.
    unfold starting_at in *. cbn [filter]. rewrite IH. reflexivity.
Qed.

(** X4: The sort of [build_ics] rearranges the events (nothing is lost or
    repeated), puts them in non-decreasing order of start, and is stable:
    events with the same start keep the order they had in the input. *)
Theorem sorted_by_start_stable_sort (events : list Event) :
  Permutation (sorted_by_start events) events /\
  StronglySorted starts_le (sorted_by_start events) /\
  forall t, starting_at t (sorted_by_start events) = starting_at t events.
Proof.
  split; [apply sorted_by_start_perm|].
  split; [apply sorted_by_start_sorted|].
  intros t. apply sorted_by_start_stable.
Qed.

Lemma strictly_sorted_unique (l1 : list Event) :
  forall l2,
    StronglySorted starts_le l1 -> StronglySorted starts_le l2 ->
    NoDup (map start l1) -> Permutation l1 l2 -> l1 = l2.
Proof.
  induction l1 as [|a l1 IH]; intros l2 S1 S2 N P.
  - apply Permutation_nil in P. subst. reflexivity.
  - destruct l2 as [|b l2]; [apply Permutation_sym, Permutation_nil in P; discriminate|].
    apply StronglySorted_inv in S1. destruct S1 as [S1 F1].
    apply StronglySorted_inv in S2. destruct S2 as [S2 F2].
    rewrite Forall_forall in F1, F2.
    cbn [map] in N. apply NoDup_cons_iff in N. destruct N as [Na N].
    assert (Hab : a = b).
    { assert (Ha : In a (b :: l2)) by (apply (Permutation_in _ P); left; reflexivity).
      assert (Hb : In b (a :: l1))
        by (apply (Permutation_in _ (Permutation_sym P)); left; reflexivity).
      destruct Ha as [Ha|Ha]; [congruence|].
      destruct Hb as [Hb|Hb]; [congruence|].
      specialize (F1 b Hb). specialize (F2 a Ha). unfold starts_le in *.
      exfalso. apply Na. replace (start a) with (start b) by lia.
      apply in_map, Hb. }
    subst b. f_equal. apply IH; try assumption.
    apply Permutation_cons_inv in P. exact P.
Qed.

(** X5: When no two events start at the same instant, the calendar text
    that [build_ics] writes does not depend on the order in which the events
    are given. *)
Theorem build_ics_order_independent (calendar_name : str) (l1 l2 : list Event) :
  Permutation l1 l2 -> NoDup (map start l1) ->
  build_ics calendar_name l1 = build_ics calendar_name l2.
Proof.
  intros P N. unfold build_ics.
  replace (sorted_by_start l2) with (sorted_by_start l1); [reflexivity|].
  apply strictly_sorted_unique; try apply sorted_by_start_sorted.
  - apply (Permutation_NoDup (l := map start l1)); [|exact N].
    apply Permutation_map, Permutation_sym, sorted_by_start_perm.
  - rewrite sorted_by_start_perm, P. symmetry. apply sorted_by_start_perm.
Qed.

(** ** The lines of a calendar text *)










(** ** Escaping *)

Lemma decode_escaped_pair (d : char) (t : str) :
  decode_escaped (92%N :: d :: t) =
  (if char_eqb 110%N d then LF else d) :: decode_escaped t.
Proof. reflexivity. Qed.

Lemma decode_escaped_esc (s : str) : decode_escaped (flat_map esc_char s) = s.
Proof.
  induction s as [|c s IH]; [reflexivity|].
  cbn [flat_map]. unfold esc_char at 1.
  char_case 92%N c; [cbn [app]; rewrite decode_escaped_pair, IH; reflexivity|].
  char_case 10%N c; [cbn [app]; rewrite decode_escaped_pair, IH; reflexivity|].
  char_case 44%N c; [cbn [app]; rewrite decode_escaped_pair, IH; reflexivity|].
  char_case 59%N c; [cbn [app]; rewrite decode_escaped_pair, IH; reflexivity|].
  cbn [app decode_escaped]. rewrite E, IH. reflexivity.
Qed.

Lemma esc_separator_after_backslash (s : str) :
  forall a c b,
    flat_map esc_char s = a ++ c :: b -> is_separator c = true ->
    exists a', a = a' ++ [92%N].
Proof.
  induction s as [|x s IH]; intros a c b E Hc.
  - destruct a; discriminate.
  - cbn [flat_map] in E.
    assert (Two : forall y, 92%N :: y :: flat_map esc_char s = a ++ c :: b ->
                            exists a', a = a' ++ [92%N]).
    { intros y Ey. destruct a as [|a0 a].
      - injection Ey as Hx _. subst c. discriminate.
      - injection Ey as H0 Ey. subst a0. destruct a as [|a1 a].
        + exists []. reflexivity.
        + injection Ey as H1 Ey. subst a1. destruct (IH a c b Ey Hc) as [a' ->].
          exists (92%N :: y :: a'). reflexivity. }
    unfold esc_char at 1 in E.
    char_case 92%N x; [exact (Two _ E)|].
    char_case 10%N x; [exact (Two _ E)|].
    char_case 44%N x; [exact (Two _ E)|].
    char_case 59%N x; [exact (Two _ E)|].
    cbn [app] in E. destruct a as [|a0 a].
    + injection E as Hx _. subst c. unfold is_separator in Hc.
      rewrite E2, E3 in Hc. discriminate.
    + injection E as H0 E. subst a0. destruct (IH a c b E Hc) as [a' ->].
      exists (x :: a'). reflexivity.
Qed.

(** X7: [ics_escape] loses nothing and leaves no bare separator: two texts
    with the same escaped form are equal; the escaped form has no line feed;
    and every comma and semicolon in it comes right after a backslash. *)
Theorem ics_escape_injective (s1 s2 : str) :
  (ics_escape s1 = ics_escape s2 -> s1 = s2) /\
  nolf (ics_escape s1) = true /\
  forall a c b,
    ics_escape s1 = a ++ c :: b -> is_separator c = true ->
    exists a', a = a' ++ [92%N].
Proof.
  split; [|split].
  - intros E. rewrite !ics_escape_flat_map in E.
    rewrite <- (decode_escaped_esc s1), <- (decode_escaped_esc s2), E. reflexivity.
  - apply nolf_ics_escape.
  - intros a c b. rewrite ics_escape_flat_map. apply esc_separator_after_backslash.
Qed.

(** ** Folded lines *)

Lemma unfold_ics_re_fold (prev : option char) (w : char) (b : str) :
  space_or_tab w = true ->
  match_here unfold_ics_re prev (CR :: LF :: w :: b) = Some (None, b).
Proof.
  intros H. unfold match_here, unfold_ics_re. cbn [rmatch].
  unfold space_or_tab in H. cbn. rewrite H. reflexivity.
Qed.

Lemma unfold_ics_re_prev (prev : option char) (s : str) :
  match_here unfold_ics_re prev s = match_here unfold_ics_re None s.
Proof. reflexivity. Qed.

Lemma unfold_ics_from_prev (skip : nat) (prev : option char) (s : str) :
  re_sub_from unfold_ics_re [] skip prev s = re_sub_from unfold_ics_re [] skip None s.
Proof.
  revert skip prev. induction s as [|c s IH]; intros skip prev.
  - destruct skip; reflexivity.
  - cbn [re_sub_from]. destruct skip as [|k].
    + rewrite (unfold_ics_re_prev prev).
      destruct (match_here unfold_ics_re None (c :: s)) as [[cap rest]|].
      * destruct (length (c :: s) - length rest)%nat; reflexivity.
      * reflexivity.
    + rewrite (IH k (Some c)). symmetry. apply IH.
Qed.

Lemma no_match_before_fold (prev : option char) (a t : str) :
  a <> [] -> no_fold a = true ->
  match_here unfold_ics_re prev (a ++ CR :: t) = None.
Proof.
  intros Ha H. destruct a as [|c1 a]; [congruence|]. clear Ha.
  unfold match_here, unfold_ics_re. cbn [rmatch app].
  cbn [no_fold] in H. apply andb_true_iff in H. destruct H as [H1 H].
  rewrite (char_eqb_sym LF c1).
  destruct (char_eqb c1 LF) eqn:E1.
  - apply N.eqb_eq in E1. subst c1. cbn [andb negb] in H1.
    destruct a as [|c2 a]; cbn [app].
    + reflexivity.
    + cbn [head_space_or_tab] in H1. unfold space_or_tab in H1.
      apply negb_true_iff in H1. rewrite H1. reflexivity.
  - destruct (char_eqb CR c1); [|reflexivity].
    destruct a as [|c2 a]; cbn [app].
    + reflexivity.
    + cbn [no_fold] in H. apply andb_true_iff in H. destruct H as [H2 H].
      rewrite (char_eqb_sym LF c2).
      destruct (char_eqb c2 LF); [|reflexivity].
      cbn [andb negb] in H2. destruct a as [|c3 a]; cbn [app].
      * reflexivity.
      * cbn [head_space_or_tab] in H2. unfold space_or_tab in H2.
        apply negb_true_iff in H2. rewrite H2. reflexivity.
Qed.

Lemma re_sub_from_match (r : regex) (repl : str) (prev : option char) (c : char)
    (s : str) (cap : option str) (rest : str) (n : nat) :
  match_here r prev (c :: s) = Some (cap, rest) ->
  (length (c :: s) - length rest)%nat = S n ->
  re_sub_from r repl O prev (c :: s) = repl ++ re_sub_from r repl n (Some c) s.
Proof. intros M L. cbn [re_sub_from]. rewrite M, L. reflexivity. Qed.

Lemma re_sub_from_no_match (r : regex) (repl : str) (prev : option char) (c : char)
    (s : str) :
  match_here r prev (c :: s) = None ->
  re_sub_from r repl O prev (c :: s) = c :: re_sub_from r repl O (Some c) s.
Proof. intros M. cbn [re_sub_from]. rewrite M. reflexivity. Qed.

Lemma unfold_ics_from_folded (a : str) (w : char) (b : str) :
  no_fold a = true -> space_or_tab w = true ->
  forall prev,
    re_sub_from unfold_ics_re [] O prev (a ++ CR :: LF :: w :: b) =
    a ++ re_sub_from unfold_ics_re [] O None b.
Proof.
  intros Ha Hw. induction a as [|c a IH]; intros prev.
  - cbn [app].
    rewrite (re_sub_from_match _ _ _ _ _ _ _ 2%nat (unfold_ics_re_fold prev w b Hw))
      by (cbn [length]; lia).
    change (re_sub_from unfold_ics_re [] 2 (Some CR) (LF :: w :: b))
      with (re_sub_from unfold_ics_re [] O (Some w) b).
    cbn [app]. apply unfold_ics_from_prev.
  - change ((c :: a) ++ CR :: LF :: w :: b) with (c :: (a ++ CR :: LF :: w :: b)).
    rewrite re_sub_from_no_match.
    + rewrite (IH (no_fold_tail c a Ha)). reflexivity.
    + change (c :: a ++ CR :: LF :: w :: b) with ((c :: a) ++ CR :: LF :: w :: b).
      apply no_match_before_fold; [discriminate | assumption].
Qed.

(** X8: [unfold_ics] takes out a fold (CR, LF and a space or a tab) and
    leaves what precedes it alone when that has no fold of its own, then
    goes on with the rest; so a line that was cut in two by a fold comes back
    whole. *)
Theorem unfold_ics_folded (a : str) (w : char) (b : str) :
  no_fold a = true -> space_or_tab w = true ->
  unfold_ics (a ++ CRLF ++ w :: b) = a ++ unfold_ics b /\
  (no_fold b = true -> unfold_ics (a ++ CRLF ++ w :: b) = a ++ b).
Proof.
  intros Ha Hw.
  assert (E : unfold_ics (a ++ CRLF ++ w :: b) = a ++ unfold_ics b).
  { unfold unfold_ics, re_sub. apply unfold_ics_from_folded; assumption. }
  split; [exact E|].
  intros Hb. rewrite E, (unfold_ics_id b Hb). reflexivity.
Qed.

(** ** Fields with parameters *)

Lemma field_tail_match_params (q payload rest : str) (prev : option char) :
  no_colon q = true -> nolf payload = true ->
  rmatch field_tail_re (fun cap _ rest => Some (cap, rest)) None prev
    (59%N :: q ++ 58%N :: payload ++ CR :: LF :: rest)
  = Some (Some (payload ++ [CR]), LF :: rest).
Proof.
  intros Hq Hp. unfold field_tail_re. cbn [rmatch char_eqb N.eqb Pos.eqb].
  rewrite (star_greedy_run _ _ None q _ (Some (payload ++ [CR]), LF :: rest) Hq).
  - reflexivity.
  - intros prev'. cbn [star_greedy char_eqb N.eqb Pos.eqb negb].
    change (payload ++ CR :: LF :: rest) with (payload ++ [CR] ++ LF :: rest).
    rewrite app_assoc.
    apply star_greedy_run.
    + unfold nolf in Hp. rewrite forallb_app, Hp. reflexivity.
    + intros prev''. cbn [star_greedy not_newline char_eqb LF N.eqb Pos.eqb negb at_eol].
      now rewrite firstn_length_diff.
Qed.

Lemma search_lines_found_params (name : str) (params : option str) (payload : str)
    (before after : list str) (prev : option char) :
  at_bol prev = true ->
  Forall (skipped name) before ->
  no_colon (or_empty params) = true ->
  nolf payload = true ->
  re_search_from (field_re name) prev
    (lines_text (before ++ (name ++ params_text params ++ 58%N :: payload) :: after))
  = Some (Some (payload ++ [CR]), LF :: lines_text after).
Proof.
  intros Hb Hbefore Hq Hp. revert prev Hb.
  induction Hbefore as [|l before Hl _ IH]; intros prev Hb.
  - cbn [app lines_text flat_map]. fold (lines_text after).
    rewrite <- !app_assoc. cbn [app CRLF].
    apply re_search_from_here. rewrite field_re_here, Hb, rmatch_Str_app.
    destruct params as [q|]; cbn [params_text app].
    + now apply field_tail_match_params.
    + now apply field_tail_match.
  - cbn [app lines_text flat_map].
    fold (lines_text (before ++ (name ++ params_text params ++ 58%N :: payload) :: after)).
    rewrite <- app_assoc, search_skip_line by assumption.
    apply IH. reflexivity.
Qed.

(** X9: In a text made of CRLF-terminated lines, [extract_ics_field] returns
    the stripped value of the first line that starts with the field name:
    parameters between the name and the colon (a semicolon and a text
    without colon) are passed over, the value may itself contain colons, and
    later lines with the same name are not looked at. *)
Theorem extract_ics_field_first_line (name : str) (params : option str)
    (payload : str) (before after : list str) :
  forallb line_ok
    (before ++ (name ++ params_text params ++ 58%N :: payload) :: after) = true ->
  Forall (skipped name) before ->
  no_colon (or_empty params) = true ->
  extract_ics_field
    (lines_text (before ++ (name ++ params_text params ++ 58%N :: payload) :: after))
    name
  = Some (strip payload).
Proof.
  intros Hok Hbefore Hq.
  assert (Hp : nolf payload = true).
  { rewrite forallb_app in Hok. apply andb_true_iff in Hok. destruct Hok as [_ Hok].
    cbn [forallb] in Hok. apply andb_true_iff in Hok. destruct Hok as [Hok _].
    unfold line_ok in Hok. apply andb_true_iff in Hok. destruct Hok as [Hok _].
    rewrite !nolf_app in Hok.
    apply andb_true_iff in Hok. destruct Hok as [_ Hok].
    apply andb_true_iff in Hok. destruct Hok as [_ Hok].
    cbn [nolf forallb] in Hok. now apply andb_true_iff in Hok. }
  unfold extract_ics_field.
  rewrite unfold_ics_id by (apply no_fold_lines; assumption).
  unfold re_search. rewrite search_lines_found_params by (assumption || reflexivity).
  now rewrite strip_cr.
Qed.

(** ** Stripping *)

Lemma head_space_lstrip (s : str) : head_space (lstrip s) = false.
Proof.
  induction s as [|c s IH]; [reflexivity|].
  cbn [lstrip]. destruct (is_space c) eqn:E; [exact IH|].
  cbn [head_space]. exact E.
Qed.

Lemma head_space_rstrip (t : str) : head_space t = false -> head_space (rstrip t) = false.
Proof.
  destruct t as [|c t]; [reflexivity|]. cbn [head_space]. intros Hc.
  unfold rstrip. cbn [rev]. rewrite lstrip_app.
  destruct (lstrip (rev t)) as [|x u] eqn:E.
  - cbn [lstrip]. rewrite Hc. cbn. exact Hc.
  - rewrite rev_app_distr. cbn [rev app head_space]. exact Hc.
Qed.

Lemma strip_strip (s : str) : strip (strip s) = strip s.
Proof.
  apply strip_fixed. split.
  - unfold strip. apply head_space_rstrip, head_space_lstrip.
  - unfold strip, rstrip. rewrite rev_involutive. apply head_space_lstrip.
Qed.

Lemma unfold_ics_text_stripped (v : str) : strip (unfold_ics_text v) = unfold_ics_text v.
Proof. unfold unfold_ics_text. apply strip_strip. Qed.

(** ** What tagging leaves alone *)

Lemma add_category_rest (e : Event) (c : str) :
  url (add_category e c) = url e /\
  description (add_category e c) = description e /\
  source (add_category e c) = source e.
Proof. unfold add_category. destruct (mem c (categories e)); repeat split. Qed.

Lemma tag_modes_rest (e : Event) :
  url (tag_modes e) = url e /\
  description (tag_modes e) = description e /\
  source (tag_modes e) = source e.
Proof.
  unfold tag_modes.
  destruct (any_in CW_KEYWORDS (blob e)), (any_in PHONE_KEYWORDS (blob e)),
    (any_in DIGITAL_KEYWORDS (blob e));
    repeat match goal with
           | |- context [add_category ?x ?c] =>
               let H := fresh in
               pose proof (add_category_rest x c) as H;
               destruct H as [-> [-> ->]]
           end; repeat split.
Qed.

Lemma tag_field_day_rest (e : Event) :
  url (tag_field_day e) = url e /\
  description (tag_field_day e) = description e /\
  source (tag_field_day e) = source e.
Proof.
  unfold tag_field_day. destruct (any_in FIELD_DAY_KEYWORDS (blob e)).
  - apply add_category_rest.
  - repeat split.
Qed.

Lemma tag_rest (e : Event) :
  url (tag e) = url e /\ description (tag e) = description e /\ source (tag e) = source e.
Proof.
  unfold tag.
  destruct (tag_field_day_rest (tag_modes e)) as [-> [-> ->]].
  apply tag_modes_rest.
Qed.

Lemma tag_fields (e : Event) :
  title (tag e) = title e /\ start (tag e) = start e /\ end_ (tag e) = end_ e.
Proof.
  unfold tag.
  destruct (tag_field_day_fields (tag_modes e)) as [-> [-> ->]].
  apply tag_modes_fields.
Qed.

Lemma tag_labels (e : Event) (l : str) :
  In l (categories (tag e)) -> In l (categories e) \/ In l contest_labels.
Proof.
  unfold tag. intros H. apply classifier_In in H. destruct H as [H|[ks [H _]]].
  - left. exact H.
  - right. unfold keyword_table in H. cbn [In] in H.
    destruct H as [H|[H|[H|[H|[]]]]]; injection H as _ <-; apply mem_In; reflexivity.
Qed.

(** What the tagged event of a source looks like: built without labels,
    given a first label [c], then tagged. *)
Lemma tagged_event (e : Event) (c : str) :
  categories e = [] -> In c contest_labels ->
  (exists rest, categories (tag (add_category e c)) = c :: rest) /\
  NoDup (categories (tag (add_category e c))) /\
  (forall l, In l (categories (tag (add_category e c))) -> In l contest_labels).
Proof.
  intros He Hc.
  assert (E : categories (add_category e c) = [c])
    by (unfold add_category; rewrite He; reflexivity).
  split; [|split].
  - destruct (tagging_extends (add_category e c)) as [added Ha].
    rewrite Ha, E. exists added. reflexivity.
  - apply tagging_NoDup. rewrite E. repeat constructor. intros [].
  - intros l Hl. apply tag_labels in Hl. rewrite E in Hl.
    destruct Hl as [[<-|[]]|Hl]; assumption.
Qed.

(** ** The WA7BNM feed *)

Lemma ingest_block_built (b : str) (e : Event) :
  ingest_block b = Built e ->
  exists e0,
    e = tag (add_category e0 (lit "contest")) /\
    categories e0 = [] /\ source e0 = lit "wa7bnm-gcal" /\
    strip (title e0) = title e0.
Proof.
  unfold ingest_block.
  destruct (negb (truthy (extract_ics_field (lit "BEGIN:VEVENT" ++ b) (lit "DTSTART"))));
    [discriminate|].
  destruct (parse_google_ics_datetime _) as [st|]; [|discriminate].
  destruct (if truthy (extract_ics_field (lit "BEGIN:VEVENT" ++ b) (lit "DTEND"))
            then _ else _) as [en|]; [|discriminate].
  intros H. injection H as <-.
  eexists. split; [reflexivity|].
  cbn [categories source title]. repeat split. apply unfold_ics_text_stripped.
Qed.

Lemma ingest_blocks_inv (P : Event -> Prop) (blocks : list str) :
  (forall b e, In b blocks -> ingest_block b = Built e -> is_in_window e = true -> P e) ->
  forall events res,
    Forall P events -> ingest_blocks blocks events = Some res -> Forall P res.
Proof.
  induction blocks as [|b blocks IH]; intros HP events res Hev H.
  - injection H as <-. exact Hev.
  - cbn [ingest_blocks] in H.
    assert (HP' : forall b' e, In b' blocks -> ingest_block b' = Built e ->
                               is_in_window e = true -> P e)
      by (intros b' e Hb; apply HP; right; exact Hb).
    destruct (ingest_block b) as [|e|] eqn:Eb; [| |discriminate].
    + exact (IH HP' events res Hev H).
    + apply (IH HP' _ res) in H; [exact H|].
      destruct (is_in_window e) eqn:Ew; [|exact Hev].
      apply Forall_app. split; [exact Hev|].
      constructor; [|constructor]. apply (HP b e); [left; reflexivity | exact Eb | exact Ew].
Qed.

Lemma ingest_blocks_length (blocks : list str) :
  forall events res,
    ingest_blocks blocks events = Some res ->
    (length res <= length events + length blocks)%nat.
Proof.
  induction blocks as [|b blocks IH]; intros events res H.
  - injection H as <-. cbn. lia.
  - cbn [ingest_blocks] in H. cbn [length].
    destruct (ingest_block b) as [|e|]; [| |discriminate].
    + apply IH in H. lia.
    + apply IH in H. destruct (is_in_window e); [rewrite length_app in H; cbn in H|]; lia.
Qed.

Lemma ingest_blocks_raised (blocks : list str) (b : str) :
  In b blocks -> ingest_block b = Raised ->
  forall events, ingest_blocks blocks events = None.
Proof.
  induction blocks as [|b' blocks IH]; intros Hb Hr events; [destruct Hb|].
  cbn [ingest_blocks]. destruct Hb as [->|Hb].
  - rewrite Hr. reflexivity.
  - destruct (ingest_block b'); [apply IH | apply IH | reflexivity]; assumption.
Qed.

Lemma split_from_absent (sep acc s : str) :
  contains sep s = false -> split_from sep O acc s = [rev acc ++ s].
Proof.
  revert acc. induction s as [|c s IH]; intros acc H.
  - cbn [split_from]. rewrite app_nil_r. reflexivity.
  - cbn [contains] in H. apply orb_false_iff in H. destruct H as [H1 H2].
    cbn [split_from]. rewrite H1, (IH (c :: acc) H2). cbn [rev].
    rewrite <- app_assoc. reflexivity.
Qed.

(** X10: Every event that [ingest_wa7bnm_gcal] returns was built from a
    block of the feed and lies in the window; its source is the feed's; its
    title has no surrounding whitespace; its first label is [contest], its
    labels are distinct and are among contest, cw, phone, digital and
    field-day. *)
Theorem ingest_wa7bnm_gcal_events (text : str) (events : list Event) (e : Event) :
  ingest_wa7bnm_gcal text = Some events -> In e events ->
  (exists b, In b (feed_blocks text) /\ ingest_block b = Built e) /\
  is_in_window e = true /\
  source e = lit "wa7bnm-gcal" /\
  strip (title e) = title e /\
  (exists rest, categories e = lit "contest" :: rest) /\
  NoDup (categories e) /\
  (forall l, In l (categories e) -> In l contest_labels).
Proof.
  intros H He. unfold ingest_wa7bnm_gcal in H. fold (feed_blocks text) in H.
  pose proof (ingest_blocks_inv
                (fun e => (exists b, In b (feed_blocks text) /\ ingest_block b = Built e) /\
                          is_in_window e = true)
                (feed_blocks text)) as Inv.
  assert (Hall : Forall (fun e => (exists b, In b (feed_blocks text) /\
                                             ingest_block b = Built e) /\
                                  is_in_window e = true) events).
  { apply (Inv (fun b e Hb Eb Ew => conj (ex_intro _ b (conj Hb Eb)) Ew) [] events).
    - constructor.
    - exact H. }
  rewrite Forall_forall in Hall. destruct (Hall e He) as [[b [Hb Eb]] Ew].
  split; [exists b; split; assumption|].
  split; [exact Ew|].
  destruct (ingest_block_built b e Eb) as [e0 [-> [Hc [Hs Ht]]]].
  destruct (tag_rest (add_category e0 (lit "contest"))) as [_ [_ ->]].
  destruct (tag_fields (add_category e0 (lit "contest"))) as [-> _].
  destruct (add_category_rest e0 (lit "contest")) as [_ [_ ->]].
  destruct (add_category_fields e0 (lit "contest")) as [-> _].
  split; [exact Hs|]. split; [exact Ht|].
  apply tagged_event; [exact Hc|]. left. reflexivity.
Qed.

(** X11: [ingest_wa7bnm_gcal] gives no event for a text without the marker
    BEGIN:VEVENT; it never gives more events than the feed has blocks; and
    one block with a start that cannot be parsed makes the whole call
    raise, so that the feed contributes nothing. *)
Theorem ingest_wa7bnm_gcal_edges (text : str) :
  (contains (lit "BEGIN:VEVENT") text = false -> ingest_wa7bnm_gcal text = Some []) /\
  (forall events,
     ingest_wa7bnm_gcal text = Some events ->
     (length events <= length (feed_blocks text))%nat) /\
  (forall b ds,
     In b (feed_blocks text) ->
     extract_ics_field (lit "BEGIN:VEVENT" ++ b) (lit "DTSTART") = Some ds ->
     ds <> [] ->
     parse_google_ics_datetime ds = None ->
     ingest_wa7bnm_gcal text = None).
Proof.
  split; [|split].
  - intros H. unfold ingest_wa7bnm_gcal, split.
    rewrite (split_from_absent _ [] text H). reflexivity.
  - intros events H. apply ingest_blocks_length in H. exact H.
  - intros b ds Hb Hds Hne Hp. unfold ingest_wa7bnm_gcal.
    apply (ingest_blocks_raised _ b Hb).
    unfold ingest_block. rewrite Hds.
    destruct ds as [|c ds]; [congruence|].
    cbn [truthy negb or_empty]. cbn [or_empty] in Hp. rewrite Hp. reflexivity.
Qed.

Lemma ingest_blocks_keeps (blocks : list str) :
  forall acc res,
    ingest_blocks blocks acc = Some res ->
    (forall x, In x acc -> In x res) /\
    (forall b e,
       In b blocks -> ingest_block b = Built e -> is_in_window e = true -> In e res).
Proof.
  induction blocks as [|b0 blocks IH]; intros acc res H.
  - injection H as <-. split; [auto|]. intros b e [].
  - cbn [ingest_blocks] in H. destruct (ingest_block b0) as [|e0|] eqn:E0; [| |discriminate].
    + destruct (IH _ _ H) as [A B]. split; [exact A|].
      intros b e [<-|Hb] Eb W; [congruence|]. exact (B b e Hb Eb W).
    + destruct (IH _ _ H) as [A B]. split.
      * intros x Hx. apply A.
        destruct (is_in_window e0); [apply in_or_app; left|]; assumption.
      * intros b e [<-|Hb] Eb W; [|exact (B b e Hb Eb W)].
        assert (e0 = e) by congruence. subst e0.
        apply A. rewrite W. apply in_or_app. right. left. reflexivity.
Qed.

(** A text made of the marker and a block without marker has that one
    block. *)
Lemma feed_blocks_one (b : str) :
  contains (lit "BEGIN:VEVENT") b = false ->
  feed_blocks (lit "BEGIN:VEVENT" ++ b) = [b].
Proof.
  intros H. unfold feed_blocks, split.
  change (split_from (lit "BEGIN:VEVENT") 0 [] (lit "BEGIN:VEVENT" ++ b))
    with ([] :: split_from (lit "BEGIN:VEVENT") 0 [] b).
  cbn [tl]. exact (split_from_absent _ [] b H).
Qed.

(** What the loop and the function make of a block, by the outcome of its
    iteration. *)
Lemma ingest_block_skipped_run (b : str) :
  ingest_block b = Skipped ->
  (forall rest events, ingest_blocks (b :: rest) events = ingest_blocks rest events) /\
  (forall text, feed_blocks text = [b] -> ingest_wa7bnm_gcal text = Some []).
Proof.
  intros E. split.
  - intros rest events. cbn [ingest_blocks]. rewrite E. reflexivity.
  - intros text Ht. unfold ingest_wa7bnm_gcal. fold (feed_blocks text). rewrite Ht.
    cbn [ingest_blocks]. rewrite E. reflexivity.
Qed.

Lemma ingest_block_built_run (b : str) (e : Event) :
  ingest_block b = Built e ->
  (forall rest events,
     ingest_blocks (b :: rest) events =
     ingest_blocks rest (if is_in_window e then events ++ [e] else events)) /\
  (forall text,
     feed_blocks text = [b] ->
     ingest_wa7bnm_gcal text = Some (if is_in_window e then [e] else [])) /\
  (forall text events,
     In b (feed_blocks text) -> ingest_wa7bnm_gcal text = Some events ->
     is_in_window e = true -> In e events).
Proof.
  intros E. split; [|split].
  - intros rest events. cbn [ingest_blocks]. rewrite E. reflexivity.
  - intros text Ht. unfold ingest_wa7bnm_gcal. fold (feed_blocks text). rewrite Ht.
    cbn [ingest_blocks]. rewrite E. destruct (is_in_window e); reflexivity.
  - intros text events Hb H W. unfold ingest_wa7bnm_gcal in H.
    fold (feed_blocks text) in H.
    exact (proj2 (ingest_blocks_keeps _ _ _ H) b e Hb E W).
Qed.

Lemma ingest_block_raised_run (b : str) :
  ingest_block b = Raised ->
  (forall rest events, ingest_blocks (b :: rest) events = None) /\
  (forall text, In b (feed_blocks text) -> ingest_wa7bnm_gcal text = None).
Proof.
  intros E. split.
  - intros rest events. cbn [ingest_blocks]. rewrite E. reflexivity.
  - intros text Hb. unfold ingest_wa7bnm_gcal. fold (feed_blocks text).
    exact (ingest_blocks_raised _ b Hb E []).
Qed.

(** C9 (amended): a block whose DTSTART is missing or empty is skipped: the
    loop goes on with the events it had, and a feed made of that block gives
    the empty list.  A block without SUMMARY whose dates parse gives an event
    titled Contest.  A block without DTEND whose start parses gives an event
    that ends one hour after its start when that instant is one that
    [datetime] has; the loop appends the event when it is in the window, a
    feed made of that block gives it, and so does every feed that has the
    block and is read to its end.  When the start lies in the last hour of
    the year 9999 the addition raises, the iteration raises and
    [ingest_wa7bnm_gcal] raises on every feed that holds the block. *)
Theorem ingest_block_missing_fields (b : str) :
  let vevent := lit "BEGIN:VEVENT" ++ b in
  (extract_ics_field vevent (lit "DTSTART") = None \/
   extract_ics_field vevent (lit "DTSTART") = Some [] ->
   ingest_block b = Skipped /\
   (forall rest events, ingest_blocks (b :: rest) events = ingest_blocks rest events) /\
   (forall text, feed_blocks text = [b] -> ingest_wa7bnm_gcal text = Some [])) /\
  (contains (lit "DTSTART") (unfold_ics vevent) = false ->
   extract_ics_field vevent (lit "DTSTART") = None) /\
  (forall ds st en,
     extract_ics_field vevent (lit "SUMMARY") = None ->
     extract_ics_field vevent (lit "DTSTART") = Some ds -> ds <> [] ->
     parse_google_ics_datetime ds = Some st ->
     (if truthy (extract_ics_field vevent (lit "DTEND"))
      then parse_google_ics_datetime (or_empty (extract_ics_field vevent (lit "DTEND")))
      else datetime_add st (timedelta_hours 1)) = Some en ->
     exists e,
       ingest_block b = Built e /\
       title e = lit "Contest" /\ start e = st /\ end_ e = en /\
       (forall rest events,
          ingest_blocks (b :: rest) events =
          ingest_blocks rest (if is_in_window e then events ++ [e] else events)) /\
       (forall text,
          feed_blocks text = [b] ->
          ingest_wa7bnm_gcal text = Some (if is_in_window e then [e] else [])) /\
       (forall text events,
          In b (feed_blocks text) -> ingest_wa7bnm_gcal text = Some events ->
          is_in_window e = true -> In e events)) /\
  (forall ds st,
     extract_ics_field vevent (lit "DTEND") = None ->
     extract_ics_field vevent (lit "DTSTART") = Some ds -> ds <> [] ->
     parse_google_ics_datetime ds = Some st ->
     (datetime_min <= st + timedelta_hours 1 <= datetime_max ->
      exists e,
        ingest_block b = Built e /\
        start e = st /\ end_ e = st + timedelta_hours 1 /\
        (forall rest events,
           ingest_blocks (b :: rest) events =
           ingest_blocks rest (if is_in_window e then events ++ [e] else events)) /\
        (forall text,
           feed_blocks text = [b] ->
           ingest_wa7bnm_gcal text = Some (if is_in_window e then [e] else [])) /\
        (forall text events,
           In b (feed_blocks text) -> ingest_wa7bnm_gcal text = Some events ->
           is_in_window e = true -> In e events)) /\
     (datetime_max < st + timedelta_hours 1 \/ st + timedelta_hours 1 < datetime_min ->
      ingest_block b = Raised /\
      (forall rest events, ingest_blocks (b :: rest) events = None) /\
      (forall text, In b (feed_blocks text) -> ingest_wa7bnm_gcal text = None))) /\
  (contains (lit "BEGIN:VEVENT") b = false ->
   feed_blocks (lit "BEGIN:VEVENT" ++ b) = [b]).
Proof.
  intros vevent. split; [|split; [|split; [|split]]].
  - intros H. assert (E : ingest_block b = Skipped).
    { unfold ingest_block. fold vevent. destruct H as [H|H]; rewrite H; reflexivity. }
    split; [assumption|]. exact (ingest_block_skipped_run b E).
  - apply extract_ics_field_absent.
  - intros ds st en Hsum Hds Hne Hst Hen.
    assert (E : exists e, ingest_block b = Built e /\
                          title e = lit "Contest" /\ start e = st /\ end_ e = en).
    { unfold ingest_block. fold vevent. rewrite Hsum, Hds.
      destruct ds as [|c ds]; [congruence|].
      cbn [truthy negb or_empty]. rewrite Hst. cbn [or_empty] in Hen. rewrite Hen.
      eexists. split; [reflexivity|].
      match goal with
      | |- context [tag_field_day (tag_modes (add_category ?x ?c))] =>
          destruct (ingest_tags_fields x c) as [Ht [Hs He]]
      end.
      rewrite ?Ht, ?Hs, ?He. repeat split. }
    destruct E as [e [E [Ht [Hs He]]]]. exists e.
    do 4 (split; [assumption|]). exact (ingest_block_built_run b e E).
  - intros ds st Hend Hds Hne Hst. split.
    + intros [Hmin Hmax].
      assert (E : exists e, ingest_block b = Built e /\
                            start e = st /\ end_ e = st + timedelta_hours 1).
      { unfold ingest_block. fold vevent. rewrite Hend, Hds.
        destruct ds as [|c ds]; [congruence|].
        cbn [truthy negb or_empty]. rewrite Hst.
        unfold datetime_add.
        rewrite (proj2 (Z.leb_le _ _) Hmin), (proj2 (Z.leb_le _ _) Hmax).
        cbn [andb].
        eexists. split; [reflexivity|].
        match goal with
        | |- context [tag_field_day (tag_modes (add_category ?x ?c))] =>
            destruct (ingest_tags_fields x c) as [Ht [Hs He]]
        end.
        rewrite ?Ht, ?Hs, ?He. repeat split. }
      destruct E as [e [E [Hs He]]]. exists e.
      do 3 (split; [assumption|]). exact (ingest_block_built_run b e E).
    + intros Hout.
      assert (E : ingest_block b = Raised).
      { unfold ingest_block. fold vevent. rewrite Hend, Hds.
        destruct ds as [|c ds]; [congruence|].
        cbn [truthy negb or_empty]. rewrite Hst.
        unfold datetime_add.
        destruct ((datetime_min <=? st + timedelta_hours 1) &&
                  (st + timedelta_hours 1 <=? datetime_max)) eqn:B; [|reflexivity].
        apply andb_true_iff in B. destruct B as [B1 B2].
        apply Z.leb_le in B1. apply Z.leb_le in B2. lia. }
      split; [assumption|]. exact (ingest_block_raised_run b E).
  - apply feed_blocks_one.
Qed.

(** ** Field Day, continued *)

Lemma datetime_add_some (a : datetime) (b : timedelta) (r : datetime) :
  datetime_add a b = Some r -> r = a + b.
Proof.
  unfold datetime_add. destruct (_ && _); [|discriminate]. intros H. now injection H.
Qed.

Lemma field_day_built (st en : datetime) :
  tag_field_day
    (add_category
       (mkEvent (lit "ARRL Field Day") st en
          (Some (lit "https://www.arrl.org/field-day"))
          (Some (lit "Computed as the 4th full weekend of June (Sat-Sun)."))
          [] (lit "arrl-field-day")) (lit "field-day"))
  = mkEvent (lit "ARRL Field Day") st en
      (Some (lit "https://www.arrl.org/field-day"))
      (Some (lit "Computed as the 4th full weekend of June (Sat-Sun)."))
      [lit "field-day"] (lit "arrl-field-day").
Proof. reflexivity. Qed.

Lemma field_day_event_shape (y : Z) :
  MINYEAR <= y <= MAXYEAR ->
  exists d e,
    22 <= d <= 28 /\
    field_day_event y = Some e /\
    start e = datetime_midnight (mkdate y 6 d) /\
    end_ e = start e + timedelta_days 2 /\
    title e = lit "ARRL Field Day" /\
    categories e = [lit "field-day"] /\
    source e = lit "arrl-field-day".
Proof.
  intros Hy.
  pose proof (field_day_check_year y Hy) as C. unfold field_day_check in C.
  destruct (fourth_full_weekend_saturday_of_june y) as [[ys ms ds]|] eqn:E; [|discriminate].
  cbn [year month day] in C.
  destruct (datetime_add _ _) as [en|] eqn:Eadd in C; [|now rewrite !andb_false_r in C].
  destruct (date_of y 6 (ds + 1)) as [sun|]; [|now rewrite !andb_false_r in C].
  destruct (date_of y 6 (ds + 2)) as [mon|]; [|now rewrite !andb_false_r in C].
  repeat (apply andb_true_iff in C; destruct C as [C ?]).
  repeat match goal with
         | H : (_ =? _) = true |- _ => apply Z.eqb_eq in H
         | H : (_ <=? _) = true |- _ => apply Z.leb_le in H
         end.
  subst ys ms.
  match goal with
  | H : (en =? _) && _ = true |- _ =>
      apply andb_true_iff in H; destruct H as [H _]; apply Z.eqb_eq in H; subst en
  end.
  exists ds. eexists. split; [lia|].
  unfold field_day_event. rewrite E, Eadd, field_day_built.
  split; [reflexivity|]. cbn [start end_ title categories source]. repeat split.
Qed.

Lemma field_day_event_after_last_year : field_day_event (MAXYEAR + 1) = None.
Proof. reflexivity. Qed.

Lemma days_before_next_year (y : Z) :
  364 <= days_before_year (y + 1) - days_before_year y.
Proof.
  unfold days_before_year. cbv zeta. replace (y + 1 - 1) with y by lia.
  Z.div_mod_to_equations. lia.
Qed.

Lemma june_next_year (y d1 d2 : Z) :
  22 <= d1 <= 28 -> 22 <= d2 <= 28 ->
  357 <= toordinal (mkdate (y + 1) 6 d2) - toordinal (mkdate y 6 d1).
Proof.
  intros H1 H2. unfold toordinal, ymd2ord. cbn [year month day].
  pose proof (days_before_next_year y).
  unfold days_before_month. change (DAYS_BEFORE_MONTH 6) with 151.
  destruct ((2 <? 6) && is_leap (y + 1)), ((2 <? 6) && is_leap y); lia.
Qed.

Lemma add_field_day_fixed_two :
  MINYEAR <= year (datetime_date NOW_UTC) < MAXYEAR ->
  exists d1 e1 d2 e2,
    22 <= d1 <= 28 /\ 22 <= d2 <= 28 /\
    field_day_event (year (datetime_date NOW_UTC)) = Some e1 /\
    field_day_event (year (datetime_date NOW_UTC) + 1) = Some e2 /\
    start e1 = datetime_midnight (mkdate (year (datetime_date NOW_UTC)) 6 d1) /\
    start e2 = datetime_midnight (mkdate (year (datetime_date NOW_UTC) + 1) 6 d2) /\
    end_ e1 = start e1 + timedelta_days 2 /\
    add_field_day_fixed =
      Some ((if is_in_window e1 then [e1] else []) ++
            (if is_in_window e2 then [e2] else [])).
Proof.
  intros Hy.
  destruct (field_day_event_shape (year (datetime_date NOW_UTC)))
    as [d1 [e1 [Hd1 [E1 [S1 [N1 _]]]]]];
    [unfold MINYEAR, MAXYEAR in *; lia|].
  destruct (field_day_event_shape (year (datetime_date NOW_UTC) + 1))
    as [d2 [e2 [Hd2 [E2 [S2 _]]]]];
    [unfold MINYEAR, MAXYEAR in *; lia|].
  exists d1, e1, d2, e2. repeat (split; [assumption|]).
  unfold add_field_day_fixed. cbn [field_day_loop]. rewrite E1, E2.
  destruct (is_in_window e1), (is_in_window e2); reflexivity.
Qed.

Lemma window_excludes_next_june (e1 e2 : Event) (d1 d2 y : Z) :
  22 <= d1 <= 28 -> 22 <= d2 <= 28 ->
  start e1 = datetime_midnight (mkdate y 6 d1) ->
  end_ e1 = start e1 + timedelta_days 2 ->
  start e2 = datetime_midnight (mkdate (y + 1) 6 d2) ->
  HORIZON_END_UTC = NOW_UTC + timedelta_days 62 ->
  is_in_window e1 = true -> is_in_window e2 = true -> False.
Proof.
  intros Hd1 Hd2 S1 N1 S2 Hh W1 W2.
  unfold is_in_window in W1, W2.
  apply andb_true_iff in W1. destruct W1 as [W1 _].
  apply andb_true_iff in W2. destruct W2 as [_ W2].
  apply Z.ltb_lt in W1. apply Z.ltb_lt in W2.
  pose proof (june_next_year y d1 d2 Hd1 Hd2) as J.
  rewrite N1, S1 in W1. rewrite S2, Hh in W2.
  unfold datetime_midnight, timedelta_days, US_PER_DAY, US_PER_SECOND in W1, W2.
  lia.
Qed.

Lemma add_field_day_fixed_last_year :
  year (datetime_date NOW_UTC) = MAXYEAR -> add_field_day_fixed = None.
Proof.
  intros Hy. unfold add_field_day_fixed. cbn [field_day_loop]. rewrite Hy.
  destruct (field_day_event_shape MAXYEAR) as [d [e [_ [E _]]]];
    [unfold MINYEAR, MAXYEAR; lia|].
  rewrite E, field_day_event_after_last_year. reflexivity.
Qed.

Lemma field_day_event_fields (yr : Z) (e : Event) :
  field_day_event yr = Some e ->
  title e = lit "ARRL Field Day" /\
  categories e = [lit "field-day"] /\
  source e = lit "arrl-field-day" /\
  end_ e = start e + timedelta_days 2 /\
  exists sat,
    fourth_full_weekend_saturday_of_june yr = Some sat /\
    start e = datetime_midnight sat.
Proof.
  unfold field_day_event.
  destruct (fourth_full_weekend_saturday_of_june yr) as [sat|]; [|discriminate].
  destruct (datetime_add _ _) as [en|] eqn:Ea; [|discriminate].
  apply datetime_add_some in Ea. subst en.
  rewrite field_day_built. intros H. injection H as <-.
  cbn [title categories source start end_]. repeat split.
  exists sat. split; reflexivity.
Qed.

(** X12: For a clock year from 1 to 9998 [add_field_day_fixed] returns a
    list, and with the horizon 62 days after the clock at most one event.
    Whenever it returns, each event is in the window, is titled ARRL Field
    Day, carries the label field-day and no other, lasts two days and starts
    at the midnight of the Saturday of the rule for this or the next year.
    In the year 9999 the following June has no date and the call raises. *)
Theorem add_field_day_fixed_shape :
  (MINYEAR <= year (datetime_date NOW_UTC) < MAXYEAR ->
   exists events,
     add_field_day_fixed = Some events /\
     (HORIZON_END_UTC = NOW_UTC + timedelta_days 62 -> (length events <= 1)%nat)) /\
  (forall events e,
     add_field_day_fixed = Some events -> In e events ->
     is_in_window e = true /\
     title e = lit "ARRL Field Day" /\
     categories e = [lit "field-day"] /\
     source e = lit "arrl-field-day" /\
     end_ e = start e + timedelta_days 2 /\
     exists yr sat,
       (yr = year (datetime_date NOW_UTC) \/ yr = year (datetime_date NOW_UTC) + 1) /\
       fourth_full_weekend_saturday_of_june yr = Some sat /\
       start e = datetime_midnight sat) /\
  (year (datetime_date NOW_UTC) = MAXYEAR -> add_field_day_fixed = None).
Proof.
  split; [|split].
  - intros Hy.
    destruct (add_field_day_fixed_two Hy)
      as [d1 [e1 [d2 [e2 [Hd1 [Hd2 [_ [_ [S1 [S2 [N1 E]]]]]]]]]]].
    eexists. split; [exact E|]. intros Hh.
    destruct (is_in_window e1) eqn:W1; destruct (is_in_window e2) eqn:W2;
      cbn [app length]; try lia.
    exfalso.
    exact (window_excludes_next_june e1 e2 d1 d2 _ Hd1 Hd2 S1 N1 S2 Hh W1 W2).
  - intros events e H He.
    destruct (add_field_day_fixed_events events e H He) as [yr [Hyr [Ey Ew]]].
    split; [exact Ew|].
    destruct (field_day_event_fields yr e Ey) as [Ht [Hc [Hs [Hn [sat [Hsat Hst]]]]]].
    repeat (split; [assumption|]).
    exists yr, sat. auto.
  - apply add_field_day_fixed_last_year.
Qed.

(** ** The contest page *)

Lemma iso_date_here_token (prev : option char) (s tok : str) :
  iso_date_here prev s = Some tok ->
  length tok = 10%nat /\ exists b, s = tok ++ b.
Proof.
  unfold iso_date_here.
  do 10 (destruct s as [|? s]; [discriminate|]).
  destruct (_ && _); [|discriminate].
  intros H. injection H as <-. split; [reflexivity|]. exists s. reflexivity.
Qed.

Lemma iso_date_search_token (s : str) :
  forall prev tok,
    iso_date_search prev s = Some tok ->
    length tok = 10%nat /\ exists a b, s = a ++ tok ++ b.
Proof.
  induction s as [|c s IH]; intros prev tok H.
  - discriminate.
  - cbn [iso_date_search] in H.
    destruct (iso_date_here prev (c :: s)) as [t|] eqn:E.
    + injection H as ->. apply iso_date_here_token in E. destruct E as [L [b E]].
      split; [exact L|]. exists [], b. exact E.
    + apply IH in H. destruct H as [L [a [b ->]]].
      split; [exact L|]. exists (c :: a), b. reflexivity.
Qed.

Lemma contest_line_built (line : str) (e : Event) :
  contest_line line = Built e ->
  exists tok d e0,
    strip line <> [] /\
    iso_date_search None (strip line) = Some tok /\
    strptime_Y_m_d tok = Some d /\
    e = tag (add_category e0 (lit "contest")) /\
    e0 = mkEvent (lit "ARRL: " ++ strip line) (datetime_midnight d)
           (datetime_midnight d + timedelta_days 1)
           (Some ARRL_CONTEST_CAL_URL) None [] (lit "arrl-contest").
Proof.
  unfold contest_line. destruct (strip line) as [|c l] eqn:El; [discriminate|].
  destruct (iso_date_search None (c :: l)) as [tok|]; [|discriminate].
  destruct (strptime_Y_m_d tok) as [d|] eqn:Ed; [|discriminate].
  destruct (datetime_add _ _) as [en|] eqn:Ea; [|discriminate].
  apply datetime_add_some in Ea. subst en.
  intros H. injection H as <-.
  exists tok, d. eexists. split; [discriminate|].
  split; [reflexivity|]. split; [exact Ed|]. split; reflexivity.
Qed.

Lemma contest_lines_inv (P : Event -> Prop) (lines : list str) :
  (forall l e, In l lines -> contest_line l = Built e -> is_in_window e = true -> P e) ->
  forall events res,
    Forall P events -> contest_lines lines events = Some res -> Forall P res.
Proof.
  induction lines as [|l lines IH]; intros HP events res Hev H.
  - injection H as <-. exact Hev.
  - cbn [contest_lines] in H.
    assert (HP' : forall l' e, In l' lines -> contest_line l' = Built e ->
                               is_in_window e = true -> P e)
      by (intros l' e Hl; apply HP; right; exact Hl).
    destruct (contest_line l) as [|e|] eqn:El; [| |discriminate].
    + exact (IH HP' events res Hev H).
    + apply (IH HP' _ res) in H; [exact H|].
      destruct (is_in_window e) eqn:Ew; [|exact Hev].
      apply Forall_app. split; [exact Hev|].
      constructor; [|constructor]. apply (HP l e); [left; reflexivity | exact El | exact Ew].
Qed.

Lemma contest_lines_raised (lines : list str) (l : str) :
  In l lines -> contest_line l = Raised ->
  forall events, contest_lines lines events = None.
Proof.
  induction lines as [|l' lines IH]; intros Hl Hr events; [destruct Hl|].
  cbn [contest_lines]. destruct Hl as [->|Hl].
  - rewrite Hr. reflexivity.
  - destruct (contest_line l'); [apply IH | apply IH | reflexivity]; assumption.
Qed.

Lemma contest_lines_skipped (lines : list str) :
  (forall l, In l lines -> contest_line l = Skipped) ->
  forall events, contest_lines lines events = Some events.
Proof.
  induction lines as [|l lines IH]; intros H events; [reflexivity|].
  cbn [contest_lines]. rewrite (H l) by (left; reflexivity).
  apply IH. intros l' Hl'. apply H. right. exact Hl'.
Qed.

(** X13: Every event that [ingest_arrl_contests] returns lies in the
    window, and is either one of the events of [add_field_day_fixed] or was
    built from a line of the stripped page that holds a date token: ten
    characters of the line that [strptime] read as the date of the start;
    the title is the line after the prefix ARRL, the event lasts one day,
    links to the contest calendar, and carries the label contest first,
    distinct labels, and only labels of contests. *)
Theorem ingest_arrl_contests_events (html_text : str) (events : list Event) (e : Event) :
  ingest_arrl_contests html_text = Some events -> In e events ->
  is_in_window e = true /\
  ((exists fd, add_field_day_fixed = Some fd /\ In e fd) \/
   (exists line tok d,
      In line (contest_page_lines html_text) /\
      iso_date_search None (strip line) = Some tok /\
      length tok = 10%nat /\
      (exists a b, strip line = a ++ tok ++ b) /\
      strptime_Y_m_d tok = Some d /\
      title e = lit "ARRL: " ++ strip line /\
      start e = datetime_midnight d /\
      end_ e = start e + timedelta_days 1 /\
      url e = Some ARRL_CONTEST_CAL_URL /\
      source e = lit "arrl-contest" /\
      (exists rest, categories e = lit "contest" :: rest) /\
      NoDup (categories e) /\
      (forall l, In l (categories e) -> In l contest_labels))).
Proof.
  unfold ingest_arrl_contests. fold (contest_page_lines html_text).
  destruct (contest_lines (contest_page_lines html_text) []) as [cs|] eqn:Ec; [|discriminate].
  destruct add_field_day_fixed as [fd|] eqn:Ef; [|discriminate].
  intros H He. injection H as <-. apply in_app_or in He. destruct He as [He|He].
  - pose proof (contest_lines_inv
                  (fun e => (exists l, In l (contest_page_lines html_text) /\
                                       contest_line l = Built e) /\
                            is_in_window e = true)
                  (contest_page_lines html_text)
                  (fun l e Hl El Ew => conj (ex_intro _ l (conj Hl El)) Ew)
                  [] cs (Forall_nil _) Ec) as Hall.
    rewrite Forall_forall in Hall. destruct (Hall e He) as [[line [Hl El]] Ew].
    split; [exact Ew|]. right.
    destruct (contest_line_built line e El) as [tok [d [e0 [Hne [Hs [Hd [-> He0]]]]]]].
    exists line, tok, d.
    destruct (iso_date_search_token _ _ _ Hs) as [Hlen Hab].
    destruct (tag_rest (add_category e0 (lit "contest"))) as [-> [_ ->]].
    destruct (tag_fields (add_category e0 (lit "contest"))) as [-> [-> ->]].
    destruct (add_category_rest e0 (lit "contest")) as [-> [_ ->]].
    destruct (add_category_fields e0 (lit "contest")) as [-> [-> ->]].
    assert (Hc : categories e0 = []) by (rewrite He0; reflexivity).
    pose proof (tagged_event e0 (lit "contest") Hc (or_introl eq_refl)) as [T1 [T2 T3]].
    rewrite He0 at 1 2 3 4 5 6. cbn [title start end_ url source].
    repeat (split; [assumption || reflexivity|]). exact T3.
  - destruct (add_field_day_fixed_events fd e Ef He) as [yr [_ [_ Ew]]].
    split; [exact Ew|]. left. exists fd. split; [reflexivity | exact He].
Qed.

(** X14: A stripped page none of whose lines holds a date token gives just
    the events of [add_field_day_fixed].  A single line whose token
    [strptime] rejects makes [ingest_arrl_contests] raise, and so does a
    failure of [add_field_day_fixed]: the events of the other lines and
    Field Day are then lost together. *)
Theorem ingest_arrl_contests_edges (html_text : str) :
  ((forall line, In line (contest_page_lines html_text) ->
                 iso_date_search None (strip line) = None) ->
   ingest_arrl_contests html_text = add_field_day_fixed) /\
  (forall line tok,
     In line (contest_page_lines html_text) ->
     iso_date_search None (strip line) = Some tok ->
     strptime_Y_m_d tok = None ->
     ingest_arrl_contests html_text = None) /\
  (add_field_day_fixed = None -> ingest_arrl_contests html_text = None).
Proof.
  unfold ingest_arrl_contests. fold (contest_page_lines html_text).
  split; [|split].
  - intros H. rewrite contest_lines_skipped.
    + destruct add_field_day_fixed; reflexivity.
    + intros l Hl. unfold contest_line. rewrite (H l Hl).
      destruct (strip l); reflexivity.
  - intros line tok Hl Hs Hd.
    rewrite (contest_lines_raised _ line Hl); [reflexivity|].
    unfold contest_line. destruct (strip line) as [|c l] eqn:E; [discriminate|].
    rewrite Hs, Hd. reflexivity.
  - intros H. rewrite H. destruct (contest_lines _ _); reflexivity.
Qed.

(** ** The hamfest pages *)

Lemma hamfest_line_built (line : str) (e : Event) :
  hamfest_line line = Built e ->
  exists at_match cap rest d,
    re_find_from HAMFEST_ROW_RE None (strip line) = Some (at_match, cap, rest) /\
    strptime_mdY (firstn 10 at_match) = Some d /\
    e = mkEvent (lit "Hamfest: " ++ strip (or_empty cap)) (datetime_midnight d)
          (datetime_midnight d + timedelta_days 1)
          (Some (lit "https://www.arrl.org/hamfests/search")) None
          [lit "hamfest"] (lit "arrl-hamfest").
Proof.
  unfold hamfest_line.
  destruct (re_find_from HAMFEST_ROW_RE None (strip line)) as [[[at_match cap] rest]|];
    [|discriminate].
  destruct (strptime_mdY (firstn 10 at_match)) as [d|] eqn:Ed; [|discriminate].
  destruct (datetime_add _ _) as [en|] eqn:Ea; [|discriminate].
  apply datetime_add_some in Ea. subst en.
  intros H. injection H as <-.
  exists at_match, cap, rest, d. repeat split. exact Ed.
Qed.

Lemma hamfest_lines_inv (P : Event -> Prop) (lines : list str) :
  (forall l e, In l lines -> hamfest_line l = Built e -> is_in_window e = true -> P e) ->
  forall events n res m,
    Forall P events -> hamfest_lines lines events n = Some (res, m) -> Forall P res.
Proof.
  induction lines as [|l lines IH]; intros HP events n res m Hev H.
  - injection H as <- _. exact Hev.
  - cbn [hamfest_lines] in H.
    assert (HP' : forall l' e, In l' lines -> hamfest_line l' = Built e ->
                               is_in_window e = true -> P e)
      by (intros l' e Hl; apply HP; right; exact Hl).
    destruct (hamfest_line l) as [|e|] eqn:El; [| |discriminate].
    + exact (IH HP' events n res m Hev H).
    + apply (IH HP') in H; [exact H|].
      destruct (is_in_window e) eqn:Ew; [|exact Hev].
      apply Forall_app. split; [exact Hev|].
      constructor; [|constructor]. apply (HP l e); [left; reflexivity | exact El | exact Ew].
Qed.

Lemma hamfest_pages_inv (P : Event -> Prop) (get : Z -> response) :
  (forall t l e,
     In l (splitlines t) -> hamfest_line l = Built e -> is_in_window e = true -> P e) ->
  forall left page events fetched res fetched',
    Forall P events ->
    hamfest_pages get left page events fetched = Some (res, fetched') ->
    Forall P res.
Proof.
  intros HP. induction left as [|left IH]; intros page events fetched res fetched' Hev H.
  - injection H as <- _. exact Hev.
  - cbn [hamfest_pages] in H.
    destruct (get page) as [|code body]; [discriminate|].
    destruct (code =? 404); [injection H as <- _; exact Hev|].
    destruct (is_error_status code); [discriminate|].
    destruct (hamfest_lines _ events 0) as [[ev n]|] eqn:El; [|discriminate].
    pose proof (hamfest_lines_inv P _ (HP (strip_html body)) _ _ _ _ Hev El) as Hev'.
    destruct n as [|n]; [injection H as <- _; exact Hev'|].
    destruct (2 <=? page).
    + destruct (any_event_date_in_text_after _ _) as [[|]|]; [| |discriminate].
      * injection H as <- _. exact Hev'.
      * exact (IH _ _ _ _ _ Hev' H).
    + exact (IH _ _ _ _ _ Hev' H).
Qed.

Lemma hamfest_pages_fetched (get : Z -> response) :
  forall left page events fetched res fetched',
    hamfest_pages get left page events fetched = Some (res, fetched') ->
    exists k,
      (k <= left)%nat /\ (left <> O -> k <> O) /\
      fetched' = fetched ++ pages_from page k /\
      forall p, page <= p < page + Z.of_nat k - 1 -> page_read (get p).
Proof.
  induction left as [|left IH]; intros page events fetched res fetched' H.
  - injection H as _ <-. exists O. cbn [pages_from]. rewrite app_nil_r.
    repeat split; try lia; congruence.
  - cbn [hamfest_pages] in H.
    assert (One : fetched' = fetched ++ [page] ->
                  exists k,
                    (k <= S left)%nat /\ (S left <> O -> k <> O) /\
                    fetched' = fetched ++ pages_from page k /\
                    forall p, page <= p < page + Z.of_nat k - 1 -> page_read (get p)).
    { intros ->. exists 1%nat. cbn [pages_from]. repeat split; try lia. }
    destruct (get page) as [|code body] eqn:Eg; [discriminate|].
    destruct (code =? 404) eqn:E404; [injection H as _ <-; apply One; reflexivity|].
    destruct (is_error_status code) eqn:Eerr; [discriminate|].
    destruct (hamfest_lines _ events 0) as [[ev n]|]; [|discriminate].
    destruct n as [|n]; [injection H as _ <-; apply One; reflexivity|].
    assert (Next : hamfest_pages get left (page + 1) ev (fetched ++ [page])
                   = Some (res, fetched') ->
                   exists k,
                     (k <= S left)%nat /\ (S left <> O -> k <> O) /\
                     fetched' = fetched ++ pages_from page k /\
                     forall p, page <= p < page + Z.of_nat k - 1 -> page_read (get p)).
    { intros H'. destruct (IH _ _ _ _ _ H') as [k [Hk [_ [-> Hp]]]].
      exists (S k). cbn [pages_from]. rewrite <- app_assoc.
      repeat split; try lia.
      intros p Hr. destruct (Z.eq_dec p page) as [->|Hne].
      - rewrite Eg. exists code, body. apply Z.eqb_neq in E404. auto.
      - apply Hp. lia. }
    destruct (2 <=? page).
    + destruct (any_event_date_in_text_after _ _) as [[|]|]; [| |discriminate].
      * injection H as _ <-. apply One. reflexivity.
      * exact (Next H).
    + exact (Next H).
Qed.

Lemma hamfest_pages_first (get : Z -> response) (left : nat) (page : Z)
    (events : list Event) (fetched : list Z) :
  (forall body,
     get page = Response 404 body ->
     hamfest_pages get (S left) page events fetched = Some (events, fetched ++ [page])) /\
  (get page = Failed -> hamfest_pages get (S left) page events fetched = None) /\
  (forall code body,
     get page = Response code body -> code <> 404 -> is_error_status code = true ->
     hamfest_pages get (S left) page events fetched = None).
Proof.
  cbn [hamfest_pages]. split; [|split].
  - intros body H. rewrite H. reflexivity.
  - intros H. rewrite H. reflexivity.
  - intros code body H Hne Herr. rewrite H.
    apply Z.eqb_neq in Hne. rewrite Hne, Herr. reflexivity.
Qed.

(** X15: Every event that [ingest_arrl_hamfests] returns lies in the window,
    carries the single label hamfest, has the hamfest source and link, a
    title made of the prefix Hamfest and a text without surrounding
    whitespace, starts at the midnight of a date and lasts one day. *)
Theorem ingest_arrl_hamfests_events (get : Z -> response) (events : list Event)
    (fetched : list Z) (e : Event) :
  ingest_arrl_hamfests get = Some (events, fetched) -> In e events ->
  is_in_window e = true /\
  categories e = [lit "hamfest"] /\
  source e = lit "arrl-hamfest" /\
  url e = Some (lit "https://www.arrl.org/hamfests/search") /\
  (exists t, title e = lit "Hamfest: " ++ t /\ strip t = t) /\
  (exists d, start e = datetime_midnight d) /\
  end_ e = start e + timedelta_days 1.
Proof.
  intros H He. unfold ingest_arrl_hamfests in H.
  pose proof (hamfest_pages_inv
                (fun e => (exists l, hamfest_line l = Built e) /\ is_in_window e = true)
                get (fun _ l e _ El Ew => conj (ex_intro _ l El) Ew)
                _ _ _ _ _ _ (Forall_nil _) H) as Hall.
  rewrite Forall_forall in Hall. destruct (Hall e He) as [[l El] Ew].
  split; [exact Ew|].
  destruct (hamfest_line_built l e El) as [at_match [cap [rest [d [_ [_ ->]]]]]].
  cbn [categories source url title start end_].
  repeat (split; [reflexivity|]). split; [|split; [|reflexivity]].
  - eexists. split; [reflexivity | apply strip_strip].
  - exists d. reflexivity.
Qed.

(** X16: [ingest_arrl_hamfests] requests the pages 1, 2, ... in turn, at
    least one and at most twelve, and each requested page but the last gave
    a response that is neither 404 nor an error.  A first page answered with
    404 gives no event without raising; a failed request or an error status
    other than 404 on the first page makes the call raise. *)
Theorem ingest_arrl_hamfests_pages (get : Z -> response) :
  (forall events fetched,
     ingest_arrl_hamfests get = Some (events, fetched) ->
     exists k,
       (1 <= k <= 12)%nat /\ fetched = pages_from 1 k /\
       forall p, 1 <= p < Z.of_nat k -> page_read (get p)) /\
  (forall body, get 1 = Response 404 body -> ingest_arrl_hamfests get = Some ([], [1])) /\
  (get 1 = Failed -> ingest_arrl_hamfests get = None) /\
  (forall code body,
     get 1 = Response code body -> code <> 404 -> is_error_status code = true ->
     ingest_arrl_hamfests get = None).
Proof.
  unfold ingest_arrl_hamfests, max_pages. split; [|split; [|split]].
  - intros events fetched H.
    destruct (hamfest_pages_fetched get _ _ _ _ _ _ H) as [k [Hk [Hk' [-> Hp]]]].
    exists k. split; [|split].
    + assert (k <> O) by (apply Hk'; discriminate). lia.
    + reflexivity.
    + intros p Hr. apply Hp. lia.
  - intros body H. exact (proj1 (hamfest_pages_first get 11 1 [] []) body H).
  - intros H. exact (proj1 (proj2 (hamfest_pages_first get 11 1 [] [])) H).
  - intros code body H Hne Herr.
    apply (proj2 (proj2 (hamfest_pages_first get 11 1 [] [])) code body); assumption.
Qed.

Lemma mdY_re_digit (prev : option char) (s : str) :
  match_here mdY_re prev s <> None -> exists c t, s = c :: t /\ is_decimal c = true.
Proof.
  destruct s as [|c t]; [intros H; exfalso; apply H; reflexivity|].
  unfold match_here, mdY_re. cbn [rmatch].
  destruct (is_decimal c) eqn:E; [|intros H; exfalso; apply H; reflexivity].
  intros _. exists c, t. split; [reflexivity | exact E].
Qed.

Lemma any_date_after_true (cutoff : date) (s : str) :
  forall skip,
    any_date_after_from cutoff skip s = Some true ->
    exists a b d,
      s = a ++ b /\ match_here mdY_re None b <> None /\
      strptime_mdY (firstn 10 b) = Some d /\ date_gtb d cutoff = true.
Proof.
  induction s as [|c s IH]; intros skip H; [discriminate|].
  assert (Tail : forall k, any_date_after_from cutoff k s = Some true ->
                           exists a b d,
                             c :: s = a ++ b /\ match_here mdY_re None b <> None /\
                             strptime_mdY (firstn 10 b) = Some d /\
                             date_gtb d cutoff = true).
  { intros k Hk. destruct (IH k Hk) as [a [b [d [-> Hr]]]].
    exists (c :: a), b, d. split; [reflexivity | exact Hr]. }
  cbn [any_date_after_from] in H. destruct skip as [|k]; [|exact (Tail k H)].
  destruct (match_here mdY_re None (c :: s)) as [m|] eqn:Em; [|exact (Tail O H)].
  destruct (strptime_mdY (firstn 10 (c :: s))) as [d|] eqn:Ed; [|discriminate].
  destruct (date_gtb d cutoff) eqn:Eg; [|exact (Tail 9%nat H)].
  exists [], (c :: s), d. split; [reflexivity|].
  split; [rewrite Em; discriminate|]. split; assumption.
Qed.

Lemma any_date_after_no_digit (cutoff : date) (s : str) :
  no_digit s = true -> any_date_after_from cutoff O s = Some false.
Proof.
  induction s as [|c s IH]; intros H; [reflexivity|].
  cbn [no_digit forallb] in H. apply andb_true_iff in H. destruct H as [Hc Hs].
  cbn [any_date_after_from].
  destruct (match_here mdY_re None (c :: s)) as [m|] eqn:Em.
  - destruct (mdY_re_digit None (c :: s)) as [c' [t [E Hd]]]; [rewrite Em; discriminate|].
    injection E as <- _. rewrite Hd in Hc. discriminate.
  - apply IH, Hs.
Qed.

(** X17: [any_event_date_in_text_after] answers [True] only when the text
    holds, at some position, a token of the shape dd/dd/dddd that [strptime]
    reads as a date later than the cutoff; on a text without a digit it
    answers [False] and does not raise. *)
Theorem any_event_date_in_text_after_sound (text : str) (cutoff : date) :
  (any_event_date_in_text_after text cutoff = Some true ->
   exists a b d,
     text = a ++ b /\ match_here mdY_re None b <> None /\
     strptime_mdY (firstn 10 b) = Some d /\ date_gtb d cutoff = true) /\
  (no_digit text = true -> any_event_date_in_text_after text cutoff = Some false).
Proof.
  split.
  - apply any_date_after_true.
  - apply any_date_after_no_digit.
Qed.

(** ** The run of [main] *)

Lemma wa_event_shape (b : str) (e : Event) : ingest_block b = Built e -> source_shape e.
Proof.
  intros H. destruct (ingest_block_built b e H) as [e0 [-> [Hc [Hs _]]]].
  left. split.
  - left. destruct (tag_rest (add_category e0 (lit "contest"))) as [_ [_ ->]].
    destruct (add_category_rest e0 (lit "contest")) as [_ [_ ->]]. exact Hs.
  - apply tagged_event; [exact Hc | left; reflexivity].
Qed.

Lemma contest_event_shape (line : str) (e : Event) :
  contest_line line = Built e -> source_shape e.
Proof.
  intros H. destruct (contest_line_built line e H) as [tok [d [e0 [_ [_ [_ [-> He0]]]]]]].
  left. split.
  - right. destruct (tag_rest (add_category e0 (lit "contest"))) as [_ [_ ->]].
    destruct (add_category_rest e0 (lit "contest")) as [_ [_ ->]].
    rewrite He0. reflexivity.
  - apply tagged_event; [rewrite He0; reflexivity | left; reflexivity].
Qed.

Lemma field_day_event_source (yr : Z) (e : Event) :
  field_day_event yr = Some e -> source_shape e.
Proof.
  unfold field_day_event.
  destruct (fourth_full_weekend_saturday_of_june yr) as [sat|]; [|discriminate].
  destruct (datetime_add _ _) as [en|]; [|discriminate].
  rewrite field_day_built. intros H. injection H as <-.
  right. left. split; reflexivity.
Qed.

Lemma hamfest_event_shape (line : str) (e : Event) :
  hamfest_line line = Built e -> source_shape e.
Proof.
  intros H. destruct (hamfest_line_built line e H) as [m [cap [rest [d [_ [_ ->]]]]]].
  right. right. split; reflexivity.
Qed.

Lemma wa_outcome_events (wa : option (list Event)) (e : Event) :
  wa_outcome wa -> In e (or_nil wa) -> is_in_window e = true /\ source_shape e.
Proof.
  intros [->|[text ->]] He; [destruct He|].
  destruct (ingest_wa7bnm_gcal text) as [events|] eqn:E; [|destruct He].
  cbn [or_nil] in He. unfold ingest_wa7bnm_gcal in E.
  pose proof (ingest_blocks_inv
                (fun e => is_in_window e = true /\ source_shape e) _
                (fun b e _ Eb Ew => conj Ew (wa_event_shape b e Eb))
                [] events (Forall_nil _) E) as Hall.
  rewrite Forall_forall in Hall. exact (Hall e He).
Qed.

Lemma arrl_outcome_events (arrl : option (list Event)) (e : Event) :
  arrl_outcome arrl -> In e (or_nil arrl) -> is_in_window e = true /\ source_shape e.
Proof.
  intros [->|[html_text ->]] He; [destruct He|].
  unfold ingest_arrl_contests in He.
  destruct (contest_lines _ []) as [cs|] eqn:Ec; [|destruct He].
  destruct add_field_day_fixed as [fd|] eqn:Ef; [|destruct He].
  cbn [or_nil] in He. apply in_app_or in He. destruct He as [He|He].
  - pose proof (contest_lines_inv
                  (fun e => is_in_window e = true /\ source_shape e) _
                  (fun l e _ El Ew => conj Ew (contest_event_shape l e El))
                  [] cs (Forall_nil _) Ec) as Hall.
    rewrite Forall_forall in Hall. exact (Hall e He).
  - destruct (add_field_day_fixed_events fd e Ef He) as [yr [_ [Ey Ew]]].
    split; [exact Ew | exact (field_day_event_source yr e Ey)].
Qed.

Lemma hf_outcome_events (hf : option (list Event)) (e : Event) :
  hf_outcome hf -> In e (or_nil hf) -> is_in_window e = true /\ source_shape e.
Proof.
  intros [->|[get ->]] He; [destruct He|].
  unfold ingest_arrl_hamfests in He.
  destruct (hamfest_pages get max_pages 1 [] []) as [[events fetched]|] eqn:E;
    [|destruct He].
  cbn [option_map fst or_nil] in He.
  pose proof (hamfest_pages_inv
                (fun e => is_in_window e = true /\ source_shape e) get
                (fun _ l e _ El Ew => conj Ew (hamfest_event_shape l e El))
                _ _ _ _ _ _ (Forall_nil _) E) as Hall.
  rewrite Forall_forall in Hall. exact (Hall e He).
Qed.

Lemma dedup_In (es : list Event) (e : Event) : In e (dedup es) -> In e es.
Proof.
  intros H. unfold dedup in H.
  apply (inv_last _ _ (dedup_dict_inv es)) in H.
  destruct H as [l1 [l2 [-> _]]]. apply in_or_app. right. left. reflexivity.
Qed.

Lemma dedup_keys (es : list Event) (k : key) :
  In k (map dedup_key (dedup es)) <-> In k (map dedup_key es).
Proof.
  unfold dedup. rewrite dict_keys_of_values.
  - apply (inv_keys _ _ (dedup_dict_inv es)).
  - apply (inv_key _ _ (dedup_dict_inv es)).
Qed.

Lemma source_shape_hamfest (e : Event) :
  source_shape e ->
  (mem (lit "hamfest") (categories e) = true <-> source e = lit "arrl-hamfest").
Proof.
  intros [[Hs Hl]|[[Hs Hc]|[Hs Hc]]].
  - split.
    + intros H. apply mem_In, Hl in H. apply mem_In in H. discriminate.
    + intros H. destruct Hs as [Hs|Hs]; rewrite Hs in H; discriminate.
  - rewrite Hs, Hc. split; discriminate.
  - rewrite Hs, Hc. split; reflexivity.
Qed.

Lemma source_shape_contest (e : Event) :
  source_shape e -> mem (lit "contest") (categories e) = true ->
  source e = lit "wa7bnm-gcal" \/ source e = lit "arrl-contest".
Proof.
  intros [[Hs Hl]|[[Hs Hc]|[Hs Hc]]] H.
  - exact Hs.
  - rewrite Hc in H. discriminate.
  - rewrite Hc in H. discriminate.
Qed.

(** X18: In a run of [main], whatever each source returned or however it
    failed: every event of the calendar [all] lies in the window and was
    returned by a source; no two of its events have the same key, and every
    key returned by a source is there; the calendars [cw], [phone] and
    [digital] hold only events of the two contest sources, and the calendar
    [hamfests] holds exactly the events of [all] that come from the hamfest
    source. *)
Theorem main_calendars_sound (wa arrl hf : option (list Event)) :
  wa_outcome wa -> arrl_outcome arrl -> hf_outcome hf ->
  (forall e, In e (cal_all (main_calendars wa arrl hf)) ->
     is_in_window e = true /\ In e (or_nil wa ++ or_nil arrl ++ or_nil hf)) /\
  NoDup (map dedup_key (cal_all (main_calendars wa arrl hf))) /\
  (forall e, In e (or_nil wa ++ or_nil arrl ++ or_nil hf) ->
     In (dedup_key e) (map dedup_key (cal_all (main_calendars wa arrl hf)))) /\
  (forall e,
     In e (cal_cw (main_calendars wa arrl hf)) \/
     In e (cal_phone (main_calendars wa arrl hf)) \/
     In e (cal_digital (main_calendars wa arrl hf)) ->
     source e = lit "wa7bnm-gcal" \/ source e = lit "arrl-contest") /\
  (forall e,
     In e (cal_hamfests (main_calendars wa arrl hf)) <->
     In e (cal_all (main_calendars wa arrl hf)) /\ source e = lit "arrl-hamfest").
Proof.
  intros Hwa Harrl Hhf.
  assert (Src : forall e, In e (or_nil wa ++ or_nil arrl ++ or_nil hf) ->
                          is_in_window e = true /\ source_shape e).
  { intros e He. apply in_app_or in He. destruct He as [He|He].
    - exact (wa_outcome_events wa e Hwa He).
    - apply in_app_or in He. destruct He as [He|He].
      + exact (arrl_outcome_events arrl e Harrl He).
      + exact (hf_outcome_events hf e Hhf He). }
  unfold main_calendars, split_calendars. rewrite split_calendars_from.
  cbn [cal_all cal_cw cal_phone cal_digital cal_hamfests app].
  assert (All : forall e, In e (main_events wa arrl hf) ->
                          is_in_window e = true /\ source_shape e)
    by (intros e He; apply Src, dedup_In, He).
  split; [|split; [|split; [|split]]].
  - intros e He. split; [apply All, He | apply dedup_In, He].
  - apply dedup_keys_NoDup.
  - intros e He. apply dedup_keys. apply in_map, He.
  - intros e He. unfold contests_labelled in He.
    assert (H : In e (main_events wa arrl hf) /\
                mem (lit "contest") (categories e) = true).
    { destruct He as [He|[He|He]]; apply filter_In in He; destruct He as [He Hb];
        apply andb_true_iff in Hb; destruct Hb as [Hb _]; split; assumption. }
    destruct H as [He' Hc]. apply source_shape_contest; [apply All, He' | exact Hc].
  - intros e. unfold labelled. rewrite filter_In. split.
    + intros [He Hm]. split; [exact He|].
      apply (source_shape_hamfest e); [apply All, He | exact Hm].
    + intros [He Hs]. split; [exact He|].
      apply (source_shape_hamfest e); [apply All, He | exact Hs].
Qed.

(** ** Markup stripping, continued *)

Lemma no_lt_suffix (t s : str) : suffix_of t s -> no_lt s = true -> no_lt t = true.
Proof.
  intros [a ->] H. unfold no_lt in *. rewrite forallb_app in H.
  now apply andb_true_iff in H.
Qed.

Lemma no_lt_startswith (p : str) (s : str) :
  no_lt s = true -> no_lt p = false -> startswith p s = false.
Proof.
  intros Hs Hp. destruct (startswith p s) eqn:E; [|reflexivity].
  apply startswith_iff in E. destruct E as [b ->].
  unfold no_lt in *. rewrite forallb_app in Hs.
  apply andb_true_iff in Hs. destruct Hs as [Hs _]. congruence.
Qed.

Lemma script_style_re_needs_lt (prev : option char) (s : str) :
  no_lt s = true -> match_here script_style_re prev s = None.
Proof.
  intros H. destruct s as [|c s]; [reflexivity|].
  cbn [no_lt forallb] in H. apply andb_true_iff in H. destruct H as [H _].
  apply negb_true_iff in H.
  unfold match_here, script_style_re. cbn [rmatch]. rewrite H. reflexivity.
Qed.

Lemma tag_re_needs_lt (prev : option char) (s : str) :
  no_lt s = true -> match_here tag_re prev s = None.
Proof.
  intros H. destruct s as [|c s]; [reflexivity|].
  cbn [no_lt forallb] in H. apply andb_true_iff in H. destruct H as [H _].
  apply negb_true_iff in H.
  unfold match_here, tag_re. cbn [rmatch]. rewrite H. reflexivity.
Qed.

Lemma br_re_needs_lt (prev : option char) (s : str) :
  no_lt s = true -> match_here br_re prev s = None.
Proof.
  intros Hs. destruct (match_here br_re prev s) as [m|] eqn:E; [|reflexivity].
  exfalso. unfold match_here, br_re in E.
  change (rmatch (Seq (Str (lit "<br\")) ?r) ?k None prev s)
    with (rmatch (Str (lit "<br\")) (rmatch r k) None prev s) in E.
  apply rmatch_Str_prefix in E.
  rewrite no_lt_startswith in E; [discriminate | assumption | reflexivity].
Qed.

Lemma p_close_re_needs_lt (prev : option char) (s : str) :
  no_lt s = true -> match_here p_close_re prev s = None.
Proof.
  intros Hs. destruct (match_here p_close_re prev s) as [m|] eqn:E; [|reflexivity].
  exfalso. unfold match_here, p_close_re in E.
  apply rmatch_Str_prefix in E.
  rewrite no_lt_startswith in E; [discriminate | assumption | reflexivity].
Qed.

Lemma strip_html_plain (h : str) : no_lt h = true -> strip_html h = html_unescape h.
Proof.
  intros Hh. unfold strip_html.
  rewrite (re_sub_no_match script_style_re)
    by (intros prev t Ht; apply script_style_re_needs_lt, (no_lt_suffix t h Ht Hh)).
  rewrite (re_sub_no_match br_re)
    by (intros prev t Ht; apply br_re_needs_lt, (no_lt_suffix t h Ht Hh)).
  rewrite (re_sub_no_match p_close_re)
    by (intros prev t Ht; apply p_close_re_needs_lt, (no_lt_suffix t h Ht Hh)).
  rewrite (re_sub_no_match tag_re)
    by (intros prev t Ht; apply tag_re_needs_lt, (no_lt_suffix t h Ht Hh)).
  reflexivity.
Qed.

Lemma lazy_to_gt (cap : option str) (s : str) :
  forall prev,
    star_lazy any_char
      (rmatch (Chr (char_eqb 62%N)) (fun cap _ rest => Some (cap, rest))) cap prev s
    = option_map (fun rest => (cap, rest)) (after_gt s).
Proof.
  induction s as [|c s IH]; intros prev; [reflexivity|].
  cbn [star_lazy rmatch after_gt any_char].
  destruct (char_eqb 62%N c); [reflexivity|]. apply IH.
Qed.

Lemma tag_re_here (prev : option char) (c : char) (s : str) :
  match_here tag_re prev (c :: s) =
  if char_eqb 60%N c then option_map (fun rest => (None, rest)) (after_gt s) else None.
Proof.
  unfold match_here, tag_re. cbn [rmatch].
  destruct (char_eqb 60%N c); [|reflexivity]. apply lazy_to_gt.
Qed.

Lemma after_gt_split (s rest : str) :
  after_gt s = Some rest -> exists a, s = a ++ 62%N :: rest.
Proof.
  revert rest. induction s as [|c s IH]; intros rest H; [discriminate|].
  cbn [after_gt] in H. char_case 62%N c.
  - injection H as <-. exists []. reflexivity.
  - destruct (IH rest H) as [a ->]. exists (c :: a). reflexivity.
Qed.

Lemma after_gt_none (s : str) : after_gt s = None <-> no_gt s = true.
Proof.
  induction s as [|c s IH]; [split; reflexivity|].
  cbn [after_gt no_gt forallb]. destruct (char_eqb 62%N c); cbn [negb andb].
  - split; discriminate.
  - exact IH.
Qed.

Lemma re_sub_from_skip (r : regex) (repl a rest : str) :
  forall prev,
    re_sub_from r repl (length a) prev (a ++ rest) =
    re_sub_from r repl O (fold_left (fun _ c => Some c) a prev) rest.
Proof.
  induction a as [|c a IH]; intros prev; [reflexivity|].
  cbn [length app fold_left]. rewrite <- IH. reflexivity.
Qed.

Lemma no_gt_tag_sub (s : str) :
  forall skip prev,
    no_gt s = true -> no_gt (re_sub_from tag_re [] skip prev s) = true.
Proof.
  induction s as [|c s IH]; intros skip prev H.
  - destruct skip; reflexivity.
  - cbn [no_gt forallb] in H. apply andb_true_iff in H. destruct H as [Hc Hs].
    destruct skip as [|k]; [|exact (IH k (Some c) Hs)].
    assert (M : match_here tag_re prev (c :: s) = None).
    { rewrite tag_re_here. destruct (char_eqb 60%N c); [|reflexivity].
      apply after_gt_none in Hs. rewrite Hs. reflexivity. }
    rewrite (re_sub_from_no_match _ _ _ _ _ M).
    cbn [no_gt forallb]. rewrite Hc. exact (IH O (Some c) Hs).
Qed.

Lemma tag_sub_no_tag (n : nat) :
  forall s prev,
    (length s <= n)%nat -> tag_left (re_sub_from tag_re [] O prev s) = false.
Proof.
  induction n as [|n IH]; intros s prev L.
  - destruct s; [reflexivity | cbn in L; lia].
  - destruct s as [|c s]; [reflexivity|]. cbn [length] in L.
    pose proof (tag_re_here prev c s) as M.
    destruct (char_eqb 60%N c) eqn:Ec.
    + destruct (after_gt s) as [rest|] eqn:Eg.
      * destruct (after_gt_split s rest Eg) as [a ->].
        rewrite (re_sub_from_match tag_re [] prev c _ None rest (length (a ++ [62%N])) M)
          by (cbn [length]; rewrite !length_app; cbn [length]; lia).
        cbn [app].
        change (a ++ 62%N :: rest) with (a ++ [62%N] ++ rest). rewrite app_assoc.
        rewrite re_sub_from_skip. apply IH.
        rewrite length_app in L. cbn [length] in L. lia.
      * rewrite (re_sub_from_no_match _ _ _ _ _ M).
        cbn [tag_left]. rewrite (IH s (Some c)) by lia.
        apply after_gt_none in Eg.
        rewrite (no_gt_tag_sub s O (Some c) Eg). rewrite andb_false_r. reflexivity.
    + rewrite (re_sub_from_no_match _ _ _ _ _ M).
      cbn [tag_left]. rewrite Ec. cbn [andb orb]. apply IH. lia.
Qed.

Lemma tag_left_false (t a b c : str) :
  tag_left t = false -> t <> a ++ 60%N :: b ++ 62%N :: c.
Proof.
  intros H ->. revert H. induction a as [|x a IH]; cbn [app tag_left]; intros H.
  - apply orb_false_iff in H. destruct H as [H _].
    cbn [char_eqb N.eqb Pos.eqb andb] in H. apply negb_false_iff in H.
    unfold no_gt in H. rewrite forallb_app in H. apply andb_true_iff in H.
    destruct H as [_ H]. cbn in H. discriminate.
  - apply orb_false_iff in H. destruct H as [_ H]. exact (IH H).
Qed.

(** X19: [strip_html] on a text without [<] only decodes the entities.  On
    any text, what the last substitution hands to [html.unescape] holds no
    tag any more: no [<] with a [>] somewhere after it.  On a text without a
    backslash the first two substitutions (script and style elements, line
    breaks) change nothing at all. *)
Theorem strip_html_tags_removed (h : str) :
  (no_lt h = true -> strip_html h = html_unescape h) /\
  (exists t,
     t = re_sub tag_re []
           (re_sub p_close_re [LF] (re_sub br_re [LF] (re_sub script_style_re [] h))) /\
     strip_html h = html_unescape t /\
     forall a b c, t <> a ++ 60%N :: b ++ 62%N :: c) /\
  (no_backslash h = true ->
   strip_html h = html_unescape (re_sub tag_re [] (re_sub p_close_re [LF] h))).
Proof.
  split; [apply strip_html_plain|]. split; [|apply strip_html_without_backslash].
  unfold strip_html. eexists. split; [reflexivity|]. split; [reflexivity|].
  intros a b c. apply tag_left_false. unfold re_sub at 1.
  apply (tag_sub_no_tag _ _ None (le_n _)).
Qed.

(** ** Date-only values *)

Lemma midnight_clock (d : date) :
  datetime_hour (datetime_midnight d) = 0 /\
  datetime_minute (datetime_midnight d) = 0 /\
  datetime_second (datetime_midnight d) = 0 /\
  datetime_microsecond (datetime_midnight d) = 0.
Proof.
  unfold datetime_hour, datetime_minute, datetime_second, datetime_microsecond,
    datetime_midnight, US_PER_DAY, US_PER_SECOND.
  generalize (toordinal d). intros n.
  rewrite Z.mod_mul by lia.
  replace (n * (86400 * 1000000)) with (n * 24 * (3600 * 1000000)) at 1 by lia.
  rewrite Z.mod_mul by lia.
  replace (n * (86400 * 1000000)) with (n * 1440 * (60 * 1000000)) at 1 by lia.
  rewrite Z.mod_mul by lia.
  replace (n * (86400 * 1000000)) with (n * 86400 * 1000000) by lia.
  rewrite Z.mod_mul by lia.
  repeat split.
Qed.

Lemma midnight_ics (d : date) :
  exists p, dt_to_ics (datetime_midnight d) = p ++ lit "T000000Z".
Proof.
  unfold dt_to_ics. destruct (midnight_clock d) as [-> [-> [-> _]]].
  exists (str_of_int (year (datetime_date (datetime_midnight d))) ++
          pad 2 (month (datetime_date (datetime_midnight d))) ++
          pad 2 (day (datetime_date (datetime_midnight d)))).
  rewrite <- !app_assoc. reflexivity.
Qed.

(** X20: [parse_google_ics_datetime] ignores whitespace around the value.
    For a value of eight digits the date parser is not consulted: the call
    raises exactly when [strptime] does, and the instant it returns has the
    clock reading 00:00:00, so that [dt_to_ics] writes it with the time
    000000. *)
Theorem parse_google_ics_datetime_date_only (value : str) :
  parse_google_ics_datetime (strip value) = parse_google_ics_datetime value /\
  (eight_digits (strip value) = true ->
   (parse_google_ics_datetime value = None <-> strptime_Ymd (strip value) = None) /\
   forall r,
     parse_google_ics_datetime value = Some r ->
     datetime_hour r = 0 /\ datetime_minute r = 0 /\ datetime_second r = 0 /\
     datetime_microsecond r = 0 /\
     exists p, dt_to_ics r = p ++ lit "T000000Z").
Proof.
  split.
  - unfold parse_google_ics_datetime. rewrite strip_strip. reflexivity.
  - intros H. unfold parse_google_ics_datetime. rewrite H.
    destruct (strptime_Ymd (strip value)) as [d|]; split.
    + split; discriminate.
    + intros r Hr. injection Hr as <-.
      destruct (midnight_clock d) as [H1 [H2 [H3 H4]]].
      repeat (split; [assumption|]). apply midnight_ics.
    + split; reflexivity.
    + intros r Hr. discriminate.
Qed.

(** ** Titles of the page events *)

Lemma star_greedy_keeps_cap {A : Type} (p : char -> bool) (k : @cont A)
    (cap : option str) (prev : option char) (s : str) (x : A) :
  star_greedy p k cap prev s = Some x ->
  exists prev' s', suffix_of s' s /\ k cap prev' s' = Some x.
Proof.
  revert prev. induction s as [|c s IH]; intros prev H; cbn [star_greedy] in H.
  - exists prev, []. split; [apply suffix_of_refl | assumption].
  - destruct (p c).
    + destruct (star_greedy p k cap (Some c) s) as [y|] eqn:E.
      * injection H as <-. destruct (IH _ E) as [prev' [s' [Hs Hk]]].
        exists prev', s'. split; [now apply suffix_of_cons | assumption].
      * exists prev, (c :: s). split; [apply suffix_of_refl | assumption].
    + exists prev, (c :: s). split; [apply suffix_of_refl | assumption].
Qed.

Lemma star_lazy_keeps_cap {A : Type} (p : char -> bool) (k : @cont A)
    (cap : option str) (prev : option char) (s : str) (x : A) :
  star_lazy p k cap prev s = Some x ->
  exists prev' s', suffix_of s' s /\ k cap prev' s' = Some x.
Proof.
  revert prev. induction s as [|c s IH]; intros prev H; cbn [star_lazy] in H.
  - destruct (k cap prev []) as [y|] eqn:E; [|discriminate].
    injection H as <-. exists prev, []. split; [apply suffix_of_refl | assumption].
  - destruct (k cap prev (c :: s)) as [y|] eqn:E.
    + injection H as <-. exists prev, (c :: s).
      split; [apply suffix_of_refl | assumption].
    + destruct (p c); [|discriminate].
      destruct (IH _ H) as [prev' [s' [Hs Hk]]].
      exists prev', s'. split; [now apply suffix_of_cons | assumption].
Qed.

(** A property of captures that holds of every piece of the text holds of
    the capture the continuation receives. *)
Lemma rmatch_capture {A : Type} (Q : option str -> Prop) (whole : str) (r : regex) :
  (forall t n, suffix_of t whole -> Q (Some (firstn n t))) ->
  forall (k : @cont A) cap prev s x,
    suffix_of s whole -> Q cap ->
    rmatch r k cap prev s = Some x ->
    exists cap' prev' s', suffix_of s' s /\ Q cap' /\ k cap' prev' s' = Some x.
Proof.
  intros HQ.
  induction r as [| p | r1 IH1 r2 IH2 | r1 IH1 r2 IH2 | r1 IH1 | p | p | | | r1 IH1];
    intros k cap prev s x Hs Hc H; cbn [rmatch] in H.
  - exists cap, prev, s. split; [apply suffix_of_refl | split; assumption].
  - destruct s as [|c s]; [discriminate|]. destruct (p c); [|discriminate].
    exists cap, (Some c), s.
    split; [apply suffix_of_cons, suffix_of_refl | split; assumption].
  - destruct (IH1 _ _ _ _ _ Hs Hc H) as [cap1 [prev1 [s1 [Hs1 [Hc1 H1]]]]].
    assert (Hw1 : suffix_of s1 whole) by (eapply suffix_of_trans; eassumption).
    destruct (IH2 _ _ _ _ _ Hw1 Hc1 H1) as [cap2 [prev2 [s2 [Hs2 [Hc2 H2]]]]].
    exists cap2, prev2, s2.
    split; [eapply suffix_of_trans; eassumption | split; assumption].
  - destruct (rmatch r1 k cap prev s) as [y|] eqn:E.
    + injection H as <-. apply (IH1 _ _ _ _ _ Hs Hc E).
    + apply (IH2 _ _ _ _ _ Hs Hc H).
  - destruct (rmatch r1 k cap prev s) as [y|] eqn:E.
    + injection H as <-. apply (IH1 _ _ _ _ _ Hs Hc E).
    + exists cap, prev, s. split; [apply suffix_of_refl | split; assumption].
  - apply star_greedy_keeps_cap in H. destruct H as [prev' [s' [Hs' H]]].
    exists cap, prev', s'. split; [assumption | split; assumption].
  - apply star_lazy_keeps_cap in H. destruct H as [prev' [s' [Hs' H]]].
    exists cap, prev', s'. split; [assumption | split; assumption].
  - destruct (at_bol prev); [|discriminate].
    exists cap, prev, s. split; [apply suffix_of_refl | split; assumption].
  - destruct (at_eol s); [|discriminate].
    exists cap, prev, s. split; [apply suffix_of_refl | split; assumption].
  - destruct (IH1 _ _ _ _ _ Hs Hc H) as [cap1 [prev1 [s1 [Hs1 [_ H1]]]]].
    eexists _, prev1, s1. split; [assumption | split; [|exact H1]].
    apply HQ. exact Hs.
Qed.

Lemma nolf_suffix (t s : str) : suffix_of t s -> nolf s = true -> nolf t = true.
Proof.
  intros [a ->] H. rewrite nolf_app in H. now apply andb_true_iff in H.
Qed.

Lemma nolf_rev (s : str) : nolf (rev s) = nolf s.
Proof.
  induction s as [|c s IH]; [reflexivity|].
  cbn [rev]. rewrite nolf_app, IH. cbn [nolf forallb].
  rewrite andb_true_r. apply andb_comm.
Qed.

Lemma nolf_lstrip (s : str) : nolf s = true -> nolf (lstrip s) = true.
Proof.
  induction s as [|c s IH]; intros H; [reflexivity|].
  cbn [lstrip]. destruct (is_space c); [|exact H].
  cbn [nolf forallb] in H. apply andb_true_iff in H. apply IH, H.
Qed.

Lemma nolf_strip (s : str) : nolf s = true -> nolf (strip s) = true.
Proof.
  intros H. unfold strip, rstrip. rewrite nolf_rev. apply nolf_lstrip.
  rewrite nolf_rev. apply nolf_lstrip, H.
Qed.

Lemma re_find_from_capture (r : regex) (s : str) :
  forall prev at_match cap rest,
    nolf s = true ->
    re_find_from r prev s = Some (at_match, cap, rest) ->
    nolf (or_empty cap) = true.
Proof.
  induction s as [|c s IH]; intros prev at_match cap rest Hs H; cbn [re_find_from] in H.
  - destruct (match_here r prev []) as [[cap' rest']|] eqn:E; [|discriminate].
    injection H as _ <- _. unfold match_here in E.
    destruct (rmatch_capture (fun cap => nolf (or_empty cap) = true) [] r
                (fun t n Ht => nolf_firstn n t (nolf_suffix t [] Ht eq_refl))
                _ None prev [] _ (suffix_of_refl _) eq_refl E)
      as [cap1 [prev1 [s1 [_ [Hc E1]]]]].
    injection E1 as <- _. exact Hc.
  - destruct (match_here r prev (c :: s)) as [[cap' rest']|] eqn:E.
    + injection H as _ <- _. unfold match_here in E.
      destruct (rmatch_capture (fun cap => nolf (or_empty cap) = true) (c :: s) r
                  (fun t n Ht => nolf_firstn n t (nolf_suffix t _ Ht Hs))
                  _ None prev (c :: s) _ (suffix_of_refl _) eq_refl E)
        as [cap1 [prev1 [s1 [_ [Hc E1]]]]].
      injection E1 as <- _. exact Hc.
    + cbn [nolf forallb] in Hs. apply andb_true_iff in Hs.
      exact (IH _ _ _ _ (proj2 Hs) H).
Qed.

Lemma linebreak_newline (c : char) : is_linebreak c = false -> not_newline c = true.
Proof.
  intros H. unfold not_newline. destruct (char_eqb c LF) eqn:E; [|reflexivity].
  apply N.eqb_eq in E. subst c. discriminate.
Qed.

Lemma splitlines_from_nolf (s : str) :
  forall after_cr acc,
    nolf acc = true ->
    Forall (fun l => nolf l = true) (splitlines_from after_cr acc s).
Proof.
  induction s as [|c s IH]; intros after_cr acc Ha; cbn [splitlines_from].
  - destruct acc; [constructor|].
    constructor; [|constructor]. rewrite nolf_rev. exact Ha.
  - destruct (after_cr && char_eqb c LF); [apply IH, Ha|].
    destruct (is_linebreak c) eqn:E.
    + constructor; [rewrite nolf_rev; exact Ha | apply IH; reflexivity].
    + apply IH. cbn [nolf forallb]. rewrite (linebreak_newline c E). exact Ha.
Qed.

Lemma splitlines_nolf (s : str) (l : str) : In l (splitlines s) -> nolf l = true.
Proof.
  intros H. pose proof (splitlines_from_nolf s false [] eq_refl) as F.
  rewrite Forall_forall in F. exact (F l H).
Qed.

Lemma contest_title_nolf (l : str) (e : Event) :
  nolf l = true -> contest_line l = Built e -> nolf (title e) = true.
Proof.
  intros Hl H. destruct (contest_line_built l e H) as [tok [d [e0 [_ [_ [_ [-> He0]]]]]]].
  destruct (tag_fields (add_category e0 (lit "contest"))) as [-> _].
  destruct (add_category_fields e0 (lit "contest")) as [-> _].
  rewrite He0. cbn [title]. rewrite nolf_app, (nolf_strip l Hl). reflexivity.
Qed.

Lemma hamfest_title_nolf (l : str) (e : Event) :
  nolf l = true -> hamfest_line l = Built e -> nolf (title e) = true.
Proof.
  intros Hl H. destruct (hamfest_line_built l e H) as [m [cap [rest [d [Hf [_ ->]]]]]].
  cbn [title]. rewrite nolf_app. cbn [andb].
  change (nolf (lit "Hamfest: ")) with true. cbn [andb].
  apply nolf_strip. apply (re_find_from_capture _ _ _ _ _ _ (nolf_strip l Hl) Hf).
Qed.

(** X21: No title of an event taken from the ARRL pages holds a line feed:
    the lines come from [splitlines], the contest title is the stripped
    line, and the hamfest title is a piece of the stripped line captured by
    the row pattern.  The Field Day title has none either. *)
Theorem page_titles_single_line :
  (forall html_text events e,
     ingest_arrl_contests html_text = Some events -> In e events ->
     nolf (title e) = true) /\
  (forall get events fetched e,
     ingest_arrl_hamfests get = Some (events, fetched) -> In e events ->
     nolf (title e) = true).
Proof.
  split.
  - intros html_text events e. unfold ingest_arrl_contests.
    destruct (contest_lines _ []) as [cs|] eqn:Ec; [|discriminate].
    destruct add_field_day_fixed as [fd|] eqn:Ef; [|discriminate].
    intros H He. injection H as <-. apply in_app_or in He. destruct He as [He|He].
    + pose proof (contest_lines_inv (fun e => nolf (title e) = true) _
                    (fun l e Hl El _ => contest_title_nolf l e (splitlines_nolf _ l Hl) El)
                    [] cs (Forall_nil _) Ec) as Hall.
      rewrite Forall_forall in Hall. exact (Hall e He).
    + destruct (add_field_day_fixed_events fd e Ef He) as [yr [_ [Ey _]]].
      destruct (field_day_event_fields yr e Ey) as [-> _]. reflexivity.
  - intros get events fetched e H He. unfold ingest_arrl_hamfests in H.
    pose proof (hamfest_pages_inv (fun e => nolf (title e) = true) get
                  (fun t l e Hl El _ => hamfest_title_nolf l e (splitlines_nolf t l Hl) El)
                  _ _ _ _ _ _ (Forall_nil _) H) as Hall.
    rewrite Forall_forall in Hall. exact (Hall e He).
Qed.

(** ** The description of an event with a link *)


(** ** A row of a hamfest page *)

Lemma mdY_re_token {A : Type} (k : @cont A) (cap : option str) (prev : option char)
    (t rest : str) :
  mdY_token t = true ->
  exists last, rmatch mdY_re k cap prev (t ++ rest) = k cap (Some last) rest.
Proof.
  unfold mdY_token.
  do 10 (destruct t as [|? t]; [discriminate|]). destruct t; [|discriminate].
  intros H. repeat (apply andb_true_iff in H; destruct H as [H ?]).
  eexists. unfold mdY_re. cbn [rmatch app].
  repeat match goal with
         | E : ?b = true |- context [if ?b then _ else _] => rewrite E
         end.
  reflexivity.
Qed.

Lemma mdY_token_length (t : str) : mdY_token t = true -> length t = 10%nat.
Proof.
  unfold mdY_token.
  do 10 (destruct t as [|? t]; [discriminate|]). destruct t; [reflexivity|discriminate].
Qed.

Lemma firstn_token (t rest : str) :
  mdY_token t = true -> firstn 10 (t ++ rest) = t.
Proof.
  unfold mdY_token.
  do 10 (destruct t as [|? t]; [discriminate|]). destruct t; [reflexivity|discriminate].
Qed.

Lemma row_tail_match (w1 w2 t : str) (cap : option str) (prev : option char) :
  forallb is_space w1 = true -> forallb is_space w2 = true ->
  t <> [] -> nolf t = true -> head_space t = false ->
  rmatch
    (Seq (Star is_space) (Seq (Chr (char_eqb 45%N)) (Seq (Star is_space)
       (Grp (Seq (Chr not_newline) (Star not_newline))))))
    (fun cap _ rest => Some (cap, rest)) cap prev (w1 ++ 45%N :: w2 ++ t)
  = Some (Some t, []).
Proof.
  intros H1 H2 Hne Hn Hh. destruct t as [|c t]; [congruence|].
  cbn [nolf forallb] in Hn. apply andb_true_iff in Hn. destruct Hn as [Hc Ht].
  cbn [head_space] in Hh.
  cbn [rmatch]. apply star_greedy_run; [exact H1|]. intros prev1.
  cbn [star_greedy is_space]. cbn [char_eqb N.eqb Pos.eqb].
  change (is_space 45%N) with false. cbn iota.
  apply star_greedy_run; [exact H2|]. intros prev2.
  cbn [star_greedy]. rewrite Hh, Hc.
  rewrite <- (app_nil_r t) at 1.
  apply star_greedy_run; [exact Ht|]. intros prev3.
  cbn [star_greedy].
  change (length (c :: t) - length (@nil N))%nat with (length (c :: t) - 0)%nat.
  rewrite Nat.sub_0_r, firstn_all. reflexivity.
Qed.

(** X23: A line made of a token dd/dd/dddd, optional whitespace, a hyphen,
    optional whitespace and a text gives, when [strptime] reads the token as
    a date, the hamfest event of that date: its title is the text of the
    row after the prefix Hamfest, it lasts one day and carries the label
    hamfest alone. *)
Theorem hamfest_line_row (tok w1 w2 t : str) (d : date) (en : datetime) :
  mdY_token tok = true -> head_space tok = false ->
  forallb is_space w1 = true -> forallb is_space w2 = true ->
  t <> [] -> nolf t = true -> strip t = t ->
  strptime_mdY tok = Some d ->
  datetime_add (datetime_midnight d) (timedelta_days 1) = Some en ->
  hamfest_line (tok ++ w1 ++ 45%N :: w2 ++ t) =
  Built (mkEvent (lit "Hamfest: " ++ t) (datetime_midnight d) en
           (Some (lit "https://www.arrl.org/hamfests/search")) None
           [lit "hamfest"] (lit "arrl-hamfest")).
Proof.
  intros Htok Hhead H1 H2 Hne Hn Hs Hd Ha.
  apply strip_fixed in Hs. destruct Hs as [Hs1 Hs2].
  assert (Hline : strip (tok ++ w1 ++ 45%N :: w2 ++ t) = tok ++ w1 ++ 45%N :: w2 ++ t).
  { apply strip_fixed. split.
    - pose proof (mdY_token_length tok Htok) as L.
      destruct tok as [|c tok]; [discriminate|]. exact Hhead.
    - change (45%N :: w2 ++ t) with ([45%N] ++ w2 ++ t).
      rewrite !rev_app_distr.
      destruct (rev t) as [|c r] eqn:Er.
      + apply (f_equal (@rev N)) in Er. rewrite rev_involutive in Er.
        cbn [rev] in Er. congruence.
      + exact Hs2. }
  unfold hamfest_line. rewrite Hline.
  assert (M : re_find_from HAMFEST_ROW_RE None (tok ++ w1 ++ 45%N :: w2 ++ t)
              = Some (tok ++ w1 ++ 45%N :: w2 ++ t, Some t, [])).
  { assert (M0 : match_here HAMFEST_ROW_RE None (tok ++ w1 ++ 45%N :: w2 ++ t)
                 = Some (Some t, [])).
    { unfold match_here, HAMFEST_ROW_RE.
      change (rmatch (Seq mdY_re ?r) ?k None None ?s)
        with (rmatch mdY_re (rmatch r k) None None s).
      destruct (mdY_re_token
                  (rmatch
                     (Seq (Star is_space) (Seq (Chr (char_eqb 45%N)) (Seq (Star is_space)
                        (Grp (Seq (Chr not_newline) (Star not_newline))))))
                     (fun cap _ rest => Some (cap, rest)))
                  None None tok (w1 ++ 45%N :: w2 ++ t) Htok) as [last ->].
      apply row_tail_match; assumption. }
    destruct tok as [|c tok]; [discriminate|].
    cbn [app re_find_from]. cbn [app] in M0. rewrite M0. reflexivity. }
  rewrite M, (firstn_token tok _ Htok), Hd, Ha.
  cbn [or_empty]. rewrite (proj2 (strip_fixed t) (conj Hs1 Hs2)). reflexivity.
Qed.

(** ** A line of the contest page *)

Lemma iso_date_here_token_found (tok b : str) :
  iso_token tok = true ->
  (forall c, is_decimal c = true -> is_word c = true) ->
  starts_non_word b = true ->
  iso_date_here None (tok ++ b) = Some tok.
Proof.
  unfold iso_token. intros H Hw Hb.
  do 10 (destruct tok as [|? tok]; [discriminate|]). destruct tok; [|discriminate].
  repeat (apply andb_true_iff in H; destruct H as [H ?]).
  cbn [app iso_date_here]. unfold word_boundary.
  repeat match goal with
         | E : is_decimal ?c = true |- _ =>
             try rewrite (Hw c E); rewrite E; clear E
         | E : char_eqb ?c 45%N = true |- _ => rewrite E; clear E
         end.
  destruct b as [|c b]; cbn [hd_error starts_non_word] in *.
  - reflexivity.
  - apply negb_true_iff in Hb. rewrite Hb. reflexivity.
Qed.

(** X24: A line that begins with a token dddd-dd-dd, followed by nothing or
    by a character that is no word character, gives, when [strptime] reads
    the token as a date, the one-day contest event of that date, titled with
    the whole line after the prefix ARRL and then tagged from that title. *)
Theorem contest_line_token (tok b : str) (d : date) (en : datetime) :
  iso_token tok = true ->
  (forall c, is_decimal c = true -> is_word c = true) ->
  starts_non_word b = true ->
  strip (tok ++ b) = tok ++ b ->
  strptime_Y_m_d tok = Some d ->
  datetime_add (datetime_midnight d) (timedelta_days 1) = Some en ->
  contest_line (tok ++ b) =
  Built (tag (add_category
                (mkEvent (lit "ARRL: " ++ tok ++ b) (datetime_midnight d) en
                   (Some ARRL_CONTEST_CAL_URL) None [] (lit "arrl-contest"))
                (lit "contest"))).
Proof.
  intros Htok Hw Hb Hs Hd Ha.
  pose proof (iso_date_here_token_found tok b Htok Hw Hb) as Hh.
  unfold contest_line. rewrite Hs.
  destruct (tok ++ b) as [|c l] eqn:E.
  - destruct tok; discriminate.
  - cbn [iso_date_search]. rewrite Hh, Hd, Ha. reflexivity.
Qed.

End HamCal.

(** * Instances

    The theorems above that carry hypotheses, applied to the sample run, and
    the inputs on which statements of the specification fail. *)

Lemma is_in_window_iff_witness :
  datetime_add now_2024 (timedelta_days 62) = Some horizon_2024 /\
  horizon_2024 = HORIZON_END_UTC now_2024 /\
  (is_in_window now_2024 sprint = true <->
     now_2024 < end_ sprint /\ start sprint < now_2024 + timedelta_days 62).
Proof.
  assert (H : datetime_add now_2024 (timedelta_days 62) = Some horizon_2024)
    by reflexivity.
  split; [exact H|].
  destruct (is_in_window_iff now_2024 sprint) as [_ [Hh [Hw _]]].
  split; [exact (Hh horizon_2024 H) | exact Hw].
Defined.



Lemma fmt_duration_sub_minute_witness :
  0 < 59999999 - 0 < 60 * US_PER_SECOND /\ fmt_duration 0 59999999 = lit "0m".
Proof.
  split; [split; reflexivity|].
  apply (fmt_duration_sub_minute 0 59999999). split; reflexivity.
Defined.

Lemma dedup_last_write_wins_witness :
  title sprint = title sprint_again /\
  start sprint = start sprint_again /\
  source sprint = source sprint_again /\
  dedup [sprint; sprint_again] = [sprint_again] /\
  isoformat (start sprint) <> isoformat (start sprint_later) /\
  dedup [sprint; sprint_later] = [sprint; sprint_later].
Proof.
  do 3 (split; [reflexivity|]).
  destruct (dedup_last_write_wins [sprint; sprint_again]) as [_ [_ [_ [H [_ D]]]]].
  split; [exact (proj1 (H sprint sprint_again eq_refl eq_refl eq_refl))|].
  assert (N : isoformat (start sprint) <> isoformat (start sprint_later))
    by (intros E; discriminate E).
  split; [exact N|].
  exact (proj1 (D sprint sprint_later (or_intror (or_introl N)))).
Defined.

Lemma field_day_rule_witness :
  MINYEAR <= 2024 <= MAXYEAR /\
  year (datetime_date now_2024) = 2024 /\
  (exists f,
     1 <= f <= 7 /\
     fourth_full_weekend_saturday_of_june 2024 = Some (mkdate 2024 6 (f + 21))) /\
  field_day_loop now_2024 ascii_table [2024] [] = Some [field_day_2024] /\
  add_field_day_fixed now_2024 ascii_table = Some [field_day_2024].
Proof.
  assert (Hy : MINYEAR <= 2024 <= MAXYEAR) by (split; discriminate).
  split; [exact Hy|]. split; [reflexivity|].
  destruct (field_day_rule now_2024 ascii_table 2024 Hy)
    as [[f [Hf [_ [_ [Hsat [_ [_ [e [E [_ [_ [_ [_ [_ [_ [Hloop [Hfix _]]]]]]]]]]]]]]]]] _].
  split; [exists f; split; assumption|].
  assert (E1 : field_day_event ascii_table 2024 = Some field_day_2024) by reflexivity.
  rewrite E1 in E. injection E as <-.
  split; [exact Hloop|].
  destruct (Hfix eq_refl eq_refl) as [e2 [E2 Hadd]].
  assert (E3 : field_day_event ascii_table 2025 =
               Some (mkEvent (lit "ARRL Field Day") (datetime_midnight (mkdate 2025 6 28))
                       (datetime_midnight (mkdate 2025 6 30))
                       (Some (lit "https://www.arrl.org/field-day"))
                       (Some (lit "Computed as the 4th full weekend of June (Sat-Sun)."))
                       [lit "field-day"] (lit "arrl-field-day"))) by reflexivity.
  change (2024 + 1) with 2025 in E2. rewrite E3 in E2. injection E2 as <-.
  exact Hadd.
Defined.

Lemma classifier_spec_witness :
  In (lit "phone") mode_labels /\
  In (lit "phone") (classify ascii_table (lit "ABC SSB Sprint") None) /\
  In (lit "phone")
     (classify ascii_table (lit "2024 " ++ lit "ABC SSB Sprint" ++ lit " (CW too)")
        (Some ([] ++ [] ++ lit "see rules"))).
Proof.
  assert (Hl : In (lit "phone") mode_labels) by (apply mem_In; reflexivity).
  assert (Hc : In (lit "phone") (classify ascii_table (lit "ABC SSB Sprint") None))
    by (apply mem_In; reflexivity).
  do 2 (split; [assumption|]).
  destruct (classifier_spec ascii_table) as [_ [_ [_ [H _]]]].
  exact (H (lit "ABC SSB Sprint") None (lit "2024 ") (lit " (CW too)") []
           (lit "see rules") (lit "phone") Hl Hc).
Defined.

Lemma ingest_block_missing_fields_witness :
  extract_ics_field (lit "BEGIN:VEVENT" ++ bare_block) (lit "DTEND") = None /\
  extract_ics_field (lit "BEGIN:VEVENT" ++ bare_block) (lit "SUMMARY") = None /\
  extract_ics_field (lit "BEGIN:VEVENT" ++ bare_block) (lit "DTSTART") = Some (lit "20240622") /\
  parse_google_ics_datetime ascii_digit strptime_ascii no_parser (lit "20240622")
    = Some (datetime_midnight (mkdate 2024 6 22)) /\
  datetime_min <= datetime_midnight (mkdate 2024 6 22) + timedelta_hours 1 <= datetime_max /\
  feed_blocks feed_2024 = [bare_block] /\
  (exists e,
     ingest_block ascii_table ascii_digit strptime_ascii no_parser bare_block = Built e /\
     title e = lit "Contest" /\
     start e = datetime_midnight (mkdate 2024 6 22) /\
     end_ e = datetime_midnight (mkdate 2024 6 22) + timedelta_hours 1) /\
  ingest_wa7bnm_gcal now_2024 ascii_table ascii_digit strptime_ascii no_parser feed_2024
    = Some [feed_event].
Proof.
  assert (R : datetime_min <= datetime_midnight (mkdate 2024 6 22) + timedelta_hours 1
              <= datetime_max) by (split; discriminate).
  do 4 (split; [reflexivity|]). split; [exact R|]. split; [reflexivity|].
  destruct (ingest_block_missing_fields now_2024 ascii_table ascii_digit
              strptime_ascii no_parser bare_block) as [_ [_ [Hsum [Hend _]]]].
  split.
  - destruct (Hsum (lit "20240622") (datetime_midnight (mkdate 2024 6 22))
                (datetime_midnight (mkdate 2024 6 22) + timedelta_hours 1)
                eq_refl eq_refl ltac:(discriminate) eq_refl eq_refl)
      as [e [E [Ht [Hs [He _]]]]].
    exists e. repeat split; assumption.
  - destruct (Hend (lit "20240622") (datetime_midnight (mkdate 2024 6 22))
                eq_refl eq_refl ltac:(discriminate) eq_refl) as [Hin _].
    destruct (Hin R) as [e [E [_ [_ [_ [Hfeed _]]]]]].
    assert (E' : ingest_block ascii_table ascii_digit strptime_ascii no_parser bare_block
                 = Built feed_event) by reflexivity.
    rewrite E' in E. injection E as <-.
    exact (Hfeed feed_2024 eq_refl).
Defined.

(** A start in the last hour of the year 9999 without an end: the default
    end does not exist, and the missing field ends the whole reading of the
    feed with an exception. *)
Lemma missing_end_overflows :
  extract_ics_field (lit "BEGIN:VEVENT" ++ late_block) (lit "DTEND") = None /\
  extract_ics_field (lit "BEGIN:VEVENT" ++ late_block) (lit "DTSTART")
    = Some (lit "99991231T233000Z") /\
  parse_google_ics_datetime ascii_digit strptime_ascii parse_basic_utc
    (lit "99991231T233000Z")
    = Some (datetime_midnight (mkdate 9999 12 31) + timedelta_hours 23
            + 30 * 60 * US_PER_SECOND) /\
  datetime_add (datetime_midnight (mkdate 9999 12 31) + timedelta_hours 23
                + 30 * 60 * US_PER_SECOND) (timedelta_hours 1) = None /\
  feed_blocks feed_late = [late_block] /\
  ingest_block ascii_table ascii_digit strptime_ascii parse_basic_utc late_block = Raised /\
  ingest_wa7bnm_gcal now_2024 ascii_table ascii_digit strptime_ascii parse_basic_utc feed_late
    = None.
Proof. repeat split. Qed.

(** The field-day label is lost when the title grows: the keyword was found
    across the space that joins title and description. *)
Lemma classifier_not_monotone :
  mem (lit "field-day") (classify ascii_table (lit "Field") (Some (lit "Day"))) = true /\
  mem (lit "field-day")
      (classify ascii_table (lit "Field" ++ lit " trip") (Some (lit "Day" ++ []))) = false.
Proof. split; reflexivity. Qed.



(** ** Instances of the further properties *)

Lemma dedup_distinct_keys_witness :
  NoDup (map dedup_key [sprint; big_fest]) /\
  dedup [sprint; big_fest] = [sprint; big_fest].
Proof.
  assert (H : NoDup (map dedup_key [sprint; big_fest])).
  { constructor; [|constructor; [intros []|constructor]].
    intros [E|[]]. discriminate E. }
  split; [exact H|].
  exact (proj1 (dedup_distinct_keys [sprint; big_fest]) H).
Defined.

Lemma tagging_appends_once_witness :
  NoDup (categories sprint) /\
  NoDup (categories (tag ascii_table sprint)).
Proof.
  assert (H : NoDup (categories sprint)).
  { constructor; [|constructor; [intros []|constructor]].
    intros [E|[]]. discriminate E. }
  split; [exact H|].
  exact (proj1 (proj2 (tagging_appends_once ascii_table sprint)) H).
Defined.

Lemma build_ics_order_independent_witness :
  Permutation [sprint; big_fest] [big_fest; sprint] /\
  NoDup (map start [sprint; big_fest]) /\
  build_ics now_2024 zero_digest (lit "HAMCAL") [sprint; big_fest] =
  build_ics now_2024 zero_digest (lit "HAMCAL") [big_fest; sprint].
Proof.
  assert (P : Permutation [sprint; big_fest] [big_fest; sprint]) by apply perm_swap.
  assert (N : NoDup (map start [sprint; big_fest])).
  { constructor; [|constructor; [intros []|constructor]].
    intros [E|[]]. discriminate E. }
  split; [exact P|]. split; [exact N|].
  exact (build_ics_order_independent now_2024 zero_digest (lit "HAMCAL") _ _ P N).
Defined.


Lemma ics_escape_injective_witness :
  ics_escape (lit "a,b") = ics_escape (lit "a" ++ lit ",b") /\
  lit "a,b" = lit "a" ++ lit ",b".
Proof.
  split; [reflexivity|].
  exact (proj1 (ics_escape_injective (lit "a,b") (lit "a" ++ lit ",b")) eq_refl).
Defined.

Lemma unfold_ics_folded_witness :
  no_fold (lit "SUMMARY:Field ") = true /\
  space_or_tab 32%N = true /\
  no_fold (lit "Day") = true /\
  unfold_ics (lit "SUMMARY:Field " ++ CRLF ++ 32%N :: lit "Day") = lit "SUMMARY:Field " ++ lit "Day".
Proof.
  do 3 (split; [reflexivity|]).
  exact (proj2 (unfold_ics_folded (lit "SUMMARY:Field ") 32%N (lit "Day") eq_refl eq_refl)
           eq_refl).
Defined.

Lemma extract_ics_field_first_line_witness :
  forallb line_ok
    ([lit "BEGIN:VEVENT"] ++
     (lit "DTSTART" ++ params_text (Some (lit "VALUE=DATE")) ++ 58%N :: lit "20240622")
     :: [lit "DTSTART:20250101"; lit "END:VEVENT"]) = true /\
  Forall (skipped (lit "DTSTART")) [lit "BEGIN:VEVENT"] /\
  no_colon (or_empty (Some (lit "VALUE=DATE"))) = true /\
  extract_ics_field
    (lines_text
       ([lit "BEGIN:VEVENT"] ++
        (lit "DTSTART" ++ params_text (Some (lit "VALUE=DATE")) ++ 58%N :: lit "20240622")
        :: [lit "DTSTART:20250101"; lit "END:VEVENT"]))
    (lit "DTSTART")
  = Some (strip (lit "20240622")).
Proof.
  assert (S : Forall (skipped (lit "DTSTART")) [lit "BEGIN:VEVENT"]).
  { constructor; [|constructor]. apply skipped_lit; reflexivity. }
  split; [reflexivity|]. split; [exact S|]. split; [reflexivity|].
  exact (extract_ics_field_first_line (lit "DTSTART") (Some (lit "VALUE=DATE"))
           (lit "20240622") [lit "BEGIN:VEVENT"]
           [lit "DTSTART:20250101"; lit "END:VEVENT"] eq_refl S eq_refl).
Defined.

Lemma ingest_wa7bnm_gcal_events_witness :
  ingest_wa7bnm_gcal now_2024 ascii_table ascii_digit strptime_ascii
    no_parser feed_2024 = Some [feed_event] /\
  In feed_event [feed_event] /\
  is_in_window now_2024 feed_event = true /\
  NoDup (categories feed_event).
Proof.
  assert (H : ingest_wa7bnm_gcal now_2024 ascii_table ascii_digit
                strptime_ascii no_parser feed_2024 = Some [feed_event]) by reflexivity.
  assert (I : In feed_event [feed_event]) by (left; reflexivity).
  split; [exact H|]. split; [exact I|].
  destruct (ingest_wa7bnm_gcal_events now_2024 ascii_table ascii_digit
              strptime_ascii no_parser feed_2024 [feed_event] feed_event H I)
    as [_ [Hw [_ [_ [_ [Hn _]]]]]].
  split; [exact Hw | exact Hn].
Defined.

Lemma ingest_wa7bnm_gcal_edges_witness :
  In (CRLF ++ lit "DTSTART:tomorrow" ++ CRLF ++ lit "END:VEVENT" ++ CRLF)
     (feed_blocks feed_bad_start) /\
  extract_ics_field
    (lit "BEGIN:VEVENT" ++ CRLF ++ lit "DTSTART:tomorrow" ++ CRLF ++ lit "END:VEVENT" ++ CRLF)
    (lit "DTSTART") = Some (lit "tomorrow") /\
  lit "tomorrow" <> [] /\
  parse_google_ics_datetime ascii_digit strptime_ascii no_parser (lit "tomorrow") = None /\
  ingest_wa7bnm_gcal now_2024 ascii_table ascii_digit strptime_ascii
    no_parser feed_bad_start = None.
Proof.
  assert (I : In (CRLF ++ lit "DTSTART:tomorrow" ++ CRLF ++ lit "END:VEVENT" ++ CRLF)
                 (feed_blocks feed_bad_start)) by (left; reflexivity).
  assert (N : lit "tomorrow" <> []) by discriminate.
  split; [exact I|]. split; [reflexivity|]. split; [exact N|]. split; [reflexivity|].
  exact (proj2 (proj2 (ingest_wa7bnm_gcal_edges now_2024 ascii_table
                         ascii_digit strptime_ascii no_parser feed_bad_start))
           _ (lit "tomorrow") I eq_refl N eq_refl).
Defined.

Lemma add_field_day_fixed_shape_witness :
  MINYEAR <= year (datetime_date now_2024) < MAXYEAR /\
  HORIZON_END_UTC now_2024 = now_2024 + timedelta_days 62 /\
  exists events,
    add_field_day_fixed now_2024 ascii_table = Some events /\
    (length events <= 1)%nat.
Proof.
  assert (Y : MINYEAR <= year (datetime_date now_2024) < MAXYEAR)
    by (split; [discriminate | reflexivity]).
  assert (Hh : HORIZON_END_UTC now_2024 = now_2024 + timedelta_days 62) by reflexivity.
  split; [exact Y|]. split; [exact Hh|].
  destruct (proj1 (add_field_day_fixed_shape now_2024 ascii_table) Y)
    as [events [E L]].
  exists events. split; [exact E | exact (L Hh)].
Defined.

Lemma ingest_arrl_contests_events_witness :
  ingest_arrl_contests now_2024 ascii_table no_entities ascii_digit
    word_char strptime_dashes contest_page = Some [vhf_contest; field_day_2024] /\
  In vhf_contest [vhf_contest; field_day_2024] /\
  is_in_window now_2024 vhf_contest = true.
Proof.
  assert (H : ingest_arrl_contests now_2024 ascii_table no_entities
                ascii_digit word_char strptime_dashes contest_page
              = Some [vhf_contest; field_day_2024]) by reflexivity.
  assert (I : In vhf_contest [vhf_contest; field_day_2024]) by (left; reflexivity).
  split; [exact H|]. split; [exact I|].
  exact (proj1 (ingest_arrl_contests_events now_2024 ascii_table no_entities
                  ascii_digit word_char strptime_dashes contest_page _ _ H I)).
Defined.

Lemma ingest_arrl_contests_edges_witness :
  In (lit "2024-13-45 Sprint") (contest_page_lines no_entities contest_page_bad) /\
  iso_date_search ascii_digit word_char None (strip (lit "2024-13-45 Sprint"))
    = Some (lit "2024-13-45") /\
  strptime_dashes (lit "2024-13-45") = None /\
  ingest_arrl_contests now_2024 ascii_table no_entities ascii_digit
    word_char strptime_dashes contest_page_bad = None.
Proof.
  assert (I : In (lit "2024-13-45 Sprint") (contest_page_lines no_entities contest_page_bad))
    by (left; reflexivity).
  split; [exact I|]. do 2 (split; [reflexivity|]).
  exact (proj1 (proj2 (ingest_arrl_contests_edges now_2024 ascii_table
                         no_entities ascii_digit word_char strptime_dashes
                         contest_page_bad))
           _ (lit "2024-13-45") I eq_refl eq_refl).
Defined.

Lemma ingest_arrl_hamfests_events_witness :
  ingest_arrl_hamfests now_2024 no_entities ascii_digit strptime_slashes
    hamfest_site = Some ([big_fest], [1; 2]) /\
  In big_fest [big_fest] /\
  is_in_window now_2024 big_fest = true /\
  categories big_fest = [lit "hamfest"].
Proof.
  assert (H : ingest_arrl_hamfests now_2024 no_entities ascii_digit
                strptime_slashes hamfest_site = Some ([big_fest], [1; 2]))
    by reflexivity.
  assert (I : In big_fest [big_fest]) by (left; reflexivity).
  split; [exact H|]. split; [exact I|].
  destruct (ingest_arrl_hamfests_events now_2024 no_entities ascii_digit
              strptime_slashes hamfest_site _ _ big_fest H I) as [Hw [Hc _]].
  split; [exact Hw | exact Hc].
Defined.

Lemma ingest_arrl_hamfests_pages_witness :
  ingest_arrl_hamfests now_2024 no_entities ascii_digit strptime_slashes
    hamfest_site = Some ([big_fest], [1; 2]) /\
  (exists k, (1 <= k <= 12)%nat /\ [1; 2] = pages_from 1 k) /\
  hamfest_site_down 1 = Failed /\
  ingest_arrl_hamfests now_2024 no_entities ascii_digit strptime_slashes
    hamfest_site_down = None.
Proof.
  assert (H : ingest_arrl_hamfests now_2024 no_entities ascii_digit
                strptime_slashes hamfest_site = Some ([big_fest], [1; 2]))
    by reflexivity.
  split; [exact H|]. split.
  - destruct (proj1 (ingest_arrl_hamfests_pages now_2024 no_entities
                       ascii_digit strptime_slashes hamfest_site) _ _ H)
      as [k [Hk [Hf _]]].
    exists k. split; [exact Hk | exact Hf].
  - split; [reflexivity|].
    exact (proj1 (proj2 (proj2 (ingest_arrl_hamfests_pages now_2024
                                  no_entities ascii_digit strptime_slashes
                                  hamfest_site_down))) eq_refl).
Defined.

Lemma any_event_date_in_text_after_sound_witness :
  no_digit ascii_digit (lit "No hamfests found") = true /\
  any_event_date_in_text_after ascii_digit strptime_slashes (lit "No hamfests found")
    (mkdate 2024 8 2) = Some false.
Proof.
  split; [reflexivity|].
  exact (proj2 (any_event_date_in_text_after_sound ascii_digit strptime_slashes
                  (lit "No hamfests found") (mkdate 2024 8 2)) eq_refl).
Defined.

Lemma main_calendars_sound_witness :
  wa_outcome now_2024 ascii_table ascii_digit strptime_ascii no_parser
    (Some [feed_event]) /\
  arrl_outcome now_2024 ascii_table no_entities ascii_digit word_char
    strptime_dashes None /\
  hf_outcome now_2024 no_entities ascii_digit strptime_slashes
    (Some [big_fest]) /\
  forall e,
    In e (cal_all (main_calendars (Some [feed_event]) None (Some [big_fest]))) ->
    is_in_window now_2024 e = true.
Proof.
  assert (W : wa_outcome now_2024 ascii_table ascii_digit strptime_ascii
                no_parser (Some [feed_event])) by (right; exists feed_2024; reflexivity).
  assert (A : arrl_outcome now_2024 ascii_table no_entities ascii_digit
                word_char strptime_dashes None) by (left; reflexivity).
  assert (F : hf_outcome now_2024 no_entities ascii_digit strptime_slashes
                (Some [big_fest])) by (right; exists hamfest_site; reflexivity).
  split; [exact W|]. split; [exact A|]. split; [exact F|].
  intros e He.
  exact (proj1 (proj1 (main_calendars_sound now_2024 ascii_table no_entities
                         ascii_digit strptime_ascii no_parser word_char strptime_dashes
                         strptime_slashes _ _ _ W A F) e He)).
Defined.

Lemma strip_html_tags_removed_witness :
  no_lt (lit "Field Day 2024") = true /\
  strip_html no_entities (lit "Field Day 2024") = no_entities (lit "Field Day 2024").
Proof.
  split; [reflexivity|].
  exact (proj1 (strip_html_tags_removed no_entities (lit "Field Day 2024")) eq_refl).
Defined.

Lemma parse_google_ics_datetime_date_only_witness :
  eight_digits ascii_digit (strip (lit " 20240622 ")) = true /\
  parse_google_ics_datetime ascii_digit strptime_ascii no_parser (lit " 20240622 ")
    = Some (datetime_midnight (mkdate 2024 6 22)) /\
  datetime_hour (datetime_midnight (mkdate 2024 6 22)) = 0.
Proof.
  do 2 (split; [reflexivity|]).
  exact (proj1 (proj2 (proj2 (parse_google_ics_datetime_date_only ascii_digit
                                strptime_ascii no_parser (lit " 20240622 ")) eq_refl)
                  _ eq_refl)).
Defined.

Lemma page_titles_single_line_witness :
  ingest_arrl_hamfests now_2024 no_entities ascii_digit strptime_slashes
    hamfest_site = Some ([big_fest], [1; 2]) /\
  In big_fest [big_fest] /\
  nolf (title big_fest) = true.
Proof.
  assert (H : ingest_arrl_hamfests now_2024 no_entities ascii_digit
                strptime_slashes hamfest_site = Some ([big_fest], [1; 2]))
    by reflexivity.
  assert (I : In big_fest [big_fest]) by (left; reflexivity).
  split; [exact H|]. split; [exact I|].
  exact (proj2 (page_titles_single_line now_2024 ascii_table no_entities
                  ascii_digit word_char strptime_dashes strptime_slashes)
           hamfest_site _ _ big_fest H I).
Defined.


Lemma hamfest_line_row_witness :
  mdY_token ascii_digit (lit "06/22/2024") = true /\
  head_space (lit "06/22/2024") = false /\
  forallb is_space (lit " ") = true /\
  lit "Big Fest" <> [] /\
  nolf (lit "Big Fest") = true /\
  strip (lit "Big Fest") = lit "Big Fest" /\
  strptime_slashes (lit "06/22/2024") = Some (mkdate 2024 6 22) /\
  datetime_add (datetime_midnight (mkdate 2024 6 22)) (timedelta_days 1)
    = Some (datetime_midnight (mkdate 2024 6 23)) /\
  hamfest_line ascii_digit strptime_slashes
    (lit "06/22/2024" ++ lit " " ++ 45%N :: lit " " ++ lit "Big Fest") = Built big_fest.
Proof.
  assert (N : lit "Big Fest" <> []) by discriminate.
  do 3 (split; [reflexivity|]). split; [exact N|]. do 4 (split; [reflexivity|]).
  exact (hamfest_line_row ascii_digit strptime_slashes (lit "06/22/2024") (lit " ")
           (lit " ") (lit "Big Fest") (mkdate 2024 6 22)
           (datetime_midnight (mkdate 2024 6 23))
           eq_refl eq_refl eq_refl eq_refl N eq_refl eq_refl eq_refl eq_refl).
Defined.

Lemma contest_line_token_witness :
  iso_token ascii_digit (lit "2024-06-15") = true /\
  (forall c, ascii_digit c = true -> word_char c = true) /\
  starts_non_word word_char (lit " June VHF Contest") = true /\
  strip (lit "2024-06-15" ++ lit " June VHF Contest")
    = lit "2024-06-15" ++ lit " June VHF Contest" /\
  strptime_dashes (lit "2024-06-15") = Some (mkdate 2024 6 15) /\
  datetime_add (datetime_midnight (mkdate 2024 6 15)) (timedelta_days 1)
    = Some (datetime_midnight (mkdate 2024 6 16)) /\
  contest_line ascii_table ascii_digit word_char strptime_dashes
    (lit "2024-06-15" ++ lit " June VHF Contest") = Built vhf_contest.
Proof.
  assert (W : forall c, ascii_digit c = true -> word_char c = true).
  { intros c H. unfold word_char. unfold ascii_digit in H. rewrite H. reflexivity. }
  split; [reflexivity|]. split; [exact W|]. do 4 (split; [reflexivity|]).
  exact (contest_line_token ascii_table ascii_digit word_char strptime_dashes
           (lit "2024-06-15") (lit " June VHF Contest") (mkdate 2024 6 15)
           (datetime_midnight (mkdate 2024 6 16))
           eq_refl W eq_refl eq_refl eq_refl eq_refl).
Defined.
